(** * Cognitive core: memories, traits, resonances

  A shallow embedding of the state-keeping core of the [shandris::cognitive]
  sources ([memory.cpp], [persona_system.cpp]) together with the properties
  that its specification states about it.

  Conventions of the embedding.
  - A C++ [double] is a real number ([R]); rounding is not modelled.
    [std::exp], [std::abs], [std::min], [std::max] are [exp], [Rabs],
    [Rmin], [Rmax].  Properties of a computed [double] are stated through
    the expression the code evaluates, the comparisons it makes, and
    bounds.
  - A [std::chrono::system_clock::time_point] is a number of seconds ([Z]);
    [duration_cast<hours>] truncates toward zero ([Z.quot]).  The instant
    [now] read from the clock is an argument of every operation that
    reads it.
  - A [std::map] is an association list in iteration order (keys
    ascending, each key once); a [std::set] and a [std::vector] are lists.
  - A member function that mutates its object is a function from the old
    state to the new one; an exception is a constructor of the result. *)

From Stdlib Require Import Reals Lra List String Ascii ZArith Lia Bool Arith.
From Equations Require Import Equations.
Import ListNotations.

Local Open Scope string_scope.
Local Open Scope list_scope.
Local Open Scope R_scope.

(** ** Numbers and time *)

Definition time_point := Z.

Definition seconds_per_hour : Z := 3600.

(** [duration_cast<std::chrono::hours>(later - earlier).count()] *)
Definition hours_between (later earlier : time_point) : Z :=
Z.quot (later - earlier) seconds_per_hour.

Definition Rltb (x y : R) : bool := if Rlt_dec x y then true else false.

(** ** Association lists standing for [std::map<std::string, V>] *)

Section Assoc.
Context {V : Type}.

Fixpoint map_find (k : string) (m : list (string * V)) : option V :=
  match m with
  | [] => None
  | (k', v) :: m' => if String.eqb k k' then Some v else map_find k m'
  end.

(** [m[k] = v] on a map kept in ascending key order. *)
Fixpoint map_assign (k : string) (v : V) (m : list (string * V))
  : list (string * V) :=
  match m with
  | [] => [(k, v)]
  | (k', v') :: m' =>
      if String.eqb k k' then (k, v) :: m'
      else if String.ltb k k' then (k, v) :: (k', v') :: m'
      else (k', v') :: map_assign k v m'
  end.
End Assoc.

(** ** Shared records *)

(** [struct MemoryEvent] ([memory.hpp]). *)
Record MemoryEvent := mkMemoryEvent {
id : string;
content : string;
context : string;
importance : R;
emotional_weight : R;
trait_influences : list (string * R);
tags : list string;
created_at : time_point;
updated_at : time_point
}.

(** [struct MemoryConnection] ([memory_types.hpp]). *)
Record MemoryConnection := mkMemoryConnection {
SourceMemory : string;
TargetMemory : string;
Strength : R;
ConnectionType : string;
SharedTraits : list string
}.

(** The resonance and pattern records used by [memory.cpp] and
  [persona_system.cpp]. *)
Record EmotionalResonance := mkEmotionalResonance {
Intensity : R;
Duration : R;
Trigger : string;
StartTime : time_point;
PeakTime : time_point;
AssociatedMemories : list string
}.

Record EmotionalPattern := mkEmotionalPattern {
PatternType : string;
BaseIntensity : R;
CurrentIntensity : R;
LastTriggered : time_point;
PatternMemories : list MemoryEvent;
Triggers : list string
}.

(** ** Session functions of [memory.cpp]: resonances and patterns *)

Module Resonance.

(** The part of the session's memory context these functions touch. *)
Record MemoryContext := mkMemoryContext {
  ShortTermMemories : list MemoryEvent;
  LongTermMemories : list MemoryEvent;
  ActiveResonances : list EmotionalResonance;
  EmotionalPatterns : list EmotionalPattern;
  MemoryConnections : list MemoryConnection
}.

(** [resonance.Intensity *= std::exp(-0.1 * timeSinceStart)] *)
Definition timeFactor (now : time_point) (r : EmotionalResonance) : R :=
  exp (- 0.1 * IZR (hours_between now (StartTime r))).

Definition decay (now : time_point) (r : EmotionalResonance)
  : EmotionalResonance :=
  {| Intensity := Intensity r * timeFactor now r;
     Duration := Duration r;
     Trigger := Trigger r;
     StartTime := StartTime r;
     PeakTime := PeakTime r;
     AssociatedMemories := AssociatedMemories r |}.

(** The inner two loops: for each associated content the first short-term
    memory with that content. *)
Definition pattern_memories (stm : list MemoryEvent) (contents : list string)
  : list MemoryEvent :=
  flat_map
    (fun c => match find (fun m => String.eqb (content m) c) stm with
              | Some m => [m]
              | None => []
              end) contents.

Definition make_pattern (now : time_point) (stm : list MemoryEvent)
           (r : EmotionalResonance) : EmotionalPattern :=
  {| PatternType := Trigger r;
     BaseIntensity := Intensity r;
     CurrentIntensity := Intensity r;
     LastTriggered := now;
     PatternMemories := pattern_memories stm (AssociatedMemories r);
     Triggers := [] |}.

(** One iteration of the loop over [ActiveResonances]: the resonance is
    updated in place and a pattern may be pushed. *)
Definition tick (now : time_point) (stm : list MemoryEvent)
           (acc : list EmotionalResonance * list EmotionalPattern)
           (r : EmotionalResonance)
  : list EmotionalResonance * list EmotionalPattern :=
  let r' := decay now r in
  let pats :=
    if Rltb (Intensity r') 0.1 then
      if Rltb 0.5 (Intensity r') then snd acc ++ [make_pattern now stm r']
      else snd acc
    else snd acc in
  (fst acc ++ [r'], pats).

(** The predicate of the closing [remove_if]. *)
Definition expired (r : EmotionalResonance) : bool := Rltb (Intensity r) 0.1.

Definition UpdateEmotionalPatterns (now : time_point) (ctx : MemoryContext)
  : MemoryContext :=
  let swept :=
    fold_left (tick now (ShortTermMemories ctx)) (ActiveResonances ctx)
              ([], EmotionalPatterns ctx) in
  {| ShortTermMemories := ShortTermMemories ctx;
     LongTermMemories := LongTermMemories ctx;
     ActiveResonances := filter (fun r => negb (expired r)) (fst swept);
     EmotionalPatterns := snd swept;
     MemoryConnections := MemoryConnections ctx |}.

(** The strength [CreateMemoryConnections] computes for a pair, with the
    shared trait names it collects on the way. *)
Definition pair_strength (mem1 mem2 : MemoryEvent) : R * list string :=
  let after_traits :=
    fold_left
      (fun acc trait =>
         match map_find (fst trait) (trait_influences mem2) with
         | Some _ => (fst acc + 0.3, snd acc ++ [fst trait])
         | None => acc
         end)
      (trait_influences mem1) (0, []) in
  let after_tags :=
    fold_left
      (fun strength tag =>
         if existsb (String.eqb tag) (tags mem2) then strength + 0.2
         else strength)
      (tags mem1) (fst after_traits) in
  let strength :=
    if Rltb (Rabs (emotional_weight mem1 - emotional_weight mem2)) 0.2
    then after_tags + 0.2 else after_tags in
  (strength, snd after_traits).

(** The body of the inner loop of [CreateMemoryConnections]. *)
Definition connect (mem1 : MemoryEvent) (connections : list MemoryConnection)
           (mem2 : MemoryEvent) : list MemoryConnection :=
  if Rltb 0.5 (fst (pair_strength mem1 mem2))
  then connections
       ++ [mkMemoryConnection (content mem1) (content mem2)
             (fst (pair_strength mem1 mem2)) "emotional"
             (snd (pair_strength mem1 mem2))]
  else connections.

(** The loops over [i] and [j > i]. *)
Fixpoint connect_all (allMemories : list MemoryEvent)
         (connections : list MemoryConnection) : list MemoryConnection :=
  match allMemories with
  | [] => connections
  | mem1 :: later => connect_all later (fold_left (connect mem1) later connections)
  end.

Definition CreateMemoryConnections (ctx : MemoryContext) : MemoryContext :=
  {| ShortTermMemories := ShortTermMemories ctx;
     LongTermMemories := LongTermMemories ctx;
     ActiveResonances := ActiveResonances ctx;
     EmotionalPatterns := EmotionalPatterns ctx;
     MemoryConnections :=
       connect_all (ShortTermMemories ctx ++ LongTermMemories ctx)
                   (MemoryConnections ctx) |}.

(** The session's [ProcessEmotionalResonance(sessionID, trigger, intensity)].
    [relevantMemories] is what [RecallRelevantMemories(trigger)] hands
    back; the clock is read once. *)
Definition ProcessEmotionalResonance (relevantMemories : list MemoryEvent)
           (trigger : string) (intensity : R) (now : time_point)
           (ctx : MemoryContext) : MemoryContext :=
  let resonance :=
    {| Intensity := intensity;
       Duration := 1;
       Trigger := trigger;
       StartTime := now;
       PeakTime := (now + seconds_per_hour)%Z;
       AssociatedMemories :=
         map content
           (filter (fun memory => Rltb 0.5 (emotional_weight memory))
                   relevantMemories) |} in
  UpdateEmotionalPatterns now
    {| ShortTermMemories := ShortTermMemories ctx;
       LongTermMemories := LongTermMemories ctx;
       ActiveResonances := ActiveResonances ctx ++ [resonance];
       EmotionalPatterns := EmotionalPatterns ctx;
       MemoryConnections := MemoryConnections ctx |}.

End Resonance.

(** ** [class MemoryManager] ([memory.hpp], [memory.cpp]) *)

Module MemoryManager.

(** *** The persistence collaborator

    [database::Database] is outside these sources.  A statement is a query
    text with its parameters; the parameters are kept as values instead of
    the strings [std::to_string] and [nlohmann::json::dump] make of them.
    Whether a statement succeeds is the collaborator's decision
    ([db_accepts]); the statements that succeeded are recorded. *)

Inductive SqlParam :=
| PText (s : string)
| PReal (r : R)
| PTime (t : time_point)
| PTraits (m : list (string * R))
| PTags (l : list string).

Record Database := mkDatabase {
  db_opens : bool;
  db_accepts : string -> list SqlParam -> bool;
  db_executed : list (string * list SqlParam)
}.

Definition ExecuteQueryWithParams (query : string) (params : list SqlParam)
           (db : Database) : bool * Database :=
  if db_accepts db query params then
    (true, {| db_opens := db_opens db;
              db_accepts := db_accepts db;
              db_executed := db_executed db ++ [(query, params)] |})
  else (false, db).

(** *** State *)

Record TraitBaseline := mkTraitBaseline {
  CurrentValue : R;
  TargetValue : R;
  AdjustmentRate : R;
  Stability : R;
  LastAdjustment : time_point;
  SupportingMemories : list string;
  ConflictingMemories : list string
}.

Record TraitEvolutionMetrics := mkTraitEvolutionMetrics {
  ShortTermChange : R;
  LongTermTrend : R;
  Volatility : R;
  Confidence : R;
  HistoricalValues : list R;
  LastUpdate : time_point
}.

(** What [operator[]] inserts for a key that is not there yet. *)
Definition default_baseline : TraitBaseline :=
  mkTraitBaseline 0 0 0 0 0%Z [] [].

Definition default_metrics : TraitEvolutionMetrics :=
  mkTraitEvolutionMetrics 0 0 0 0 [] 0%Z.

Module Evolution.
Record GrowthPattern := mkGrowthPattern {
    TriggeringEvents : list string;
    Strength : R
  }.
End Evolution.

(** An entry of [memory_cache_], the map [UpdateCache] walks; the header
    does not declare it, and [last_accessed] is the one field that is read. *)
Record CacheEntry := mkCacheEntry {
  cached : MemoryEvent;
  last_accessed : time_point
}.

(** The context [GetMemoryContext] hands out.  Every member function asks
    for the session ["default"]; [valid] is what the test [!context]
    negates. *)
Record MemoryContext := mkMemoryContext {
  valid : bool;
  memory_index : list (string * MemoryEvent);
  clusters : list (list MemoryEvent);
  MemoryConnections : list MemoryConnection;
  GrowthPatterns : list Evolution.GrowthPattern;
  ActiveResonances : list EmotionalResonance;
  EmotionalPatterns : list EmotionalPattern
}.

Record MemoryManager := mkMemoryManager {
  is_initialized_ : bool;
  db_ : Database;
  maxCacheSize_ : nat;
  memories_ : list (string * MemoryEvent);
  memory_cache_ : list (string * CacheEntry);
  trait_baselines_ : list (string * TraitBaseline);
  traitEvolutionMetrics_ : list (string * TraitEvolutionMetrics);
  context_ : MemoryContext
}.

Definition set_db (db : Database) (mm : MemoryManager) : MemoryManager :=
  mkMemoryManager (is_initialized_ mm) db (maxCacheSize_ mm) (memories_ mm)
    (memory_cache_ mm) (trait_baselines_ mm) (traitEvolutionMetrics_ mm)
    (context_ mm).

Definition set_memories (ms : list (string * MemoryEvent))
           (mm : MemoryManager) : MemoryManager :=
  mkMemoryManager (is_initialized_ mm) (db_ mm) (maxCacheSize_ mm) ms
    (memory_cache_ mm) (trait_baselines_ mm) (traitEvolutionMetrics_ mm)
    (context_ mm).

Definition set_cache (c : list (string * CacheEntry))
           (mm : MemoryManager) : MemoryManager :=
  mkMemoryManager (is_initialized_ mm) (db_ mm) (maxCacheSize_ mm)
    (memories_ mm) c (trait_baselines_ mm) (traitEvolutionMetrics_ mm)
    (context_ mm).

Definition set_baselines (b : list (string * TraitBaseline))
           (mm : MemoryManager) : MemoryManager :=
  mkMemoryManager (is_initialized_ mm) (db_ mm) (maxCacheSize_ mm)
    (memories_ mm) (memory_cache_ mm) b (traitEvolutionMetrics_ mm)
    (context_ mm).

Definition set_metrics (e : list (string * TraitEvolutionMetrics))
           (mm : MemoryManager) : MemoryManager :=
  mkMemoryManager (is_initialized_ mm) (db_ mm) (maxCacheSize_ mm)
    (memories_ mm) (memory_cache_ mm) (trait_baselines_ mm) e
    (context_ mm).

Definition set_context (c : MemoryContext) (mm : MemoryManager)
  : MemoryManager :=
  mkMemoryManager (is_initialized_ mm) (db_ mm) (maxCacheSize_ mm)
    (memories_ mm) (memory_cache_ mm) (trait_baselines_ mm)
    (traitEvolutionMetrics_ mm) c.

Definition set_index (ix : list (string * MemoryEvent)) (c : MemoryContext)
  : MemoryContext :=
  mkMemoryContext (valid c) ix (clusters c) (MemoryConnections c)
    (GrowthPatterns c) (ActiveResonances c) (EmotionalPatterns c).

Definition set_clusters (cl : list (list MemoryEvent)) (c : MemoryContext)
  : MemoryContext :=
  mkMemoryContext (valid c) (memory_index c) cl (MemoryConnections c)
    (GrowthPatterns c) (ActiveResonances c) (EmotionalPatterns c).

Definition set_connections (cs : list MemoryConnection) (c : MemoryContext)
  : MemoryContext :=
  mkMemoryContext (valid c) (memory_index c) (clusters c) cs
    (GrowthPatterns c) (ActiveResonances c) (EmotionalPatterns c).

Definition set_growth (g : list Evolution.GrowthPattern) (c : MemoryContext)
  : MemoryContext :=
  mkMemoryContext (valid c) (memory_index c) (clusters c)
    (MemoryConnections c) g (ActiveResonances c) (EmotionalPatterns c).

(** *** Operations that may throw *)

Inductive outcome (A : Type) :=
| Returned (a : A)
| Threw (what : string).
Arguments Returned {A} a.
Arguments Threw {A} what.

Definition M (A : Type) : Type := MemoryManager -> outcome A * MemoryManager.

Definition ret {A} (a : A) : M A := fun mm => (Returned a, mm).

Definition throw {A} (what : string) : M A := fun mm => (Threw what, mm).

Definition bind {A B} (c : M A) (k : A -> M B) : M B :=
  fun mm => match c mm with
            | (Returned a, mm') => k a mm'
            | (Threw what, mm') => (Threw what, mm')
            end.

Definition get : M MemoryManager := fun mm => (Returned mm, mm).

Definition modify (f : MemoryManager -> MemoryManager) : M unit :=
  fun mm => (Returned tt, f mm).

Notation "x <- c ;; k" := (bind c (fun x => k))
  (at level 61, c at next level, right associativity).
Notation "c ;;; k" := (bind c (fun _ => k))
  (at level 61, right associativity).

(** The two guards that open the throwing member functions. *)
Definition require_ready : M unit :=
  mm <- get ;;
  if negb (is_initialized_ mm) then throw "MemoryManager not initialized"
  else if negb (valid (context_ mm)) then throw "Failed to get memory context"
  else ret tt.

(** *** Admission and update of memories *)

Definition set_initialized (b : bool) (mm : MemoryManager) : MemoryManager :=
  mkMemoryManager b (db_ mm) (maxCacheSize_ mm) (memories_ mm)
    (memory_cache_ mm) (trait_baselines_ mm) (traitEvolutionMetrics_ mm)
    (context_ mm).

Definition Initialize (mm : MemoryManager) : bool * MemoryManager :=
  if negb (db_opens (db_ mm)) then (false, mm)
  else (true, set_initialized true mm).

(** [context.memory_index[memory.id] = memory] *)
Definition UpdateMemoryIndex (sessionID : string) (memory : MemoryEvent)
           (mm : MemoryManager) : MemoryManager :=
  let ctx := context_ mm in
  set_context
    (set_index (map_assign (id memory) memory (memory_index ctx)) ctx) mm.

(** The loop of [UpdateMemoryCluster]: [Some] of the clusters with the memory
    pushed onto the first non-empty cluster whose first member is within 0.1,
    [None] when the loop ends with [added == false]. *)
Fixpoint join_cluster (memory : MemoryEvent) (cs : list (list MemoryEvent))
  : option (list (list MemoryEvent)) :=
  match cs with
  | [] => None
  | cluster :: rest =>
      match cluster with
      | [] => option_map (cons cluster) (join_cluster memory rest)
      | first :: _ =>
          if Rltb (Rabs (emotional_weight first - emotional_weight memory)) 0.1
          then Some ((cluster ++ [memory]) :: rest)
          else option_map (cons cluster) (join_cluster memory rest)
      end
  end.

Definition UpdateMemoryCluster (sessionID : string) (memory : MemoryEvent)
           (mm : MemoryManager) : MemoryManager :=
  let ctx := context_ mm in
  match join_cluster memory (clusters ctx) with
  | Some cs => set_context (set_clusters cs ctx) mm
  | None => set_context (set_clusters (clusters ctx ++ [[memory]]) ctx) mm
  end.

Definition insert_query : string :=
  "INSERT INTO memories (id, content, context, importance, emotional_weight, trait_influences, tags, created_at, updated_at) VALUES (?, ?, ?, ?, ?, ?, ?, ?, ?)".

Definition update_query : string :=
  "UPDATE memories SET content = ?, context = ?, importance = ?, emotional_weight = ?, trait_influences = ?, tags = ?, updated_at = ? WHERE id = ?".

Definition insert_params (memory : MemoryEvent) : list SqlParam :=
  [ PText (id memory); PText (content memory); PText (context memory);
    PReal (importance memory); PReal (emotional_weight memory);
    PTraits (trait_influences memory); PTags (tags memory);
    PTime (created_at memory); PTime (updated_at memory) ].

Definition update_params (memory : MemoryEvent) : list SqlParam :=
  [ PText (content memory); PText (context memory);
    PReal (importance memory); PReal (emotional_weight memory);
    PTraits (trait_influences memory); PTags (tags memory);
    PTime (updated_at memory); PText (id memory) ].

(** The tail shared by [SaveMemory] and [UpdateMemory] (the lines under
    "Update cache"). *)
Definition store_memory (memory : MemoryEvent) (mm : MemoryManager)
  : MemoryManager :=
  let mm1 := set_memories (map_assign (id memory) memory (memories_ mm)) mm in
  let mm2 := UpdateMemoryIndex "default" memory mm1 in
  UpdateMemoryCluster "default" memory mm2.

Definition SaveMemory (memory : MemoryEvent) (mm : MemoryManager)
  : bool * MemoryManager :=
  if negb (is_initialized_ mm) then (false, mm)
  else
    let (ok, db) :=
      ExecuteQueryWithParams insert_query (insert_params memory) (db_ mm) in
    if negb ok then (false, set_db db mm)
    else (true, store_memory memory (set_db db mm)).

Definition UpdateMemory (memory : MemoryEvent) (mm : MemoryManager)
  : bool * MemoryManager :=
  if negb (is_initialized_ mm) then (false, mm)
  else
    let (ok, db) :=
      ExecuteQueryWithParams update_query (update_params memory) (db_ mm) in
    if negb ok then (false, set_db db mm)
    else (true, store_memory memory (set_db db mm)).

(** *** Trait baselines *)

(** [m[k]] used as an lvalue: the entry, inserted with [dflt] if absent. *)
Definition subscript {V} (dflt : V) (k : string) (m : list (string * V))
  : V * list (string * V) :=
  match map_find k m with
  | Some v => (v, m)
  | None => (dflt, map_assign k dflt m)
  end.

Definition Rsum (l : list R) : R := fold_left Rplus l 0.

(** Population standard deviation, as both [UpdateTraitStability] and
    [AnalyzeTraitTrends] compute it. *)
Definition std_deviation (values : list R) : R :=
  let mean := Rsum values / INR (List.length values) in
  let variance :=
    fold_left (fun acc value => acc + (value - mean) ^ 2) values 0
    / INR (List.length values) in
  sqrt variance.

(** The source writes [traitBaselines_] and [traitEvolutionMetrics_] here for
    the maps the header declares as [trait_baselines_] and
    [trait_evolution_metrics_]. *)
Definition UpdateTraitStability (traitName : string) (mm : MemoryManager)
  : MemoryManager :=
  let (baseline, baselines) :=
    subscript default_baseline traitName (trait_baselines_ mm) in
  let (metrics, metricss) :=
    subscript default_metrics traitName (traitEvolutionMetrics_ mm) in
  let volatility :=
    if (2 <=? List.length (HistoricalValues metrics))%nat
    then std_deviation (HistoricalValues metrics)
    else Volatility metrics in
  let metrics' :=
    mkTraitEvolutionMetrics (ShortTermChange metrics) (LongTermTrend metrics)
      volatility (Confidence metrics) (HistoricalValues metrics)
      (LastUpdate metrics) in
  let baseline' :=
    mkTraitBaseline (CurrentValue baseline) (TargetValue baseline)
      (AdjustmentRate baseline) (exp (- volatility) * Confidence metrics)
      (LastAdjustment baseline) (SupportingMemories baseline)
      (ConflictingMemories baseline) in
  set_metrics (map_assign traitName metrics' metricss)
    (set_baselines (map_assign traitName baseline' baselines) mm).

Definition UpdateTraitBaseline (traitName : string) (influence : R)
           (now : time_point) : M unit :=
  require_ready ;;;
  modify (fun mm =>
    let (baseline, baselines) :=
      subscript default_baseline traitName (trait_baselines_ mm) in
    let baseline' :=
      mkTraitBaseline (CurrentValue baseline + influence)
        (TargetValue baseline) (AdjustmentRate baseline) (Stability baseline)
        now (SupportingMemories baseline) (ConflictingMemories baseline) in
    UpdateTraitStability traitName
      (set_baselines (map_assign traitName baseline' baselines) mm)).

(** The arithmetic of [CalculateTraitConfidence] on the two records it
    reads. *)
Definition trait_confidence (baseline : TraitBaseline)
           (metrics : TraitEvolutionMetrics) : R :=
  let consistencyScore := 1 - Volatility metrics in
  let memorySupportScore :=
    INR (List.length (SupportingMemories baseline)) /
    INR (List.length (SupportingMemories baseline)
         + List.length (ConflictingMemories baseline) + 1) in
  let trendConfidence := exp (- Rabs (LongTermTrend metrics)) in
  consistencyScore * 0.4 + memorySupportScore * 0.3 + trendConfidence * 0.3.

Definition CalculateTraitConfidence (traitName : string) (mm : MemoryManager)
  : R * MemoryManager :=
  let (baseline, baselines) :=
    subscript default_baseline traitName (trait_baselines_ mm) in
  let (metrics, metricss) :=
    subscript default_metrics traitName (traitEvolutionMetrics_ mm) in
  (trait_confidence baseline metrics,
   set_metrics metricss (set_baselines baselines mm)).

(** *** Emotional processing *)

Definition refresh_pattern (memories : list (string * MemoryEvent))
           (pattern : Evolution.GrowthPattern) : Evolution.GrowthPattern :=
  let newIntensity :=
    fold_left
      (fun acc memory =>
         if existsb (String.eqb (id (snd memory)))
                    (Evolution.TriggeringEvents pattern)
         then acc + emotional_weight (snd memory) else acc)
      memories 0 in
  Evolution.mkGrowthPattern (Evolution.TriggeringEvents pattern)
    (newIntensity / INR (List.length (Evolution.TriggeringEvents pattern))).

(** The member [UpdateEmotionalPatterns()]: it recomputes the strength of
    the growth patterns. *)
Definition UpdateEmotionalPatterns (mm : MemoryManager) : MemoryManager :=
  if negb (is_initialized_ mm) then mm
  else
    let ctx := context_ mm in
    set_context
      (set_growth (map (refresh_pattern (memories_ mm)) (GrowthPatterns ctx))
                  ctx) mm.

Definition boost (memory : MemoryEvent) : MemoryEvent :=
  mkMemoryEvent (id memory) (content memory) (context memory)
    (importance memory + emotional_weight memory * 0.5)
    (emotional_weight memory) (trait_influences memory) (tags memory)
    (created_at memory) (updated_at memory).

(** The body of the loop of [UpdateMemoryWeightsWithEmotion] at the entry
    with key [key]: the entry is changed in place, then handed to
    [UpdateMemory], whose result is dropped. *)
Definition boost_entry (mm : MemoryManager) (key : string) : MemoryManager :=
  match map_find key (memories_ mm) with
  | None => mm
  | Some memory =>
      let memory' := boost memory in
      snd (UpdateMemory memory'
             (set_memories (map_assign key memory' (memories_ mm)) mm))
  end.

(** Every writer of [memories_] stores a memory under its own id, so the
    loop meets exactly the keys present when it starts. *)
Definition UpdateMemoryWeightsWithEmotion (mm : MemoryManager)
  : MemoryManager :=
  if negb (is_initialized_ mm) then mm
  else fold_left boost_entry (map fst (memories_ mm)) mm.

Definition ProcessEmotionalResonance (trigger : string) (intensity : R)
           (now : time_point) : M unit :=
  require_ready ;;;
  let resonance := mkEmotionalResonance intensity 0 trigger now now [] in
  modify UpdateEmotionalPatterns ;;;
  modify UpdateMemoryWeightsWithEmotion.

(** *** Associations *)

Definition traitStrength (mem1 mem2 : MemoryEvent) : R :=
  fold_left
    (fun acc trait =>
       match map_find (fst trait) (trait_influences mem2) with
       | Some other => acc + Rmin (snd trait) other
       | None => acc
       end)
    (trait_influences mem1) 0.

Definition tagStrength (mem1 mem2 : MemoryEvent) : R :=
  fold_left
    (fun acc tag =>
       if existsb (String.eqb tag) (tags mem2) then acc + 1 else acc)
    (tags mem1) 0.

Definition connection_strength (mem1 mem2 : MemoryEvent) : R :=
  (traitStrength mem1 mem2 + tagStrength mem1 mem2) / 2.

Definition make_connection (mem1 mem2 : string * MemoryEvent)
  : MemoryConnection :=
  mkMemoryConnection (fst mem1) (fst mem2)
    (connection_strength (snd mem1) (snd mem2)) "" [].

(** The body of the inner loop. *)
Definition associate (mem1 : string * MemoryEvent)
           (connections : list MemoryConnection) (mem2 : string * MemoryEvent)
  : list MemoryConnection :=
  if negb (String.ltb (fst mem1) (fst mem2)) then connections
  else if Rltb 0.3 (connection_strength (snd mem1) (snd mem2))
       then connections ++ [make_connection mem1 mem2]
       else connections.

(** What one round of the inner loop adds to the connections. *)
Definition pair_connection (mem1 mem2 : string * MemoryEvent)
  : list MemoryConnection :=
  if String.ltb (fst mem1) (fst mem2)
     && Rltb 0.3 (connection_strength (snd mem1) (snd mem2))
  then [make_connection mem1 mem2] else [].

Definition all_connections (memories : list (string * MemoryEvent))
  : list MemoryConnection :=
  fold_left
    (fun connections mem1 => fold_left (associate mem1) memories connections)
    memories [].

Definition UpdateMemoryAssociations : M unit :=
  require_ready ;;;
  modify (fun mm =>
    set_context
      (set_connections (all_connections (memories_ mm)) (context_ mm)) mm).

(** *** The recency cache *)

(** The inner [for] loop: the position of the first entry whose
    [last_accessed] is strictly the smallest. *)
Fixpoint oldest_from (oldest : nat) (oldest_time : time_point) (it : nat)
         (rest : list (string * CacheEntry)) : nat :=
  match rest with
  | [] => oldest
  | entry :: rest' =>
      if (last_accessed (snd entry) <? oldest_time)%Z
      then oldest_from it (last_accessed (snd entry)) (S it) rest'
      else oldest_from oldest oldest_time (S it) rest'
  end.

Definition oldest (cache : list (string * CacheEntry)) : nat :=
  match cache with
  | [] => 0%nat
  | entry :: rest => oldest_from 0 (last_accessed (snd entry)) 1 rest
  end.

(** [memory_cache_.erase(it)] for the iterator at position [pos]. *)
Fixpoint erase (pos : nat) (cache : list (string * CacheEntry))
  : list (string * CacheEntry) :=
  match cache, pos with
  | [], _ => []
  | _ :: rest, O => rest
  | entry :: rest, S pos' => entry :: erase pos' rest
  end.

(** The [while] loop of [UpdateCache]; every round erases one entry. *)
Equations? evict (maxCacheSize : nat) (cache : list (string * CacheEntry))
  : list (string * CacheEntry) by wf (List.length cache) lt :=
  evict maxCacheSize cache with le_lt_dec (List.length cache) maxCacheSize => {
    | left _ := cache;
    | right _ := evict maxCacheSize (erase (oldest cache) cache) }.
Proof.
  clear evict.
  assert (Hpos : forall rest o t i, (o < i)%nat ->
            (oldest_from o t i rest < i + List.length rest)%nat).
  { induction rest as [|e rest IH]; intros o t i Hoi; simpl; [lia|].
    destruct (last_accessed (snd e) <? t)%Z.
    - specialize (IH i (last_accessed (snd e)) (S i)). lia.
    - specialize (IH o t (S i)). lia. }
  assert (Herase : forall c pos, (pos < List.length c)%nat ->
            (List.length (erase pos c) < List.length c)%nat).
  { induction c as [|e c IH]; intros pos Hp; simpl in *; [lia|].
    destruct pos; simpl; [lia|]. specialize (IH pos). lia. }
  apply Herase. destruct cache as [|e rest]; simpl in *; [lia|].
  specialize (Hpos rest 0%nat (last_accessed (snd e)) 1%nat). lia.
Qed.

Definition UpdateCache (mm : MemoryManager) : MemoryManager :=
  if negb (is_initialized_ mm) then mm
  else set_cache (evict (maxCacheSize_ mm) (memory_cache_ mm)) mm.

(** *** Reading a memory back *)

(** [LoadMemory(id, memory)].  [row] is the collaborator's answer to the
    SELECT, as the memory the fields of its first row parse to ([None] for
    an empty result); the second component of the result is the [memory]
    argument after the call. *)
Definition LoadMemory (row : string -> option MemoryEvent) (id' : string)
           (memory : MemoryEvent) (mm : MemoryManager)
  : bool * MemoryEvent * MemoryManager :=
  if negb (is_initialized_ mm) then (false, memory, mm)
  else
    match map_find id' (memories_ mm) with
    | Some found => (true, found, mm)
    | None =>
        match row id' with
        | None => (false, memory, mm)
        | Some loaded =>
            (true, loaded,
             set_memories (map_assign id' loaded (memories_ mm)) mm)
        end
    end.

(** *** Evolution metrics *)

(** [push_back] followed by the erase of the first value once there are
    more than 100. *)
Definition push_history (newValue : R) (history : list R) : list R :=
  let pushed := history ++ [newValue] in
  if (100 <? List.length pushed)%nat then tl pushed else pushed.

Definition UpdateEvolutionMetrics (traitName : string) (newValue : R)
           (now : time_point) (mm : MemoryManager) : MemoryManager :=
  let (metrics, metricss) :=
    subscript default_metrics traitName (traitEvolutionMetrics_ mm) in
  let history := push_history newValue (HistoricalValues metrics) in
  let size := List.length history in
  let shortTermChange :=
    if (2 <=? size)%nat then newValue - nth (size - 2) history 0
    else ShortTermChange metrics in
  let longTermTrend :=
    if (10 <=? size)%nat then
      let recentMean := Rsum (skipn (size - 10) history) / 10 in
      let oldMean := Rsum (firstn 10 history) / 10 in
      recentMean - oldMean
    else LongTermTrend metrics in
  let metrics1 :=
    mkTraitEvolutionMetrics shortTermChange longTermTrend
      (Volatility metrics) (Confidence metrics) history (LastUpdate metrics) in
  let (confidence, mm1) :=
    CalculateTraitConfidence traitName
      (set_metrics (map_assign traitName metrics1 metricss) mm) in
  let metrics2 :=
    mkTraitEvolutionMetrics shortTermChange longTermTrend
      (Volatility metrics) confidence history now in
  set_metrics (map_assign traitName metrics2 (traitEvolutionMetrics_ mm1)) mm1.

(** *** Baselines from the stored memories *)

(** The inner loop of [UpdateTraitBaselines]: the sum of the influences on
    one trait and the number of memories that carry it. *)
Definition trait_evidence (traitName : string)
           (memories : list (string * MemoryEvent)) : R * nat :=
  fold_left
    (fun acc memory =>
       match map_find traitName (trait_influences (snd memory)) with
       | Some influence => (fst acc + influence, S (snd acc))
       | None => acc
       end)
    memories (0, 0%nat).

Definition rebase (memories : list (string * MemoryEvent))
           (trait : string * TraitBaseline) : string * TraitBaseline :=
  let (totalInfluence, count) := trait_evidence (fst trait) memories in
  if (0 <? count)%nat then
    (fst trait,
     mkTraitBaseline (totalInfluence / INR count) (TargetValue (snd trait))
       (AdjustmentRate (snd trait)) (Stability (snd trait))
       (LastAdjustment (snd trait)) (SupportingMemories (snd trait))
       (ConflictingMemories (snd trait)))
  else trait.

Definition UpdateTraitBaselines (mm : MemoryManager) : MemoryManager :=
  if negb (is_initialized_ mm) then mm
  else set_baselines (map (rebase (memories_ mm)) (trait_baselines_ mm)) mm.

(** *** Emotional connections *)








(** *** Pattern recognition *)

(** The body of the loop of the member [ProcessPatternRecognition]. *)
Definition recognize (now : time_point) (patterns : list EmotionalPattern)
           (connection : MemoryConnection) : list EmotionalPattern :=
  if Rltb 0.7 (Strength connection) then
    patterns
    ++ [mkEmotionalPattern "StrongConnection" (Strength connection)
          (Strength connection) now []
          [SourceMemory connection; TargetMemory connection]]
  else patterns.

(** [ProcessPatternRecognition()] on the context's [CorePatterns], which it
    is given and returns. *)
Definition ProcessPatternRecognition (now : time_point) (mm : MemoryManager)
           (CorePatterns : list EmotionalPattern)
  : outcome (list EmotionalPattern) :=
  if negb (is_initialized_ mm) then Threw "MemoryManager not initialized"
  else if negb (valid (context_ mm)) then Threw "Failed to get memory context"
  else Returned
         (fold_left (recognize now) (MemoryConnections (context_ mm))
                    CorePatterns).

(** *** The keyword index *)

(** [std::isspace] in the "C" locale. *)
Definition isspace (c : ascii) : bool :=
  (Ascii.eqb c " " || Ascii.eqb c "009" || Ascii.eqb c "010"
   || Ascii.eqb c "011" || Ascii.eqb c "012" || Ascii.eqb c "013")%char.

(** [while (ss >> word)]: the maximal runs of characters that are not
    white space; [word] is the run being read. *)
Fixpoint words_from (word : string) (rest : string) : list string :=
  match rest with
  | EmptyString =>
      match word with
      | EmptyString => []
      | _ => [word]
      end
  | String c rest' =>
      if isspace c then
        match word with
        | EmptyString => words_from "" rest'
        | _ => word :: words_from "" rest'
        end
      else words_from (String.append word (String c "")) rest'
  end.

Definition words (text : string) : list string := words_from "" text.

(** [memory_index_[key].push_back(id)] *)
Definition index_add (key id' : string) (index : list (string * list string))
  : list (string * list string) :=
  map_assign key
    (match map_find key index with
     | Some ids => ids ++ [id']
     | None => [id']
     end) index.

(** The body of the rebuilding loop for one stored memory. *)
Definition index_memory (index : list (string * list string))
           (memory : string * MemoryEvent) : list (string * list string) :=
  let by_words :=
    fold_left
      (fun index word =>
         if (3 <? String.length word)%nat
         then index_add word (fst memory) index else index)
      (words (content (snd memory))) index in
  fold_left (fun index tag => index_add tag (fst memory) index)
            (tags (snd memory)) by_words.

(** The member [UpdateMemoryIndex()] without arguments, on the keyword
    index [memory_index_]. *)
Definition RebuildMemoryIndex (mm : MemoryManager)
           (memory_index_ : list (string * list string))
  : list (string * list string) :=
  if negb (is_initialized_ mm) then memory_index_
  else fold_left index_memory (memories_ mm) [].

(** The ids listed under a key. *)
Definition ids_under (key : string) (index : list (string * list string))
  : list string :=
  match map_find key index with
  | Some ids => ids
  | None => []
  end.

(** The ids one memory contributes under a key: one per occurrence of the
    key among its content words longer than 3 characters, then one per
    occurrence among its tags. *)
Definition contribution (key : string) (memory : string * MemoryEvent)
  : list string :=
  map (fun _ => fst memory)
      (filter (fun word => (3 <? String.length word)%nat && String.eqb key word)
              (words (content (snd memory))))
  ++ map (fun _ => fst memory)
         (filter (String.eqb key) (tags (snd memory))).

(** The influences on [traitName] that the stored memories carry, in the
    order of the memory map. *)
Definition influences_on (traitName : string)
           (memories : list (string * MemoryEvent)) : list R :=
  flat_map
    (fun memory =>
       match map_find traitName (trait_influences (snd memory)) with
       | Some influence => [influence]
       | None => []
       end)
    memories.

(** A pair of stored memories that [ProcessPatternRecognition] turns into a
    pattern, and the pattern. *)
Definition strongly_connected
           (pair : (string * MemoryEvent) * (string * MemoryEvent)) : bool :=
  String.ltb (fst (fst pair)) (fst (snd pair))
  && Rltb 0.7 (connection_strength (snd (fst pair)) (snd (snd pair))).

Definition strong_pattern (now : time_point)
           (pair : (string * MemoryEvent) * (string * MemoryEvent))
  : EmotionalPattern :=
  mkEmotionalPattern "StrongConnection"
    (connection_strength (snd (fst pair)) (snd (snd pair)))
    (connection_strength (snd (fst pair)) (snd (snd pair)))
    now [] [fst (fst pair); fst (snd pair)].

End MemoryManager.

(** ** [class PersonaSystem] ([persona_system.hpp], [persona_system.cpp]) *)

Module PersonaSystem.

(** The persona records are declared outside these sources; their fields
    are the ones [persona_system.cpp] reads and writes. *)
Record TraitEvolution := mkTraitEvolution {
  BaseValue : R;
  CurrentValue : R;
  DecayRate : R;
  ReinforcementRate : R;
  RelatedTraits : list string;
  LastUpdated : time_point;
  Evidence : list string
}.

Record Traits := mkTraits {
  CoreTraits : list (string * TraitEvolution);
  DerivedTraits : list (string * TraitEvolution);
  TraitCorrelations : list (string * R)
}.

Record Persona := mkPersona {
  ID : string;
  Personality : Traits
}.

(** One call of [db_.SaveTrait(personaID, traitName, value, confidence)];
    its result is not looked at. *)
Record SaveTraitCall := mkSaveTraitCall {
  persona_id : string;
  trait_name : string;
  trait_value : R;
  trait_confidence : R
}.

Record PersonaSystem := mkPersonaSystem {
  activePersona_ : option Persona;
  db_ : list SaveTraitCall
}.

(** How a call ends.  [activePersona_->ID] on a null pointer has no defined
    behaviour; [std::string::substr] throws [std::out_of_range]; the mutual
    recursion of [UpdateTrait] and [PropagateTraitInfluence] is cut by a
    bound on its depth. *)
Inductive outcome :=
| Done (sys : PersonaSystem)
| NullDereference
| OutOfRange (sys : PersonaSystem)
| DepthExceeded.

Definition and_then (o : outcome) (k : PersonaSystem -> outcome) : outcome :=
  match o with
  | Done sys => k sys
  | other => other
  end.

(** [key.find(traitName) != std::string::npos] *)
Definition contains (key traitName : string) : bool :=
  match String.index 0 traitName key with
  | Some _ => true
  | None => false
  end.

(** [key.substr(pos)]; [None] when it throws. *)
Definition substr (key : string) (pos : nat) : option string :=
  if (pos <=? String.length key)%nat
  then Some (String.substring pos (String.length key - pos) key)
  else None.

(** Lines 314-328 of [UpdateTrait] on the trait found. *)
Definition influenced (now : time_point) (influence : R) (evidence : string)
           (trait : TraitEvolution) : TraitEvolution :=
  let timeSinceUpdate := IZR (hours_between now (LastUpdated trait)) / 24 in
  let decayFactor := exp (- DecayRate trait * timeSinceUpdate) in
  let decayed := CurrentValue trait * decayFactor in
  mkTraitEvolution (BaseValue trait)
    (Rmin 1 (Rmax 0 (decayed + influence * ReinforcementRate trait)))
    (DecayRate trait) (ReinforcementRate trait) (RelatedTraits trait)
    now (Evidence trait ++ [evidence]).

(** The trait [UpdateTrait] works on: the core trait of that name, else the
    derived one; [None] when it returns at the second [find]. *)
Definition influence_traits (now : time_point) (traitName : string)
           (influence : R) (evidence : string) (personality : Traits)
  : option Traits :=
  match map_find traitName (CoreTraits personality) with
  | Some trait =>
      Some (mkTraits
              (map_assign traitName (influenced now influence evidence trait)
                          (CoreTraits personality))
              (DerivedTraits personality) (TraitCorrelations personality))
  | None =>
      match map_find traitName (DerivedTraits personality) with
      | Some trait =>
          Some (mkTraits (CoreTraits personality)
                  (map_assign traitName
                     (influenced now influence evidence trait)
                     (DerivedTraits personality))
                  (TraitCorrelations personality))
      | None => None
      end
  end.

(** [PropagateTraitInfluence] with the [UpdateTrait] it calls as an
    argument. *)
Definition propagate (UpdateTrait : string -> R -> string -> PersonaSystem -> outcome)
           (traitName : string) (influence : R) (sys : PersonaSystem)
  : outcome :=
  match activePersona_ sys with
  | None => Done sys
  | Some persona =>
      fold_left
        (fun acc entry =>
           and_then acc (fun sys' =>
             if contains (fst entry) traitName then
               match substr (fst entry) (String.length traitName + 1) with
               | Some otherTrait =>
                   UpdateTrait otherTrait (influence * snd entry)
                               "correlated_trait" sys'
               | None => OutOfRange sys'
               end
             else Done sys'))
        (TraitCorrelations (Personality persona)) (Done sys)
  end.

Fixpoint UpdateTrait (depth : nat) (now : time_point) (traitName : string)
         (influence : R) (evidence : string) (sys : PersonaSystem) : outcome :=
  match depth with
  | O => DepthExceeded
  | S depth' =>
      match activePersona_ sys with
      | None => NullDereference
      | Some persona =>
          let db :=
            db_ sys ++ [mkSaveTraitCall (ID persona) traitName influence 0.8] in
          match influence_traits now traitName influence evidence
                                 (Personality persona) with
          | None => Done (mkPersonaSystem (Some persona) db)
          | Some personality =>
              propagate (UpdateTrait depth' now) traitName influence
                (mkPersonaSystem
                   (Some (mkPersona (ID persona) personality)) db)
          end
      end
  end.

Definition PropagateTraitInfluence (depth : nat) (now : time_point)
           (traitName : string) (influence : R) (sys : PersonaSystem)
  : outcome :=
  propagate (UpdateTrait depth now) traitName influence sys.

(** [GetTraitStrength] *)
Definition GetTraitStrength (traitName : string) (sys : PersonaSystem) : R :=
  match activePersona_ sys with
  | None => 0
  | Some persona =>
      match map_find traitName (CoreTraits (Personality persona)) with
      | Some trait => CurrentValue trait
      | None =>
          match map_find traitName (DerivedTraits (Personality persona)) with
          | Some trait => CurrentValue trait
          | None => 0
          end
      end
  end.

(** The trait a name denotes: the core trait, else the derived one (the two
    [find]s that open [UpdateTrait] and [GetTraitStrength]). *)
Definition lookup_trait (traitName : string) (personality : Traits)
  : option TraitEvolution :=
  match map_find traitName (CoreTraits personality) with
  | Some trait => Some trait
  | None => map_find traitName (DerivedTraits personality)
  end.

(** The correlation table of the active persona. *)
Definition correlations (sys : PersonaSystem) : list (string * R) :=
  match activePersona_ sys with
  | Some persona => TraitCorrelations (Personality persona)
  | None => []
  end.

(** The secondary calls one propagation makes: for each table entry whose
    key contains the trait's name, the rest of the key after the name and
    one more character ([None] where [substr] throws), with the influence
    scaled by the correlation. *)
Definition secondary_calls (traitName : string) (influence : R)
           (table : list (string * R)) : list (option string * R) :=
  map (fun entry =>
         (substr (fst entry) (String.length traitName + 1),
          influence * snd entry))
      (filter (fun entry => contains (fst entry) traitName) table).

(** Making such calls one after the other, each tagged
    ["correlated_trait"]. *)
Definition run_calls (UpdateTrait : string -> R -> string -> PersonaSystem -> outcome)
           (calls : list (option string * R)) (sys : PersonaSystem) : outcome :=
  fold_left
    (fun acc call =>
       and_then acc (fun sys' =>
         match fst call with
         | Some otherTrait =>
             UpdateTrait otherTrait (snd call) "correlated_trait" sys'
         | None => OutOfRange sys'
         end))
    calls (Done sys).

(** Every trait of the active persona has its current value in [0,1]. *)
Definition traits_in_range (personality : Traits) : Prop :=
  Forall (fun entry => 0 <= CurrentValue (snd entry) <= 1)
         (CoreTraits personality)
  /\ Forall (fun entry => 0 <= CurrentValue (snd entry) <= 1)
            (DerivedTraits personality).

Definition in_range (sys : PersonaSystem) : Prop :=
  match activePersona_ sys with
  | Some persona => traits_in_range (Personality persona)
  | None => True
  end.

(** A sequence of [UpdateTrait] calls, each given as trait name, influence
    and evidence. *)
Definition UpdateTraits (depth : nat) (now : time_point)
           (calls : list (string * R * string)) (sys : PersonaSystem)
  : outcome :=
  fold_left
    (fun acc call =>
       and_then acc
         (UpdateTrait depth now (fst (fst call)) (snd (fst call)) (snd call)))
    calls (Done sys).

(** *** Decay, correlations and derived traits *)

(** The body of both loops of [ApplyTraitDecay]. *)
Definition decayed (now : time_point) (trait : TraitEvolution)
  : TraitEvolution :=
  let timeSinceUpdate := IZR (hours_between now (LastUpdated trait)) / 24 in
  let decayFactor := exp (- DecayRate trait * timeSinceUpdate) in
  mkTraitEvolution (BaseValue trait) (CurrentValue trait * decayFactor)
    (DecayRate trait) (ReinforcementRate trait) (RelatedTraits trait)
    (LastUpdated trait) (Evidence trait).

Definition ApplyTraitDecay (now : time_point) (sys : PersonaSystem)
  : PersonaSystem :=
  match activePersona_ sys with
  | None => sys
  | Some persona =>
      let personality := Personality persona in
      mkPersonaSystem
        (Some (mkPersona (ID persona)
                 (mkTraits
                    (map (fun entry => (fst entry, decayed now (snd entry)))
                         (CoreTraits personality))
                    (map (fun entry => (fst entry, decayed now (snd entry)))
                         (DerivedTraits personality))
                    (TraitCorrelations personality))))
        (db_ sys)
  end.

Definition AddTraitCorrelation (trait1 trait2 : string) (correlation : R)
           (sys : PersonaSystem) : PersonaSystem :=
  match activePersona_ sys with
  | None => sys
  | Some persona =>
      let personality := Personality persona in
      let key := String.append trait1 (String.append "_" trait2) in
      mkPersonaSystem
        (Some (mkPersona (ID persona)
                 (mkTraits (CoreTraits personality) (DerivedTraits personality)
                    (map_assign key correlation
                                (TraitCorrelations personality)))))
        (db_ sys)
  end.

Definition AddDerivedTrait (now : time_point) (baseTrait newTrait : string)
           (influence : R) (sys : PersonaSystem) : PersonaSystem :=
  match activePersona_ sys with
  | None => sys
  | Some persona =>
      let personality := Personality persona in
      match map_find baseTrait (CoreTraits personality) with
      | None => sys
      | Some base =>
          let derivedTrait :=
            mkTraitEvolution (CurrentValue base * influence)
              (CurrentValue base * influence) (DecayRate base * 1.2)
              (ReinforcementRate base * 0.8) [baseTrait] now [] in
          mkPersonaSystem
            (Some (mkPersona (ID persona)
                     (mkTraits (CoreTraits personality)
                        (map_assign newTrait derivedTrait
                                    (DerivedTraits personality))
                        (TraitCorrelations personality))))
            (db_ sys)
      end
  end.

(** What the collaborator is told by secondary calls that go to names the
    persona does not have: one [SaveTrait] each, and nothing else. *)
Definition records (personaID : string) (calls : list (option string * R))
  : list SaveTraitCall :=
  flat_map
    (fun call =>
       match fst call with
       | Some otherTrait => [mkSaveTraitCall personaID otherTrait (snd call) 0.8]
       | None => []
       end)
    calls.

(** The active persona has the trait [traitName] and a correlation under
    [key]. *)
Definition bound_pair (traitName key : string) (sys : PersonaSystem) : Prop :=
  exists persona,
    activePersona_ sys = Some persona
    /\ lookup_trait traitName (Personality persona) <> None
    /\ In key (map fst (TraitCorrelations (Personality persona))).

End PersonaSystem.

(** ** Persona transitions ([TransitionManager], [SwitchPersona]) *)

Module Switching.

(** [TransitionManager]: the count-like weight of each transition and the
    time of the last transition into each persona. *)
Record TransitionManager := mkTransitionManager {
  transitions_ : list (string * list (string * R));
  cooldowns_ : list (string * time_point)
}.

(** [std::chrono::minutes(5)] in seconds. *)
Definition cooldown : Z := 300.

Definition probability (fromID toID : string) (tm : TransitionManager) : R :=
  match map_find fromID (transitions_ tm) with
  | Some row =>
      match map_find toID row with
      | Some p => p
      | None => 0
      end
  | None => 0
  end.

Definition ApplyTransition (now : time_point) (fromID toID : string)
           (tm : TransitionManager) : TransitionManager :=
  let row :=
    match map_find fromID (transitions_ tm) with
    | Some row => row
    | None => []
    end in
  let p :=
    match map_find toID row with
    | Some p => p
    | None => 0
    end in
  mkTransitionManager
    (map_assign fromID (map_assign toID (p + 0.1) row) (transitions_ tm))
    (map_assign toID now (cooldowns_ tm)).

Definition CanTransition (now : time_point) (targetID : string)
           (tm : TransitionManager) : bool :=
  match map_find targetID (cooldowns_ tm) with
  | Some last => if (now - last <? cooldown)%Z then false else true
  | None => true
  end.

(** The fields of a persona that switching reads and writes. *)
Record Persona := mkPersona {
  ID : string;
  Active : bool;
  LastUsed : time_point
}.

Record PersonaEvent := mkPersonaEvent {
  Timestamp : time_point;
  Type_ : string;
  FromPersona : string;
  ToPersona : string;
  Reason : string
}.

(** [activePersona_] points at a persona held by [personas_]; it is kept as
    the key of that persona, so that a write through the pointer is a write
    to the stored persona. *)
Record PersonaSystem := mkPersonaSystem {
  personas_ : list (string * Persona);
  activePersona_ : option string;
  history_ : list PersonaEvent;
  manager_ : TransitionManager
}.

Definition PersonaSystem_CanTransition (now : time_point)
           (targetPersonaID : string) (sys : PersonaSystem) : bool :=
  match map_find targetPersonaID (personas_ sys) with
  | None => false
  | Some _ => CanTransition now targetPersonaID (manager_ sys)
  end.

(** A write through a pointer to the persona under [key]. *)
Definition write (key : string) (f : Persona -> Persona)
           (personas : list (string * Persona)) : list (string * Persona) :=
  map (fun entry =>
         if String.eqb (fst entry) key then (fst entry, f (snd entry))
         else entry) personas.

Definition SwitchPersona (now : time_point) (targetPersonaID reason : string)
           (sys : PersonaSystem) : bool * PersonaSystem :=
  if negb (PersonaSystem_CanTransition now targetPersonaID sys)
  then (false, sys)
  else
    let oldPersonaID :=
      match activePersona_ sys with
      | Some key =>
          match map_find key (personas_ sys) with
          | Some persona => ID persona
          | None => ""
          end
      | None => ""
      end in
    let deactivated :=
      match activePersona_ sys with
      | Some key =>
          write key (fun persona =>
                       mkPersona (ID persona) false (LastUsed persona))
                (personas_ sys)
      | None => personas_ sys
      end in
    let activated :=
      write targetPersonaID
            (fun persona => mkPersona (ID persona) true now) deactivated in
    (true,
     mkPersonaSystem activated (Some targetPersonaID)
       (history_ sys
        ++ [mkPersonaEvent now "transition" oldPersonaID targetPersonaID reason])
       (ApplyTransition now oldPersonaID targetPersonaID (manager_ sys))).

(** The [Active] flag marks the active persona and no other. *)
Definition one_active (sys : PersonaSystem) : Prop :=
  Forall (fun entry =>
            Active (snd entry) = true <-> activePersona_ sys = Some (fst entry))
         (personas_ sys).

End Switching.

(** * The specification's formulas

    Definitions written after the wording of the specification, to be
    compared with what the code computes. *)

Module Spec.

Definition clamp01 (x : R) : R := Rmin 1 (Rmax 0 x).

(** "0.4 x (1 - volatility) + 0.3 x (supporting / (supporting + conflicting
    + 1)) + 0.3 x exp(-|longTermTrend|), all three sub-terms clamped to
    [0,1] before weighting". *)
Definition confidence (volatility : R) (supporting conflicting : nat)
           (longTermTrend : R) : R :=
  0.4 * clamp01 (1 - volatility)
  + 0.3 * clamp01 (INR supporting / INR (supporting + conflicting + 1))
  + 0.3 * clamp01 (exp (- Rabs longTermTrend)).

Definition shared_traits (mem1 mem2 : MemoryEvent) : nat :=
  List.length
    (filter (fun trait =>
               match map_find (fst trait) (trait_influences mem2) with
               | Some _ => true
               | None => false
               end) (trait_influences mem1)).

Definition shared_tags (mem1 mem2 : MemoryEvent) : nat :=
  List.length
    (filter (fun tag => existsb (String.eqb tag) (tags mem2)) (tags mem1)).

(** "strength = 0.3 per shared trait + 0.2 per shared tag, plus +0.2 if
    |delta emotionalWeight| < 0.2". *)
Definition strength (mem1 mem2 : MemoryEvent) : R :=
  0.3 * INR (shared_traits mem1 mem2) + 0.2 * INR (shared_tags mem1 mem2)
  + (if Rltb (Rabs (emotional_weight mem1 - emotional_weight mem2)) 0.2
     then 0.2 else 0).

(** "multiply currentValue by decayFactor = exp(-decayRate * daysSinceUpdate),
    then add amount, then clamp to [0,1]". *)
Definition influenced_value (currentValue decayRate daysSinceUpdate amount : R)
  : R :=
  clamp01 (currentValue * exp (- decayRate * daysSinceUpdate) + amount).

(** "repeatedly removes the single least-recently-accessed entry until
    at/under capacity": the runs of such an eviction, from a cache to what
    is left of it. *)
Inductive evicts_lru (maxCacheSize : nat)
  : list (string * MemoryManager.CacheEntry)
    -> list (string * MemoryManager.CacheEntry) -> Prop :=
| lru_done cache :
    (List.length cache <= maxCacheSize)%nat ->
    evicts_lru maxCacheSize cache cache
| lru_evict front entry back cache' :
    (maxCacheSize < List.length (front ++ entry :: back))%nat ->
    (forall other, In other (front ++ entry :: back) ->
       (MemoryManager.last_accessed (snd entry)
        <= MemoryManager.last_accessed (snd other))%Z) ->
    evicts_lru maxCacheSize (front ++ back) cache' ->
    evicts_lru maxCacheSize (front ++ entry :: back) cache'.

End Spec.

(** * Sample states *)

Module Samples.

(** A resonance triggered at intensity 0.9 at time 0. *)
Definition praise : EmotionalResonance :=
  mkEmotionalResonance 0.9 1 "praise" 0%Z 3600%Z [].

Definition praise_context : Resonance.MemoryContext :=
  Resonance.mkMemoryContext [] [] [praise] [] [].


Definition after_30_hours : time_point := 108000%Z.

(** A collaborator that accepts every statement, and one that refuses
    every statement. *)
Definition accepting : MemoryManager.Database :=
  MemoryManager.mkDatabase true (fun _ _ => true) [].

Definition refusing : MemoryManager.Database :=
  MemoryManager.mkDatabase true (fun _ _ => false) [].

Definition empty_context : MemoryManager.MemoryContext :=
  MemoryManager.mkMemoryContext true [] [] [] [] [] [].

(** An initialized manager holding the given memories. *)
Definition manager (db : MemoryManager.Database)
           (memories : list (string * MemoryEvent))
  : MemoryManager.MemoryManager :=
  MemoryManager.mkMemoryManager true db 1000 memories [] [] [] empty_context.

(** A memory at importance 0.9 with emotional weight 1. *)
Definition vivid : MemoryEvent :=
  mkMemoryEvent "m1" "first meeting" "" 0.9 1 [] [] 0%Z 0%Z.

(** An initialized manager whose trait "trust" stands at 0.9. *)
Definition trusting : MemoryManager.MemoryManager :=
  MemoryManager.mkMemoryManager true accepting 1000 [] []
    [("trust", MemoryManager.mkTraitBaseline 0.9 1 0.1 1 0%Z [] [])] []
    empty_context.

(** A trait whose recorded volatility is 3. *)
Definition erratic : MemoryManager.MemoryManager :=
  MemoryManager.mkMemoryManager true accepting 1000 [] []
    [("mood", MemoryManager.default_baseline)]
    [("mood", MemoryManager.mkTraitEvolutionMetrics 0 0 3 0 [] 0%Z)]
    empty_context.

(** A trait with two supporting memories and volatility 1/2. *)
Definition steady : MemoryManager.MemoryManager :=
  MemoryManager.mkMemoryManager true accepting 1000 [] []
    [("mood", MemoryManager.mkTraitBaseline 0.5 1 0.1 1 0%Z ["m1"; "m2"] [])]
    [("mood", MemoryManager.mkTraitEvolutionMetrics 0 0 0.5 0 [] 0%Z)]
    empty_context.

(** The two memories of the specification's scenario. *)
Definition memory_A : MemoryEvent :=
  mkMemoryEvent "A" "a walk" "" 0.5 0.6 [("trust", 0.5)] ["x"] 0%Z 0%Z.

Definition memory_B : MemoryEvent :=
  mkMemoryEvent "B" "a talk" "" 0.5 0.65 [("trust", 0.4)] ["x"] 0%Z 0%Z.

(** Two memories with one tag in common, no trait, and emotional weights
    0.9 apart. *)
Definition memory_P : MemoryEvent :=
  mkMemoryEvent "P" "rain" "" 0.5 0 [] ["x"] 0%Z 0%Z.

Definition memory_Q : MemoryEvent :=
  mkMemoryEvent "Q" "sun" "" 0.5 0.9 [] ["x"] 0%Z 0%Z.

(** A cache of three entries, last used at times 5, 2 and 9. *)
Definition small_cache : list (string * MemoryManager.CacheEntry) :=
  [ ("m1", MemoryManager.mkCacheEntry vivid 5%Z);
    ("m2", MemoryManager.mkCacheEntry memory_A 2%Z);
    ("m3", MemoryManager.mkCacheEntry memory_B 9%Z) ].

Definition caching : MemoryManager.MemoryManager :=
  MemoryManager.mkMemoryManager true accepting 2 [] small_cache [] []
    empty_context.

(** A persona with one trait and no correlation. *)
Definition patience : PersonaSystem.TraitEvolution :=
  PersonaSystem.mkTraitEvolution 0.5 0.5 0.01 0.1 [] 0%Z [].

Definition calm : PersonaSystem.PersonaSystem :=
  PersonaSystem.mkPersonaSystem
    (Some (PersonaSystem.mkPersona "calm"
             (PersonaSystem.mkTraits [("patience", patience)] [] [])))
    [].

(** Traits "a", "bb" and "c", with "a" correlated to "bb" and "bb" to "c". *)
Definition chained (ta tb tc : PersonaSystem.TraitEvolution) (k1 k2 : R)
           (log : list PersonaSystem.SaveTraitCall)
  : PersonaSystem.PersonaSystem :=
  PersonaSystem.mkPersonaSystem
    (Some (PersonaSystem.mkPersona "chain"
             (PersonaSystem.mkTraits
                [("a", ta); ("bb", tb); ("c", tc)] []
                [("a_bb", k1); ("bb_c", k2)])))
    log.

(** A trait at 0.5 that does not decay and takes influences at face value. *)
Definition plain : PersonaSystem.TraitEvolution :=
  PersonaSystem.mkTraitEvolution 0.5 0.5 0 1 [] 0%Z [].

(** Traits "a" and "b" with the correlation key "a_b". *)
Definition paired (ta tb : PersonaSystem.TraitEvolution) (k : R)
           (log : list PersonaSystem.SaveTraitCall)
  : PersonaSystem.PersonaSystem :=
  PersonaSystem.mkPersonaSystem
    (Some (PersonaSystem.mkPersona "pair"
             (PersonaSystem.mkTraits [("a", ta); ("b", tb)] [] [("a_b", k)])))
    log.

(** Two memories with the trait "trust" in common, no tag, and emotional
    weights 0.05 apart. *)
Definition memory_S : MemoryEvent :=
  mkMemoryEvent "S" "a song" "" 0.5 0.6 [("trust", 0.5)] [] 0%Z 0%Z.

Definition memory_T : MemoryEvent :=
  mkMemoryEvent "T" "a tune" "" 0.5 0.65 [("trust", 0.4)] [] 0%Z 0%Z.

End Samples.

(** ** Memories of a persona ([persona_system.cpp]) *)

Module PersonaMemory.

(** The fields of a memory that the persona functions read and write. *)
Record Memory := mkMemory {
  Type_ : string;
  Content : string;
  Importance : R;
  EmotionalWeight : R;
  TraitInfluences : list (string * R);
  Tags : list string;
  Timestamp : time_point
}.

(** The part of [activePersona_->Memory] these functions touch. *)
Record MemoryStore := mkMemoryStore {
  ShortTermMemories : list Memory;
  LongTermMemories : list Memory;
  MemoryWeights : list (string * R)
}.

(** The negation of the predicate of [DecayShortTermMemories]: not more
    than 24 whole hours old. *)
Definition fresh (now : time_point) (memory : Memory) : bool :=
  negb (24 <? hours_between now (Timestamp memory))%Z.

Definition DecayShortTermMemories (now : time_point) (store : MemoryStore)
  : MemoryStore :=
  mkMemoryStore (filter (fresh now) (ShortTermMemories store))
    (LongTermMemories store) (MemoryWeights store).

Definition MoveToLongTerm (memory : Memory) (longTerm : list Memory)
  : list Memory :=
  if Rltb 0.5 (Importance memory) || Rltb 0.7 (EmotionalWeight memory)
  then longTerm ++ [memory] else longTerm.

(** The loop of [ProcessMemories] over the short-term memories: what stays,
    and the long-term memories after the moves. *)
Fixpoint sift (now : time_point) (shortTerm longTerm : list Memory)
  : list Memory * list Memory :=
  match shortTerm with
  | [] => ([], longTerm)
  | memory :: rest =>
      if Rltb 0.7 (Importance memory)
         || (24 <? hours_between now (Timestamp memory))%Z
      then sift now rest (MoveToLongTerm memory longTerm)
      else let (kept, moved) := sift now rest longTerm in
           (memory :: kept, moved)
  end.

Definition occurrences (type : string) (memories : list Memory) : nat :=
  List.length (filter (fun memory => String.eqb (Type_ memory) type) memories).

Definition UpdateMemoryWeights (store : MemoryStore) : MemoryStore :=
  mkMemoryStore (ShortTermMemories store) (LongTermMemories store)
    (map (fun entry =>
            (fst entry,
             0.7 * snd entry
             + 0.3 * (INR (occurrences (fst entry) (ShortTermMemories store))
                      / 10)))
         (MemoryWeights store)).

(** [UpdateTraitFromMemory]: one [UpdateTrait] per trait influence. *)
Definition UpdateTraitFromMemory (depth : nat) (now : time_point)
           (memory : Memory) (sys : PersonaSystem.PersonaSystem)
  : PersonaSystem.outcome :=
  match PersonaSystem.activePersona_ sys with
  | None => PersonaSystem.Done sys
  | Some _ =>
      fold_left
        (fun acc influence =>
           PersonaSystem.and_then acc
             (PersonaSystem.UpdateTrait depth now (fst influence)
                (snd influence) "memory_influence"))
        (TraitInfluences memory) (PersonaSystem.Done sys)
  end.

Definition CalculateMemoryInfluence (depth : nat) (now : time_point)
           (store : MemoryStore) (sys : PersonaSystem.PersonaSystem)
  : PersonaSystem.outcome :=
  match PersonaSystem.activePersona_ sys with
  | None => PersonaSystem.Done sys
  | Some _ =>
      let recent :=
        fold_left
          (fun acc memory =>
             PersonaSystem.and_then acc (UpdateTraitFromMemory depth now memory))
          (ShortTermMemories store) (PersonaSystem.Done sys) in
      fold_left
        (fun acc memory =>
           PersonaSystem.and_then acc
             (fun sys' =>
                if Rltb 0.7 (Importance memory)
                then UpdateTraitFromMemory depth now memory sys'
                else PersonaSystem.Done sys'))
        (LongTermMemories store) recent
  end.

(** [ProcessMemories]: the memory lists and weights after the call, and how
    the trait updates that close it end. *)
Definition ProcessMemories (depth : nat) (now : time_point)
           (store : MemoryStore) (sys : PersonaSystem.PersonaSystem)
  : MemoryStore * PersonaSystem.outcome :=
  match PersonaSystem.activePersona_ sys with
  | None => (store, PersonaSystem.Done sys)
  | Some _ =>
      let decayed := DecayShortTermMemories now store in
      let (kept, longTerm) :=
        sift now (ShortTermMemories decayed) (LongTermMemories decayed) in
      let weighted :=
        UpdateMemoryWeights
          (mkMemoryStore kept longTerm (MemoryWeights decayed)) in
      (weighted, CalculateMemoryInfluence depth now weighted sys)
  end.

(** [UpdateMemoryImportance] *)
Definition UpdateMemoryImportance (memory : Memory) : Memory :=
  let importance :=
    fold_left (fun importance influence =>
                 importance + Rabs (snd influence) * 0.5)
              (TraitInfluences memory) (EmotionalWeight memory) in
  mkMemory (Type_ memory) (Content memory) (Rmin 1 importance)
    (EmotionalWeight memory) (TraitInfluences memory) (Tags memory)
    (Timestamp memory).

(** [struct EmotionalPattern] as the persona's memory context holds it: the
    pattern memories are [Memory] values. *)
Record Pattern := mkPattern {
CurrentIntensity : R;
PatternMemories : list Memory
}.

Definition with_importance (value : R) (memory : Memory) : Memory :=
  mkMemory (Type_ memory) (Content memory) value (EmotionalWeight memory)
    (TraitInfluences memory) (Tags memory) (Timestamp memory).

(** One turn of the loop over [ActiveResonances]: [std::find] of the memory's
    content among the associated memories. *)
Definition resonance_boost (memory : Memory) (emotionalBoost : R)
           (resonance : EmotionalResonance) : R :=
  if existsb (String.eqb (Content memory)) (AssociatedMemories resonance)
  then emotionalBoost + Intensity resonance * 0.3
  else emotionalBoost.

(** One turn of the loop over [EmotionalPatterns]: the inner loop adds once
    and breaks at the first pattern memory with the same content. *)
Definition pattern_boost (memory : Memory) (emotionalBoost : R)
           (pattern : Pattern) : R :=
  if existsb (fun patternMemory =>
                String.eqb (Content patternMemory) (Content memory))
             (PatternMemories pattern)
  then emotionalBoost + CurrentIntensity pattern * 0.2
  else emotionalBoost.

Definition emotionalBoost (resonances : list EmotionalResonance)
           (patterns : list Pattern) (memory : Memory) : R :=
  fold_left (pattern_boost memory) patterns
    (fold_left (resonance_boost memory) resonances 0).

(** [PersonaSystem::UpdateMemoryWeightsWithEmotion] (with an active persona),
    on the short-term memories. *)
Definition UpdateMemoryWeightsWithEmotion
           (resonances : list EmotionalResonance) (patterns : list Pattern)
           (shortTerm : list Memory) : list Memory :=
  map (fun memory =>
         with_importance
           (Rmin 1 (Importance memory + emotionalBoost resonances patterns memory))
           memory)
      shortTerm.

(** An active persona with an empty correlation table. *)
Definition plain_state (sys : PersonaSystem.PersonaSystem) : Prop :=
  PersonaSystem.activePersona_ sys <> None
  /\ PersonaSystem.correlations sys = [].

End PersonaMemory.

(** ** [persona_system.cpp]: mood, arousal and emotional baselines *)

Module PersonaMood.

Record EmotionalState := mkEmotionalState {
Mood : R;
Arousal : R;
LastArousalChange : time_point;
LastInteraction : time_point
}.

(** [MaxEffectDuration] in hours. *)
Record TimeBasedEffect := mkTimeBasedEffect {
BaseValue : R;
DecayRate : R;
MaxEffectDuration : Z;
StartTime : time_point
}.

Record Persona := mkPersona {
CurrentState : EmotionalState;
TimeEffects : list (string * TimeBasedEffect);
EmotionalBaselines : list (string * R);
LastUsed : time_point
}.

(** [activePersona_]; [None] is the null pointer. *)
Definition PersonaSystem := option Persona.

Definition set_state (state : EmotionalState) (persona : Persona) : Persona :=
  mkPersona state (TimeEffects persona) (EmotionalBaselines persona)
    (LastUsed persona).

(** [data.find(key) != data.end()]. *)
Definition has_key {V : Type} (key : string) (data : list (string * V)) : bool :=
  existsb (fun entry => String.eqb key (fst entry)) data.

Definition ProcessArousalChange (now : time_point) (change : R)
           (trigger : string) (sys : PersonaSystem) : PersonaSystem :=
  match sys with
  | None => None
  | Some persona =>
      let state := CurrentState persona in
      Some (mkPersona
              (mkEmotionalState
                 (Mood state)
                 (Rmin 1 (Rmax 0 (Arousal state + change)))
                 now
                 (LastInteraction state))
              (map_assign trigger (mkTimeBasedEffect change 0.1 2 now)
                 (TimeEffects persona))
              (EmotionalBaselines persona)
              (LastUsed persona))
  end.

Definition add_mood (amount : R) (sys : PersonaSystem) : PersonaSystem :=
  match sys with
  | None => None
  | Some persona =>
      let state := CurrentState persona in
      Some (set_state
              (mkEmotionalState (Mood state + amount) (Arousal state)
                 (LastArousalChange state) (LastInteraction state))
              persona)
  end.

Definition clamp_state (sys : PersonaSystem) : PersonaSystem :=
  match sys with
  | None => None
  | Some persona =>
      let state := CurrentState persona in
      Some (set_state
              (mkEmotionalState
                 (Rmin 1 (Rmax (-1) (Mood state)))
                 (Rmin 1 (Rmax 0 (Arousal state)))
                 (LastArousalChange state) (LastInteraction state))
              persona)
  end.

Definition CalculateEmotionalInfluence {V : Type} (now : time_point)
           (data : list (string * V)) (sys : PersonaSystem) : PersonaSystem :=
  match sys with
  | None => None
  | Some _ =>
      clamp_state
        (if has_key "flirty_content" data then
           add_mood 0.2 (ProcessArousalChange now 0.3 "flirty_interaction" sys)
         else if has_key "negative_content" data then
           add_mood (- 0.3)
             (ProcessArousalChange now (- 0.2) "negative_interaction" sys)
         else sys)
  end.

Definition UpdateEmotionalBaselines (now : time_point) (sys : PersonaSystem)
  : PersonaSystem :=
  match sys with
  | None => None
  | Some persona =>
      let decayFactor :=
        exp (- 0.01 * IZR (hours_between now (LastUsed persona))) in
      Some (mkPersona (CurrentState persona) (TimeEffects persona)
              (map (fun entry =>
                      (fst entry, 0.5 + (snd entry - 0.5) * decayFactor))
                   (EmotionalBaselines persona))
              (LastUsed persona))
  end.

End PersonaMood.

(** ** [persona_system.cpp]: choosing the response style *)

Module Style.

Record PersonaStyleRule := mkPersonaStyleRule {
Condition : string;
Priority : Z;
Constraints : list string
}.

Record PersonaContext := mkPersonaContext {
CurrentMood : string;
Restrictions : list string
}.

Definition MatchesCondition (condition : string) (context : PersonaContext)
  : bool :=
  if String.eqb condition "feminine_presence" then
    String.eqb (CurrentMood context) "flirty"
    || String.eqb (CurrentMood context) "romantic"
  else if String.eqb condition "romantic_context" then
    String.eqb (CurrentMood context) "romantic"
  else if String.eqb condition "technical_discussion" then
    String.eqb (CurrentMood context) "focused"
    || String.eqb (CurrentMood context) "analytical"
  else false.

(** [context_] is the system's own context, not the argument of
    [GetResponseStyle]. *)
Definition ValidateConstraints (context_ : PersonaContext)
           (constraints : list string) : bool :=
  forallb (fun constraint =>
             negb (existsb (String.eqb constraint) (Restrictions context_)))
          constraints.

(** The loop state: [bestRule] ([None] while it is still the
    default-constructed rule) and [bestPriority]. *)
Definition consider (context context_ : PersonaContext)
           (best : option PersonaStyleRule * Z) (rule : PersonaStyleRule)
  : option PersonaStyleRule * Z :=
  if MatchesCondition (Condition rule) context
     && (snd best <? Priority rule)%Z
     && ValidateConstraints context_ (Constraints rule)
  then (Some rule, Priority rule)
  else best.

(** [styleRules] is [None] without an active persona; the result [None] is
    the default-constructed rule. *)
Definition GetResponseStyle (styleRules : option (list PersonaStyleRule))
           (context context_ : PersonaContext) : option PersonaStyleRule :=
  match styleRules with
  | None => None
  | Some rules => fst (fold_left (consider context context_) rules (None, (-1)%Z))
  end.

(** A rule the loop may pick, priority apart. *)
Definition qualifies (context context_ : PersonaContext)
           (rule : PersonaStyleRule) : bool :=
  MatchesCondition (Condition rule) context
  && ValidateConstraints context_ (Constraints rule).

(** What the loop of [GetResponseStyle] has after a run of rules. *)
Definition chosen (context context_ : PersonaContext)
           (rules : list PersonaStyleRule)
           (best : option PersonaStyleRule * Z) : Prop :=
  match fst best with
  | None =>
      snd best = (-1)%Z
      /\ forall rule, In rule rules ->
           qualifies context context_ rule = true -> (Priority rule <= -1)%Z
  | Some rule =>
      snd best = Priority rule
      /\ (-1 < Priority rule)%Z
      /\ qualifies context context_ rule = true
      /\ exists before after,
           rules = before ++ rule :: after
           /\ (forall other, In other before ->
                 qualifies context context_ other = true ->
                 (Priority other < Priority rule)%Z)
           /\ (forall other, In other after ->
                 qualifies context context_ other = true ->
                 (Priority other <= Priority rule)%Z)
  end.

End Style.

(** * Shapes the code keeps *)

Module Shape.

(** Every member of a cluster is within 0.1 of its first member. *)
Definition banded (cluster : list MemoryEvent) : Prop :=
  match cluster with
  | [] => True
  | first :: rest =>
      Forall (fun memory =>
                Rabs (emotional_weight first - emotional_weight memory) < 0.1)
             rest
  end.


(** Every trait of the active persona has a non-negative decay rate and
    current value and was last updated no later than [now]. *)
Definition decays (now : time_point) (trait : PersonaSystem.TraitEvolution)
  : Prop :=
  0 <= PersonaSystem.DecayRate trait
  /\ 0 <= PersonaSystem.CurrentValue trait
  /\ (PersonaSystem.LastUpdated trait <= now)%Z.

Definition all_decay (now : time_point) (sys : PersonaSystem.PersonaSystem)
  : Prop :=
  match PersonaSystem.activePersona_ sys with
  | Some persona =>
      Forall (fun entry => decays now (snd entry))
             (PersonaSystem.CoreTraits (PersonaSystem.Personality persona))
      /\ Forall (fun entry => decays now (snd entry))
                (PersonaSystem.DerivedTraits (PersonaSystem.Personality persona))
  | None => True
  end.

End Shape.

(** * More sample states *)

Module MoreSamples.

(** A history of two samples for the trait "mood". *)
Definition tracked : MemoryManager.MemoryManager :=
  MemoryManager.mkMemoryManager true Samples.accepting 1000 [] []
    [("mood", MemoryManager.default_baseline)]
    [("mood", MemoryManager.mkTraitEvolutionMetrics 0 0 0 0.5 [0.2; 0.4] 0%Z)]
    Samples.empty_context.

(** A manager with a baseline for "trust" and two memories that carry it. *)
Definition evidenced : MemoryManager.MemoryManager :=
  MemoryManager.mkMemoryManager true Samples.accepting 1000
    [("A", Samples.memory_A); ("B", Samples.memory_B)] []
    [("trust", MemoryManager.default_baseline)] [] Samples.empty_context.


(** Two personas, none active, no transition made yet. *)
Definition idle : Switching.PersonaSystem :=
  Switching.mkPersonaSystem
    [("muse", Switching.mkPersona "muse" false 0%Z);
     ("sage", Switching.mkPersona "sage" false 0%Z)]
    None [] (Switching.mkTransitionManager [] []).

(** A short-term store with one vivid memory and one stale one (the clock
    standing at 100 hours). *)
Definition keepsake : PersonaMemory.Memory :=
  PersonaMemory.mkMemory "event" "first meeting" 0.9 0.2 [("patience", 0.5)]
    [] 356400%Z.

Definition stale : PersonaMemory.Memory :=
  PersonaMemory.mkMemory "event" "old news" 0.3 0.2 [] [] 0%Z.

Definition shelf : PersonaMemory.MemoryStore :=
  PersonaMemory.mkMemoryStore [keepsake; stale] [] [("event", 1)].

(** A persona in an out-of-range mood, and two style rules. *)
Definition moody : PersonaMood.PersonaSystem :=
  Some (PersonaMood.mkPersona
          (PersonaMood.mkEmotionalState 3 (- 2) 0%Z 0%Z)
          [] [("joy", 0.9); ("fear", 0.1)] 0%Z).

Definition romantic_rule : Style.PersonaStyleRule :=
  Style.mkPersonaStyleRule "romantic_context" 2 [].

Definition feminine_rule : Style.PersonaStyleRule :=
  Style.mkPersonaStyleRule "feminine_presence" 1 [].

Definition romantic_mood : Style.PersonaContext :=
  Style.mkPersonaContext "romantic" [].

(** The persona [InitializeDefaultPersonas] sets up, as far as traits go,
    created at [created]. *)
Definition sapphic_teaser (created : time_point)
  : PersonaSystem.PersonaSystem :=
  PersonaSystem.mkPersonaSystem
    (Some (PersonaSystem.mkPersona "sapphic_teaser"
             (PersonaSystem.mkTraits
                [("clinginess",
                  PersonaSystem.mkTraitEvolution 0.7 0.7 0.02 0.2
                    ["emotional_awareness"; "attachment"] created
                    ["initial_setup"]);
                 ("emotional_awareness",
                  PersonaSystem.mkTraitEvolution 0.8 0.8 0.01 0.1
                    ["sapphic_identity"; "clinginess"] created
                    ["initial_setup"]);
                 ("sapphic_identity",
                  PersonaSystem.mkTraitEvolution 0.9 0.9 0.01 0.15
                    ["emotional_awareness"; "flirtiness"] created
                    ["initial_setup"])]
                [("arousal",
                  PersonaSystem.mkTraitEvolution 0.4 0.4 0.05 0.3
                    ["sapphic_identity"; "flirtiness"] created
                    ["initial_setup"]);
                 ("flirtiness",
                  PersonaSystem.mkTraitEvolution 0.6 0.6 0.03 0.25
                    ["sapphic_identity"; "arousal"] created
                    ["initial_setup"])]
                [("clinginess_emotional_awareness", 0.6);
                 ("flirtiness_arousal", 0.9);
                 ("sapphic_identity_arousal", 0.7);
                 ("sapphic_identity_emotional_awareness", 0.8)])))
    [].

(** Traits "a" and "bb", no correlation yet. *)
Definition duo : PersonaSystem.PersonaSystem :=
  PersonaSystem.mkPersonaSystem
    (Some (PersonaSystem.mkPersona "duo"
             (PersonaSystem.mkTraits
                [("a", Samples.plain); ("bb", Samples.plain)] [] [])))
    [].

(** Two memories with two tags in common. *)
Definition memory_U : MemoryEvent :=
  mkMemoryEvent "U" "a storm" "" 0.5 0.2 [] ["x"; "y"] 0%Z 0%Z.

Definition memory_V : MemoryEvent :=
  mkMemoryEvent "V" "a flood" "" 0.5 0.3 [] ["x"; "y"] 0%Z 0%Z.

End MoreSamples.

(** * Properties *)

(** ** Association lists *)

Lemma map_find_assign_same {V} k (v : V) m :
  map_find k (map_assign k v m) = Some v.
Proof.
  induction m as [|[k' v'] m IH]; simpl.
  - now rewrite String.eqb_refl.
  - destruct (String.eqb k k') eqn:E; simpl.
    + now rewrite String.eqb_refl.
    + destruct (String.ltb k k'); simpl.
      * now rewrite String.eqb_refl.
      * now rewrite E.
Qed.

Lemma map_find_assign_other {V} k k' (v : V) m :
  k' <> k -> map_find k' (map_assign k v m) = map_find k' m.
Proof.
  intros Hne. apply String.eqb_neq in Hne.
  induction m as [|[k0 v0] m IH]; simpl.
  - now rewrite Hne.
  - destruct (String.eqb k k0) eqn:E; simpl.
    + apply String.eqb_eq in E. subst k0. now rewrite !Hne.
    + destruct (String.ltb k k0); simpl.
      * now rewrite Hne.
      * destruct (String.eqb k' k0); [reflexivity|exact IH].
Qed.

(** ** Reals and the exponential *)

Lemma Rltb_true x y : Rltb x y = true <-> x < y.
Proof. unfold Rltb; destruct (Rlt_dec x y); split; intros; easy. Qed.

Lemma Rltb_false x y : Rltb x y = false <-> y <= x.
Proof.
  unfold Rltb; destruct (Rlt_dec x y); split; intros; try easy; lra.
Qed.

Lemma exp_nonpos_le_1 x : x <= 0 -> exp x <= 1.
Proof.
  intros [Hlt | ->].
  - left. rewrite <- exp_0. now apply exp_increasing.
  - rewrite exp_0. lra.
Qed.


Lemma exp_lower x : 1 + x <= exp x.
Proof.
  destruct (Req_dec x 0) as [-> | Hx].
  - rewrite exp_0. lra.
  - left. now apply exp_ineq1.
Qed.

(** [exp(-3) < 1/9]: from [exp(3/4) >= 7/4] and [(7/4)^4 > 9]. *)
Lemma exp_minus_3 : exp (- 3) < 1 / 9.
Proof.
  assert (H34 : 7 / 4 <= exp (3 / 4)) by (pose proof (exp_lower (3 / 4)); lra).
  assert (H3 : exp 3 = exp (3 / 4) * exp (3 / 4) * (exp (3 / 4) * exp (3 / 4))).
  { rewrite <- !exp_plus. f_equal. lra. }
  assert (H9 : 9 < exp 3).
  { rewrite H3. set (x := exp (3 / 4)) in *.
    assert (Hsq : 49 / 16 <= x * x) by nra.
    set (y := x * x) in *. nra. }
  assert (Hinv : exp (- 3) * exp 3 = 1).
  { rewrite <- exp_plus. replace (- 3 + 3) with 0 by lra. apply exp_0. }
  pose proof (exp_pos (- 3)). nra.
Qed.

Lemma hours_between_nonneg now start :
  (start <= now)%Z -> (0 <= hours_between now start)%Z.
Proof.
  intros H. unfold hours_between, seconds_per_hour.
  apply Z.quot_pos; lia.
Qed.

(** ** The resonance sweep *)

Section ResonanceSweep.
Import Resonance.

Variable now : time_point.




(** The promotion test sits inside the removal test on the same value, so
    an iteration never pushes a pattern. *)
Lemma tick_keeps_patterns stm acc r : snd (tick now stm acc r) = snd acc.
Proof.
  unfold tick; simpl.
  destruct (Rltb (Intensity r * timeFactor now r) 0.1) eqn:Hlow; [|reflexivity].
  destruct (Rltb 0.5 (Intensity r * timeFactor now r)) eqn:Hhigh; [|reflexivity].
  apply Rltb_true in Hlow, Hhigh. lra.
Qed.

Lemma tick_decays stm acc r : fst (tick now stm acc r) = fst acc ++ [decay now r].
Proof. reflexivity. Qed.

Lemma sweep_fold stm rs : forall done pats,
  fold_left (tick now stm) rs (done, pats) = (done ++ map (decay now) rs, pats).
Proof.
  induction rs as [|r rs IH]; intros done pats; simpl.
  - now rewrite app_nil_r.
  - pose proof (tick_keeps_patterns stm (done, pats) r) as Hp.
    pose proof (tick_decays stm (done, pats) r) as Hd.
    destruct (tick now stm (done, pats) r) as [done' pats'].
    simpl in Hp, Hd. subst. rewrite IH, <- app_assoc. reflexivity.
Qed.

Lemma UpdateEmotionalPatterns_resonances ctx :
  ActiveResonances (UpdateEmotionalPatterns now ctx) =
  filter (fun r => negb (expired r)) (map (decay now) (ActiveResonances ctx)).
Proof. unfold UpdateEmotionalPatterns; simpl. now rewrite sweep_fold. Qed.

(** No run of the sweep adds an emotional pattern. *)
Lemma UpdateEmotionalPatterns_patterns ctx :
  EmotionalPatterns (UpdateEmotionalPatterns now ctx) = EmotionalPatterns ctx.
Proof. unfold UpdateEmotionalPatterns; simpl. now rewrite sweep_fold. Qed.



End ResonanceSweep.

Section ResonanceClaims.
Import Resonance Samples.

Lemma praise_factor_30 : timeFactor after_30_hours praise = exp (- 3).
Proof.
  unfold timeFactor.
  replace (hours_between after_30_hours (StartTime praise)) with 30%Z
    by reflexivity.
  f_equal. lra.
Qed.


(** C1 (the code departs from the claim).  A resonance of intensity 0.9,
    above the significance level 0.5 when the tick begins, is swept 30
    hours after its start: its decayed intensity is below 0.1, it is removed
    from the active resonances, and the pattern list stays empty.  The claim
    asks for exactly one pattern carrying the resonance's trigger. *)
Theorem strong_resonance_expires_without_pattern :
  0.5 < Intensity praise /\
  Intensity (decay after_30_hours praise) < 0.1 /\
  ActiveResonances (UpdateEmotionalPatterns after_30_hours praise_context) = [] /\
  EmotionalPatterns (UpdateEmotionalPatterns after_30_hours praise_context) = [].
Proof.
  assert (Hlow : Intensity (decay after_30_hours praise) < 0.1).
  { cbn [decay Intensity]. rewrite praise_factor_30.
    pose proof exp_minus_3. pose proof (exp_pos (- 3)).
    unfold praise; cbn [Intensity]. lra. }
  repeat split.
  - unfold praise; cbn [Intensity]. lra.
  - exact Hlow.
  - rewrite UpdateEmotionalPatterns_resonances.
    unfold praise_context; cbn [ActiveResonances map filter].
    unfold expired. apply Rltb_true in Hlow. now rewrite Hlow.
  - now rewrite UpdateEmotionalPatterns_patterns.
Qed.




End ResonanceClaims.

(** ** The memory manager *)

Section ManagerFrames.
Import MemoryManager.

Lemma set_db_same mm : set_db (db_ mm) mm = mm.
Proof. now destruct mm. Qed.

Lemma store_memory_db memory mm : db_ (store_memory memory mm) = db_ mm.
Proof.
  unfold store_memory, UpdateMemoryCluster, UpdateMemoryIndex.
  destruct (join_cluster _ _); reflexivity.
Qed.

Lemma store_memory_find memory mm :
  map_find (id memory) (memories_ (store_memory memory mm)) = Some memory.
Proof.
  unfold store_memory, UpdateMemoryCluster, UpdateMemoryIndex.
  destruct (join_cluster _ _); simpl; apply map_find_assign_same.
Qed.

Lemma store_memory_parts memory mm :
  memories_ (store_memory memory mm)
  = map_assign (id memory) memory (memories_ mm)
  /\ memory_index (context_ (store_memory memory mm))
     = map_assign (id memory) memory (memory_index (context_ mm))
  /\ trait_baselines_ (store_memory memory mm) = trait_baselines_ mm
  /\ memory_cache_ (store_memory memory mm) = memory_cache_ mm.
Proof.
  unfold store_memory, UpdateMemoryCluster, UpdateMemoryIndex.
  destruct (join_cluster _ _); repeat split; reflexivity.
Qed.

Lemma store_memory_resonances memory mm :
  ActiveResonances (context_ (store_memory memory mm))
  = ActiveResonances (context_ mm)
  /\ EmotionalPatterns (context_ (store_memory memory mm))
     = EmotionalPatterns (context_ mm).
Proof.
  unfold store_memory, UpdateMemoryCluster, UpdateMemoryIndex.
  destruct (join_cluster _ _); split; reflexivity.
Qed.

Lemma ExecuteQueryWithParams_refused query params db :
  db_accepts db query params = false ->
  ExecuteQueryWithParams query params db = (false, db).
Proof. unfold ExecuteQueryWithParams. now intros ->. Qed.

Lemma ExecuteQueryWithParams_true query params db db' :
  ExecuteQueryWithParams query params db = (true, db') ->
  db_accepts db query params = true
  /\ db_executed db' = db_executed db ++ [(query, params)].
Proof.
  unfold ExecuteQueryWithParams.
  destruct (db_accepts db query params); intros H; inversion H; now split.
Qed.

(** What a write-through call does once the manager is initialized, for
    either statement. *)
Lemma write_then_store query params memory mm :
  (let (ok, db) := ExecuteQueryWithParams query params (db_ mm) in
   if negb ok then (false, set_db db mm)
   else (true, store_memory memory (set_db db mm)))
  = if db_accepts (db_ mm) query params
    then (true,
          store_memory memory
            (set_db (mkDatabase (db_opens (db_ mm)) (db_accepts (db_ mm))
                       (db_executed (db_ mm) ++ [(query, params)])) mm))
    else (false, mm).
Proof.
  unfold ExecuteQueryWithParams.
  destruct (db_accepts (db_ mm) query params); simpl; [reflexivity|].
  now rewrite set_db_same.
Qed.

Lemma SaveMemory_cases memory mm :
  SaveMemory memory mm
  = if is_initialized_ mm && db_accepts (db_ mm) insert_query (insert_params memory)
    then (true,
          store_memory memory
            (set_db (mkDatabase (db_opens (db_ mm)) (db_accepts (db_ mm))
                       (db_executed (db_ mm)
                        ++ [(insert_query, insert_params memory)])) mm))
    else (false, mm).
Proof.
  unfold SaveMemory. destruct (is_initialized_ mm); simpl; [|reflexivity].
  apply write_then_store.
Qed.

Lemma UpdateMemory_cases memory mm :
  UpdateMemory memory mm
  = if is_initialized_ mm && db_accepts (db_ mm) update_query (update_params memory)
    then (true,
          store_memory memory
            (set_db (mkDatabase (db_opens (db_ mm)) (db_accepts (db_ mm))
                       (db_executed (db_ mm)
                        ++ [(update_query, update_params memory)])) mm))
    else (false, mm).
Proof.
  unfold UpdateMemory. destruct (is_initialized_ mm); simpl; [|reflexivity].
  apply write_then_store.
Qed.

Lemma UpdateMemory_resonances memory mm :
  ActiveResonances (context_ (snd (UpdateMemory memory mm)))
  = ActiveResonances (context_ mm)
  /\ EmotionalPatterns (context_ (snd (UpdateMemory memory mm)))
     = EmotionalPatterns (context_ mm).
Proof.
  rewrite UpdateMemory_cases.
  destruct (is_initialized_ mm && _); simpl; [|now split].
  apply (store_memory_resonances memory (set_db _ mm)).
Qed.

Lemma boost_entry_resonances mm key :
  ActiveResonances (context_ (boost_entry mm key))
  = ActiveResonances (context_ mm)
  /\ EmotionalPatterns (context_ (boost_entry mm key))
     = EmotionalPatterns (context_ mm).
Proof.
  unfold boost_entry. destruct (map_find key (memories_ mm)); [|now split].
  apply (UpdateMemory_resonances _ (set_memories _ mm)).
Qed.

Lemma UpdateMemoryWeightsWithEmotion_resonances mm :
  ActiveResonances (context_ (UpdateMemoryWeightsWithEmotion mm))
  = ActiveResonances (context_ mm)
  /\ EmotionalPatterns (context_ (UpdateMemoryWeightsWithEmotion mm))
     = EmotionalPatterns (context_ mm).
Proof.
  unfold UpdateMemoryWeightsWithEmotion.
  destruct (is_initialized_ mm); simpl; [|now split].
  generalize (map fst (memories_ mm)) as keys. intros keys; revert mm.
  induction keys as [|key keys IH]; intros mm; simpl; [now split|].
  destruct (IH (boost_entry mm key)) as [-> ->].
  apply boost_entry_resonances.
Qed.

Lemma UpdateEmotionalPatterns_resonances_member mm :
  ActiveResonances (context_ (UpdateEmotionalPatterns mm))
  = ActiveResonances (context_ mm)
  /\ EmotionalPatterns (context_ (UpdateEmotionalPatterns mm))
     = EmotionalPatterns (context_ mm).
Proof.
  unfold UpdateEmotionalPatterns. destruct (is_initialized_ mm); now split.
Qed.

End ManagerFrames.

Section ManagerClaims.
Import MemoryManager Samples.

(** C6.  [SaveMemory] and [UpdateMemory] issue the statement first.  On an
    initialized manager whose collaborator accepts the statement, the call
    returns [true], the statement is recorded, and the memory is stored
    under its id in the memory map and the index (and put in a cluster).  If
    the collaborator refuses the statement, or the manager is not
    initialized, the call returns [false] and the manager, its memory map,
    index and clusters included, is as before.  Conversely, a call that
    returns [true] had its statement accepted and recorded, and the state is
    the in-memory store applied to the manager that already holds the
    recorded statement. *)
Theorem write_through (memory : MemoryEvent) (mm : MemoryManager) :
  (is_initialized_ mm = true ->
   db_accepts (db_ mm) insert_query (insert_params memory) = true ->
   exists mm',
     SaveMemory memory mm = (true, mm')
     /\ db_executed (db_ mm')
        = db_executed (db_ mm) ++ [(insert_query, insert_params memory)]
     /\ memories_ mm' = map_assign (id memory) memory (memories_ mm)
     /\ memory_index (context_ mm')
        = map_assign (id memory) memory (memory_index (context_ mm))
     /\ map_find (id memory) (memories_ mm') = Some memory)
  /\ (is_initialized_ mm = true ->
      db_accepts (db_ mm) update_query (update_params memory) = true ->
      exists mm',
        UpdateMemory memory mm = (true, mm')
        /\ db_executed (db_ mm')
           = db_executed (db_ mm) ++ [(update_query, update_params memory)]
        /\ memories_ mm' = map_assign (id memory) memory (memories_ mm)
        /\ memory_index (context_ mm')
           = map_assign (id memory) memory (memory_index (context_ mm))
        /\ map_find (id memory) (memories_ mm') = Some memory)
  /\ (db_accepts (db_ mm) insert_query (insert_params memory) = false ->
      SaveMemory memory mm = (false, mm))
  /\ (db_accepts (db_ mm) update_query (update_params memory) = false ->
      UpdateMemory memory mm = (false, mm))
  /\ (is_initialized_ mm = false ->
      SaveMemory memory mm = (false, mm)
      /\ UpdateMemory memory mm = (false, mm))
  /\ (forall mm', SaveMemory memory mm = (true, mm') ->
      db_accepts (db_ mm) insert_query (insert_params memory) = true
      /\ db_executed (db_ mm')
         = db_executed (db_ mm) ++ [(insert_query, insert_params memory)]
      /\ mm' = store_memory memory (set_db (db_ mm') mm))
  /\ (forall mm', UpdateMemory memory mm = (true, mm') ->
      db_accepts (db_ mm) update_query (update_params memory) = true
      /\ db_executed (db_ mm')
         = db_executed (db_ mm) ++ [(update_query, update_params memory)]
      /\ mm' = store_memory memory (set_db (db_ mm') mm)).
Proof.
  split; [|split; [|split; [|split; [|split; [|split]]]]].
  - intros Hinit Hdb. rewrite SaveMemory_cases, Hinit, Hdb. cbn [andb].
    eexists. split; [reflexivity|].
    destruct (store_memory_parts memory
                (set_db (mkDatabase (db_opens (db_ mm)) (db_accepts (db_ mm))
                           (db_executed (db_ mm)
                            ++ [(insert_query, insert_params memory)])) mm))
      as (Hmem & Hindex & _).
    rewrite store_memory_db, Hmem, Hindex.
    split; [reflexivity|split; [reflexivity|split; [reflexivity|]]].
    apply map_find_assign_same.
  - intros Hinit Hdb. rewrite UpdateMemory_cases, Hinit, Hdb. cbn [andb].
    eexists. split; [reflexivity|].
    destruct (store_memory_parts memory
                (set_db (mkDatabase (db_opens (db_ mm)) (db_accepts (db_ mm))
                           (db_executed (db_ mm)
                            ++ [(update_query, update_params memory)])) mm))
      as (Hmem & Hindex & _).
    rewrite store_memory_db, Hmem, Hindex.
    split; [reflexivity|split; [reflexivity|split; [reflexivity|]]].
    apply map_find_assign_same.
  - intros H. rewrite SaveMemory_cases, H, andb_false_r. reflexivity.
  - intros H. rewrite UpdateMemory_cases, H, andb_false_r. reflexivity.
  - intros H. rewrite SaveMemory_cases, UpdateMemory_cases, H. now split.
  - intros mm' H. rewrite SaveMemory_cases in H.
    destruct (is_initialized_ mm), (db_accepts (db_ mm) _ _);
      inversion H; subst; clear H.
    rewrite store_memory_db. now repeat split.
  - intros mm' H. rewrite UpdateMemory_cases in H.
    destruct (is_initialized_ mm), (db_accepts (db_ mm) _ _);
      inversion H; subst; clear H.
    rewrite store_memory_db. now repeat split.
Qed.

Lemma write_through_witness :
  (is_initialized_ (manager accepting []) = true
   /\ db_accepts (db_ (manager accepting [])) insert_query (insert_params vivid)
      = true
   /\ exists mm',
        SaveMemory vivid (manager accepting []) = (true, mm')
        /\ db_executed (db_ mm') = [(insert_query, insert_params vivid)]
        /\ map_find "m1" (memories_ mm') = Some vivid)
  /\ (db_accepts (db_ (manager refusing [])) insert_query (insert_params vivid)
      = false
      /\ SaveMemory vivid (manager refusing []) = (false, manager refusing [])).
Proof.
  split.
  - split; [reflexivity|split; [reflexivity|]].
    destruct (proj1 (write_through vivid (manager accepting []))
                eq_refl eq_refl) as (mm' & Hrun & Hdb & _ & _ & Hfind).
    exists mm'. split; [exact Hrun|split; [exact Hdb|exact Hfind]].
  - split; [reflexivity|].
    exact (proj1 (proj2 (proj2 (write_through vivid (manager refusing []))))
             eq_refl).
Defined.

(** C10.  The member [ProcessEmotionalResonance] leaves the active
    resonances (and the emotional patterns) as they were, whether it returns
    or throws, and its whole effect is the same for every trigger, intensity
    and instant: the resonance it builds reaches no collection. *)
Theorem ProcessEmotionalResonance_stores_nothing
        (trigger : string) (intensity : R) (now : time_point)
        (mm : MemoryManager) :
  ActiveResonances (context_ (snd (ProcessEmotionalResonance trigger intensity now mm)))
  = ActiveResonances (context_ mm)
  /\ EmotionalPatterns (context_ (snd (ProcessEmotionalResonance trigger intensity now mm)))
     = EmotionalPatterns (context_ mm)
  /\ forall trigger' intensity' now',
       ProcessEmotionalResonance trigger' intensity' now' mm
       = ProcessEmotionalResonance trigger intensity now mm.
Proof.
  unfold ProcessEmotionalResonance, require_ready, bind, get, throw, ret, modify.
  destruct (negb (is_initialized_ mm)); simpl; [now repeat split|].
  destruct (negb (valid (context_ mm))); simpl; [now repeat split|].
  destruct (UpdateMemoryWeightsWithEmotion_resonances (UpdateEmotionalPatterns mm))
    as [-> ->].
  destruct (UpdateEmotionalPatterns_resonances_member mm) as [-> ->].
  now repeat split.
Qed.

End ManagerClaims.

Section BoundedFields.
Import MemoryManager Samples.

Lemma subscript_assigned {V} (dflt v : V) k m :
  subscript dflt k (map_assign k v m) = (v, map_assign k v m).
Proof. unfold subscript. now rewrite map_find_assign_same. Qed.

Lemma subscript_fst {V} (dflt : V) k m :
  fst (subscript dflt k m)
  = match map_find k m with Some v => v | None => dflt end.
Proof. unfold subscript. now destruct (map_find k m). Qed.

(** [UpdateTraitStability] rewrites the stability of a baseline and leaves
    its current value alone. *)
Lemma UpdateTraitStability_value traitName baseline baselines mm :
  trait_baselines_ mm = map_assign traitName baseline baselines ->
  exists baseline',
    map_find traitName (trait_baselines_ (UpdateTraitStability traitName mm))
    = Some baseline'
    /\ CurrentValue baseline' = CurrentValue baseline.
Proof.
  intros Hb. unfold UpdateTraitStability. rewrite Hb, subscript_assigned.
  destruct (subscript default_metrics traitName (traitEvolutionMetrics_ mm))
    as [metrics metricss].
  eexists. split; [apply map_find_assign_same|reflexivity].
Qed.

(** [UpdateTraitBaseline] adds the influence to the current value and
    stores the sum as it is. *)
Lemma UpdateTraitBaseline_adds traitName influence now mm :
  is_initialized_ mm = true -> valid (context_ mm) = true ->
  exists baseline',
    map_find traitName
      (trait_baselines_ (snd (UpdateTraitBaseline traitName influence now mm)))
    = Some baseline'
    /\ CurrentValue baseline'
       = CurrentValue
           (fst (subscript default_baseline traitName (trait_baselines_ mm)))
         + influence.
Proof.
  intros Hinit Hvalid.
  unfold UpdateTraitBaseline, require_ready, bind, get, throw, ret, modify.
  rewrite Hinit, Hvalid. cbn [negb snd].
  destruct (subscript default_baseline traitName (trait_baselines_ mm))
    as [baseline baselines].
  cbn [fst].
  destruct (UpdateTraitStability_value traitName
              (mkTraitBaseline (CurrentValue baseline + influence)
                 (TargetValue baseline) (AdjustmentRate baseline)
                 (Stability baseline) now (SupportingMemories baseline)
                 (ConflictingMemories baseline))
              baselines
              (set_baselines
                 (map_assign traitName
                    (mkTraitBaseline (CurrentValue baseline + influence)
                       (TargetValue baseline) (AdjustmentRate baseline)
                       (Stability baseline) now (SupportingMemories baseline)
                       (ConflictingMemories baseline)) baselines) mm)
              eq_refl) as (b' & Hfind & Hval).
  exists b'. split; [exact Hfind|exact Hval].
Qed.

(** C2 (the code departs from the claim).  A stored memory of importance 0.9
    and emotional weight 1, both inside their ranges, has importance
    [0.9 + 1 * 0.5], above 1, after [UpdateMemoryWeightsWithEmotion]; a trait
    baseline at 0.9 influenced by 0.5 through [UpdateTraitBaseline] has
    current value [0.9 + 0.5], above 1.  Neither function clamps. *)
Theorem unclamped_updates_leave_range :
  (0 <= importance vivid <= 1 /\ -1 <= emotional_weight vivid <= 1)
  /\ (exists memory,
        map_find "m1"
          (memories_
             (UpdateMemoryWeightsWithEmotion (manager accepting [("m1", vivid)])))
        = Some memory
        /\ importance memory = 0.9 + 1 * 0.5 /\ 1 < importance memory)
  /\ (exists baseline,
        map_find "trust"
          (trait_baselines_ (snd (UpdateTraitBaseline "trust" 0.5 0%Z trusting)))
        = Some baseline
        /\ CurrentValue baseline = 0.9 + 0.5 /\ 1 < CurrentValue baseline).
Proof.
  split; [|split].
  - unfold vivid; cbn [importance emotional_weight]. lra.
  - exists (boost vivid). split; [|split].
    + unfold UpdateMemoryWeightsWithEmotion, manager.
      cbn [is_initialized_ negb memories_ map fst fold_left].
      unfold boost_entry. cbn [memories_ map_find].
      rewrite String.eqb_refl. rewrite UpdateMemory_cases.
      cbn [is_initialized_ set_memories db_ accepting db_accepts andb snd].
      apply (store_memory_find (boost vivid)).
    + reflexivity.
    + unfold boost, vivid; cbn [importance emotional_weight]. lra.
  - destruct (UpdateTraitBaseline_adds "trust" 0.5 0%Z trusting eq_refl eq_refl)
      as (b & Hfind & Hval).
    exists b. rewrite Hval. split; [exact Hfind|].
    rewrite subscript_fst. unfold trusting; cbn [trait_baselines_ map_find].
    rewrite String.eqb_refl. cbn [CurrentValue]. split; lra.
Qed.

End BoundedFields.

Section Confidence.
Import MemoryManager Samples.

Lemma support_score_range (supporting conflicting : nat) :
  0 <= INR supporting / INR (supporting + conflicting + 1) <= 1.
Proof.
  rewrite !plus_INR. simpl (INR 1).
  pose proof (pos_INR supporting). pose proof (pos_INR conflicting).
  assert (Hd : 0 < INR supporting + INR conflicting + 1) by lra.
  split.
  - apply Rmult_le_pos; [lra|]. left. now apply Rinv_0_lt_compat.
  - apply (Rmult_le_reg_r (INR supporting + INR conflicting + 1)); [lra|].
    unfold Rdiv. rewrite Rmult_assoc, Rinv_l by lra. lra.
Qed.

Lemma trend_score_range (trend : R) : 0 <= exp (- Rabs trend) <= 1.
Proof.
  split.
  - left. apply exp_pos.
  - apply exp_nonpos_le_1. pose proof (Rabs_pos trend). lra.
Qed.

(** C5, refuted as stated: at volatility 3 the computed confidence is
    [-0.5], outside [0,1], where the clamped formula gives [0.3]. *)
Lemma confidence_below_zero :
  fst (CalculateTraitConfidence "mood" erratic) = - 0.5
  /\ Spec.confidence 3 0 0 0 = 0.3
  /\ ~ (0 <= fst (CalculateTraitConfidence "mood" erratic) <= 1).
Proof.
  assert (Hval : fst (CalculateTraitConfidence "mood" erratic) = - 0.5).
  { unfold CalculateTraitConfidence, erratic, subscript.
    cbn [trait_baselines_ traitEvolutionMetrics_ map_find].
    rewrite String.eqb_refl. cbn [fst]. unfold trait_confidence, default_baseline.
    cbn [Volatility LongTermTrend SupportingMemories ConflictingMemories
         List.length Nat.add INR].
    rewrite Rabs_R0, Ropp_0, exp_0. lra. }
  split; [exact Hval|split].
  - unfold Spec.confidence, Spec.clamp01. cbn [Nat.add INR].
    rewrite Rabs_R0, Ropp_0, exp_0.
    replace (Rmax 0 (1 - 3)) with 0 by (rewrite Rmax_left; lra).
    replace (Rmax 0 (0 / 1)) with 0 by (rewrite Rmax_left; lra).
    replace (Rmax 0 1) with 1 by (rewrite Rmax_right; lra).
    rewrite (Rmin_right 1 0) by lra. rewrite (Rmin_left 1 1) by lra. lra.
  - rewrite Hval. lra.
Qed.

(** C5, as the code has it.  The confidence of a trait is the weighted sum
    of the three scores taken as they are, without clamping; the support
    and trend scores lie in [0,1] by themselves, and the result lies in
    [0,1] whenever the volatility does. *)
Theorem confidence_is_plain_weighted_sum
        (traitName : string) (mm : MemoryManager) :
  let baseline :=
    fst (subscript default_baseline traitName (trait_baselines_ mm)) in
  let metrics :=
    fst (subscript default_metrics traitName (traitEvolutionMetrics_ mm)) in
  let supporting := List.length (SupportingMemories baseline) in
  let conflicting := List.length (ConflictingMemories baseline) in
  fst (CalculateTraitConfidence traitName mm)
  = 0.4 * (1 - Volatility metrics)
    + 0.3 * (INR supporting / INR (supporting + conflicting + 1))
    + 0.3 * exp (- Rabs (LongTermTrend metrics))
  /\ 0 <= INR supporting / INR (supporting + conflicting + 1) <= 1
  /\ 0 <= exp (- Rabs (LongTermTrend metrics)) <= 1
  /\ (0 <= Volatility metrics <= 1 ->
      0 <= fst (CalculateTraitConfidence traitName mm) <= 1).
Proof.
  intros baseline metrics supporting conflicting.
  assert (Heq : fst (CalculateTraitConfidence traitName mm)
                = 0.4 * (1 - Volatility metrics)
                  + 0.3 * (INR supporting / INR (supporting + conflicting + 1))
                  + 0.3 * exp (- Rabs (LongTermTrend metrics))).
  { unfold CalculateTraitConfidence. subst baseline metrics supporting conflicting.
    destruct (subscript default_baseline traitName (trait_baselines_ mm)).
    destruct (subscript default_metrics traitName (traitEvolutionMetrics_ mm)).
    cbn [fst]. unfold trait_confidence. lra. }
  pose proof (support_score_range supporting conflicting) as Hs.
  pose proof (trend_score_range (LongTermTrend metrics)) as Ht.
  repeat split; try (exact Heq || apply Hs || apply Ht);
    intros; rewrite Heq; lra.
Qed.

Lemma confidence_is_plain_weighted_sum_witness :
  0 <= 0.5 <= 1 /\ 0 <= fst (CalculateTraitConfidence "mood" steady) <= 1.
Proof.
  split; [lra|].
  apply (proj2 (proj2 (proj2 (confidence_is_plain_weighted_sum "mood" steady)))).
  unfold steady, subscript. cbn [traitEvolutionMetrics_ map_find].
  rewrite String.eqb_refl. cbn [fst Volatility]. lra.
Defined.

End Confidence.

Section Associations.
Import MemoryManager Samples.

Lemma associate_appends mem1 connections mem2 :
  associate mem1 connections mem2 = connections ++ pair_connection mem1 mem2.
Proof.
  unfold associate, pair_connection.
  destruct (String.ltb (fst mem1) (fst mem2)); simpl.
  - destruct (Rltb 0.3 _); [reflexivity|now rewrite app_nil_r].
  - now rewrite app_nil_r.
Qed.

Lemma inner_loop mem1 memories : forall connections,
  fold_left (associate mem1) memories connections
  = connections ++ flat_map (pair_connection mem1) memories.
Proof.
  induction memories as [|mem2 memories IH]; intros connections; simpl.
  - now rewrite app_nil_r.
  - rewrite IH, associate_appends, <- app_assoc. reflexivity.
Qed.

Lemma outer_loop memories outer : forall connections,
  fold_left
    (fun connections mem1 => fold_left (associate mem1) memories connections)
    outer connections
  = connections
    ++ flat_map (fun mem1 => flat_map (pair_connection mem1) memories) outer.
Proof.
  induction outer as [|mem1 outer IH]; intros connections; simpl.
  - now rewrite app_nil_r.
  - rewrite IH, inner_loop, <- app_assoc. reflexivity.
Qed.

Lemma all_connections_pairs memories :
  all_connections memories
  = flat_map (fun mem1 => flat_map (pair_connection mem1) memories) memories.
Proof. unfold all_connections. now rewrite outer_loop. Qed.

Lemma in_all_connections memories connection :
  In connection (all_connections memories) <->
  exists mem1 mem2,
    In mem1 memories /\ In mem2 memories
    /\ String.ltb (fst mem1) (fst mem2) = true
    /\ 0.3 < connection_strength (snd mem1) (snd mem2)
    /\ connection = make_connection mem1 mem2.
Proof.
  rewrite all_connections_pairs, in_flat_map. split.
  - intros (mem1 & H1 & Hin). apply in_flat_map in Hin.
    destruct Hin as (mem2 & H2 & Hin). unfold pair_connection in Hin.
    destruct (String.ltb (fst mem1) (fst mem2)) eqn:Hlt; [|contradiction].
    destruct (Rltb 0.3 _) eqn:Hs; simpl in Hin; [|contradiction].
    destruct Hin as [<- | []]. apply Rltb_true in Hs.
    exists mem1, mem2. now repeat split.
  - intros (mem1 & mem2 & H1 & H2 & Hlt & Hs & ->).
    exists mem1. split; [exact H1|]. apply in_flat_map.
    exists mem2. split; [exact H2|]. unfold pair_connection.
    apply Rltb_true in Hs. rewrite Hlt, Hs. now left.
Qed.

Lemma UpdateMemoryAssociations_ready mm :
  is_initialized_ mm = true -> valid (context_ mm) = true ->
  UpdateMemoryAssociations mm
  = (Returned tt,
     set_context
       (set_connections (all_connections (memories_ mm)) (context_ mm)) mm).
Proof.
  intros Hinit Hvalid.
  unfold UpdateMemoryAssociations, require_ready, bind, get, throw, ret, modify.
  now rewrite Hinit, Hvalid.
Qed.

Lemma strength_P_Q : connection_strength memory_P memory_Q = 1 / 2.
Proof.
  unfold connection_strength, traitStrength, tagStrength, memory_P, memory_Q.
  cbn [trait_influences tags fold_left existsb].
  rewrite String.eqb_refl. cbn [orb]. lra.
Qed.

Lemma strength_A_B : connection_strength memory_A memory_B = 0.7.
Proof.
  unfold connection_strength, traitStrength, tagStrength, memory_A, memory_B.
  cbn [trait_influences tags fold_left existsb map_find fst snd].
  rewrite !String.eqb_refl. cbn [orb].
  rewrite Rmin_right by lra. lra.
Qed.

(** C7, refuted as stated: two memories whose only common feature is one tag,
    with emotional weights 0.9 apart, have strength 0.2 by the claim's
    formula, not above 0.3, and yet [UpdateMemoryAssociations] records their
    connection, at strength 1/2. *)
Lemma shared_tag_alone_connects :
  Spec.strength memory_P memory_Q = 0.2
  /\ ~ (0.3 < Spec.strength memory_P memory_Q)
  /\ In (mkMemoryConnection "P" "Q" (1 / 2) "" [])
        (MemoryConnections
           (context_
              (snd (UpdateMemoryAssociations
                      (manager accepting [("P", memory_P); ("Q", memory_Q)]))))).
Proof.
  assert (Hspec : Spec.strength memory_P memory_Q = 0.2).
  { unfold Spec.strength, Spec.shared_traits, Spec.shared_tags, memory_P, memory_Q.
    cbn [trait_influences tags emotional_weight filter existsb List.length].
    rewrite String.eqb_refl. cbn [orb List.length INR].
    replace (Rltb (Rabs (0 - 0.9)) 0.2) with false.
    - lra.
    - symmetry. apply Rltb_false.
      rewrite Rabs_left; lra. }
  split; [exact Hspec|split; [rewrite Hspec; lra|]].
  rewrite UpdateMemoryAssociations_ready by reflexivity.
  cbn [snd context_ set_context set_connections MemoryConnections].
  apply in_all_connections.
  exists ("P", memory_P), ("Q", memory_Q).
  repeat split; cbn [fst snd manager memories_].
  - now left.
  - right; now left.
  - rewrite strength_P_Q. lra.
  - unfold make_connection. cbn [fst snd]. now rewrite strength_P_Q.
Qed.

(** C7, as the code has it.  [UpdateMemoryAssociations] replaces the
    connection list by one computed from the stored memories alone: a
    connection is recorded exactly for the pairs of entries with the first
    key below the second and strength above 0.3, where the strength is half
    of (the sum, over the trait names the two memories share, of the smaller
    of the two influences, plus the number of tags they share); emotional
    weights play no part.  The two memories of the scenario get strength
    0.7. *)
Theorem associations_replace_connections (mm : MemoryManager) :
  is_initialized_ mm = true -> valid (context_ mm) = true ->
  fst (UpdateMemoryAssociations mm) = Returned tt
  /\ (forall connection,
        In connection
           (MemoryConnections (context_ (snd (UpdateMemoryAssociations mm))))
        <-> exists mem1 mem2,
              In mem1 (memories_ mm) /\ In mem2 (memories_ mm)
              /\ String.ltb (fst mem1) (fst mem2) = true
              /\ 0.3 < (traitStrength (snd mem1) (snd mem2)
                        + tagStrength (snd mem1) (snd mem2)) / 2
              /\ connection
                 = mkMemoryConnection (fst mem1) (fst mem2)
                     ((traitStrength (snd mem1) (snd mem2)
                       + tagStrength (snd mem1) (snd mem2)) / 2) "" [])
  /\ connection_strength memory_A memory_B = 0.7.
Proof.
  intros Hinit Hvalid. rewrite UpdateMemoryAssociations_ready by assumption.
  split; [reflexivity|split; [|exact strength_A_B]].
  intros connection.
  cbn [snd context_ set_context set_connections MemoryConnections].
  apply in_all_connections.
Qed.

Lemma associations_replace_connections_witness :
  is_initialized_ (manager accepting [("A", memory_A); ("B", memory_B)]) = true
  /\ valid (context_ (manager accepting [("A", memory_A); ("B", memory_B)]))
     = true
  /\ fst (UpdateMemoryAssociations
            (manager accepting [("A", memory_A); ("B", memory_B)]))
     = Returned tt.
Proof.
  split; [reflexivity|split; [reflexivity|]].
  exact (proj1 (associations_replace_connections
                  (manager accepting [("A", memory_A); ("B", memory_B)])
                  eq_refl eq_refl)).
Defined.

End Associations.

Section Cache.
Import MemoryManager Samples.

Abbreviation cache := (list (string * CacheEntry)).

(** The inner loop ends on the position of an entry of least
    [last_accessed]: either the candidate it started with, or a later entry
    strictly older than that candidate. *)
Lemma oldest_from_least (rest : cache) : forall candidate time it,
  (forall entry, In entry rest -> (time <= last_accessed (snd entry))%Z)
  /\ oldest_from candidate time it rest = candidate
  \/ exists k entry,
       oldest_from candidate time it rest = (it + k)%nat
       /\ nth_error rest k = Some entry
       /\ (last_accessed (snd entry) < time)%Z
       /\ forall other, In other rest ->
            (last_accessed (snd entry) <= last_accessed (snd other))%Z.
Proof.
  induction rest as [|entry rest IH]; intros candidate time it; simpl.
  - left. split; [intros _ []|reflexivity].
  - destruct (last_accessed (snd entry) <? time)%Z eqn:Hlt.
    + apply Z.ltb_lt in Hlt. right.
      destruct (IH it (last_accessed (snd entry)) (S it))
        as [[Hall Heq] | (k & e & Heq & Hnth & Hlt' & Hall)].
      * exists 0%nat, entry. rewrite Heq, Nat.add_0_r.
        repeat split; try easy.
        intros other [<- | Hin]; [lia|now apply Hall].
      * exists (S k), e. rewrite Heq.
        repeat split; try easy; try lia.
        intros other [<- | Hin]; [lia|now apply Hall].
    + apply Z.ltb_ge in Hlt.
      destruct (IH candidate time (S it))
        as [[Hall Heq] | (k & e & Heq & Hnth & Hlt' & Hall)].
      * left. split; [|exact Heq].
        intros other [<- | Hin]; [exact Hlt|now apply Hall].
      * right. exists (S k), e. rewrite Heq.
        repeat split; try easy; try lia.
        intros other [<- | Hin]; [lia|now apply Hall].
Qed.

Lemma oldest_least (entries : cache) :
  entries <> [] ->
  exists entry,
    nth_error entries (oldest entries) = Some entry
    /\ forall other, In other entries ->
         (last_accessed (snd entry) <= last_accessed (snd other))%Z.
Proof.
  destruct entries as [|first rest]; [easy|intros _]. unfold oldest.
  destruct (oldest_from_least rest 0%nat (last_accessed (snd first)) 1%nat)
    as [[Hall Heq] | (k & e & Heq & Hnth & Hlt & Hall)]; rewrite Heq.
  - exists first. split; [reflexivity|].
    intros other [<- | Hin]; [lia|now apply Hall].
  - exists e. split; [exact Hnth|].
    intros other [<- | Hin]; [lia|now apply Hall].
Qed.

Lemma erase_at (entries : cache) : forall pos entry,
  nth_error entries pos = Some entry ->
  exists front back,
    entries = front ++ entry :: back /\ erase pos entries = front ++ back.
Proof.
  induction entries as [|first rest IH]; intros [|pos] entry Hnth;
    simpl in Hnth; try discriminate.
  - injection Hnth as <-. now exists [], rest.
  - destruct (IH pos entry Hnth) as (front & back & -> & Herase).
    exists (first :: front), back. simpl. now rewrite Herase.
Qed.

Lemma evict_within maxCacheSize (entries : cache) :
  (List.length entries <= maxCacheSize)%nat ->
  evict maxCacheSize entries = entries.
Proof.
  intros Hle. rewrite evict_equation_1.
  destruct (le_lt_dec (List.length entries) maxCacheSize); [reflexivity|lia].
Qed.

Lemma evict_over maxCacheSize (entries : cache) :
  (maxCacheSize < List.length entries)%nat ->
  evict maxCacheSize entries
  = evict maxCacheSize (erase (oldest entries) entries).
Proof.
  intros Hlt. rewrite evict_equation_1 at 1.
  destruct (le_lt_dec (List.length entries) maxCacheSize); [lia|reflexivity].
Qed.

(** The loop is a run of least-recently-used evictions. *)
Lemma evict_runs maxCacheSize : forall n (entries : cache),
  List.length entries = n -> Spec.evicts_lru maxCacheSize entries
                               (evict maxCacheSize entries).
Proof.
  induction n as [n IH] using lt_wf_ind. intros entries Hn.
  destruct (le_lt_dec (List.length entries) maxCacheSize) as [Hle | Hlt].
  - rewrite evict_within by exact Hle. now constructor.
  - rewrite evict_over by exact Hlt.
    assert (Hne : entries <> []) by (intros ->; simpl in Hlt; lia).
    destruct (oldest_least entries Hne) as (entry & Hnth & Hleast).
    destruct (erase_at entries _ entry Hnth) as (front & back & -> & ->).
    apply Spec.lru_evict; [exact Hlt|exact Hleast|].
    apply (IH (List.length (front ++ back))); [|reflexivity].
    subst n. rewrite !length_app. simpl. lia.
Qed.

Lemma evicts_lru_bound maxCacheSize (entries left : cache) :
  Spec.evicts_lru maxCacheSize entries left ->
  (List.length left <= maxCacheSize)%nat.
Proof. induction 1; assumption. Qed.

(** C8.  On an initialized manager [UpdateCache] performs a run of evictions,
    each of one entry whose last access is the earliest among those present,
    while the cache is over [maxCacheSize_], and ends at or under that size;
    a second call right after the first changes nothing. *)
Theorem UpdateCache_evicts_oldest_and_is_idempotent (mm : MemoryManager) :
  (is_initialized_ mm = true ->
   Spec.evicts_lru (maxCacheSize_ mm) (memory_cache_ mm)
                   (memory_cache_ (UpdateCache mm))
   /\ (List.length (memory_cache_ (UpdateCache mm)) <= maxCacheSize_ mm)%nat)
  /\ UpdateCache (UpdateCache mm) = UpdateCache mm.
Proof.
  split.
  - intros Hinit. unfold UpdateCache. rewrite Hinit. cbn [negb memory_cache_ set_cache].
    pose proof (evict_runs (maxCacheSize_ mm) _ (memory_cache_ mm) eq_refl) as Hrun.
    split; [exact Hrun|exact (evicts_lru_bound _ _ _ Hrun)].
  - unfold UpdateCache. destruct (is_initialized_ mm) eqn:Hinit; cbn [negb].
    + cbn [is_initialized_ set_cache negb maxCacheSize_ memory_cache_].
      rewrite Hinit. cbn [negb].
      rewrite (evict_within (maxCacheSize_ mm) (evict _ _)).
      * reflexivity.
      * apply (evicts_lru_bound _ (memory_cache_ mm)).
        now apply (evict_runs _ _ _ eq_refl).
    + rewrite Hinit. reflexivity.
Qed.

Lemma UpdateCache_evicts_oldest_and_is_idempotent_witness :
  is_initialized_ caching = true
  /\ (List.length (memory_cache_ (UpdateCache caching)) <= 2)%nat.
Proof.
  split; [reflexivity|].
  exact (proj2 (proj1 (UpdateCache_evicts_oldest_and_is_idempotent caching)
                      eq_refl)).
Defined.

(** The specification's cache scenario: with room for two, the entry last
    used at time 2 goes and the other two stay. *)
Lemma small_cache_eviction :
  memory_cache_ (UpdateCache caching)
  = [ ("m1", mkCacheEntry vivid 5%Z); ("m3", mkCacheEntry memory_B 9%Z) ].
Proof.
  unfold UpdateCache, caching. cbn [is_initialized_ negb set_cache memory_cache_ maxCacheSize_].
  rewrite evict_over by (simpl; lia).
  rewrite evict_within by (simpl; lia).
  reflexivity.
Qed.

End Cache.

(** ** The session's connection pass *)

Section SessionConnections.
Import Resonance Samples.

Lemma count_fold {A} (p : A -> bool) (step : R) (l : list A) : forall start,
  fold_left (fun acc x => if p x then acc + step else acc) l start
  = start + step * INR (List.length (filter p l)).
Proof.
  induction l as [|x l IH]; intros start; cbn [fold_left filter].
  - simpl. lra.
  - rewrite IH. destruct (p x); [|reflexivity].
    cbn [List.length]. rewrite S_INR. lra.
Qed.

Lemma trait_fold mem2 (traits : list (string * R)) : forall start names,
  fst (fold_left
         (fun acc trait =>
            match map_find (fst trait) (trait_influences mem2) with
            | Some _ => (fst acc + 0.3, snd acc ++ [fst trait])
            | None => acc
            end) traits (start, names))
  = start
    + 0.3 * INR (List.length
                   (filter (fun trait =>
                              match map_find (fst trait) (trait_influences mem2) with
                              | Some _ => true
                              | None => false
                              end) traits)).
Proof.
  induction traits as [|trait traits IH]; intros start names;
    cbn [fold_left filter].
  - simpl. lra.
  - destruct (map_find (fst trait) (trait_influences mem2)).
    + cbn [fst snd]. rewrite IH. cbn [List.length]. rewrite S_INR. lra.
    + apply IH.
Qed.

(** [CreateMemoryConnections] computes the strength the specification
    words. *)
Lemma pair_strength_is_worded_strength mem1 mem2 :
  fst (pair_strength mem1 mem2) = Spec.strength mem1 mem2.
Proof.
  unfold pair_strength, Spec.strength, Spec.shared_traits, Spec.shared_tags.
  cbn [fst]. rewrite count_fold, trait_fold.
  destruct (Rltb _ 0.2); lra.
Qed.

Lemma connect_extends mem1 later : forall connections,
  exists added,
    fold_left (connect mem1) later connections = connections ++ added.
Proof.
  induction later as [|mem2 later IH]; intros connections; cbn [fold_left].
  - exists []. now rewrite app_nil_r.
  - destruct (IH (connect mem1 connections mem2)) as (added & ->).
    unfold connect. destruct (Rltb 0.5 _).
    + eexists. rewrite <- app_assoc. reflexivity.
    + now exists added.
Qed.

(** It adds to the connections already there; none is discarded. *)
Lemma CreateMemoryConnections_keeps_prior ctx :
  exists added,
    MemoryConnections (CreateMemoryConnections ctx)
    = MemoryConnections ctx ++ added.
Proof.
  unfold CreateMemoryConnections; cbn [MemoryConnections].
  generalize (MemoryConnections ctx) as connections.
  induction (ShortTermMemories ctx ++ LongTermMemories ctx) as [|mem1 later IH];
    intros connections; cbn [connect_all].
  - exists []. now rewrite app_nil_r.
  - destruct (connect_extends mem1 later connections) as (added & ->).
    destruct (IH (connections ++ added)) as (more & ->).
    exists (added ++ more). now rewrite app_assoc.
Qed.

(** Its threshold is 0.5: a pair of worded strength 0.5, above 0.3, gets no
    connection. *)
Lemma CreateMemoryConnections_threshold :
  Spec.strength memory_S memory_T = 0.5
  /\ MemoryConnections
       (CreateMemoryConnections
          (mkMemoryContext [memory_S; memory_T] [] [] [] [])) = [].
Proof.
  assert (Hs : Spec.strength memory_S memory_T = 0.5).
  { unfold Spec.strength, Spec.shared_traits, Spec.shared_tags, memory_S, memory_T.
    cbn [trait_influences tags emotional_weight filter map_find fst].
    rewrite String.eqb_refl. cbn [List.length INR].
    replace (Rltb (Rabs (0.6 - 0.65)) 0.2) with true.
    - lra.
    - symmetry. apply Rltb_true. rewrite Rabs_left; lra. }
  split; [exact Hs|].
  unfold CreateMemoryConnections.
  cbn [MemoryConnections ShortTermMemories LongTermMemories app connect_all fold_left].
  unfold connect. rewrite pair_strength_is_worded_strength, Hs.
  replace (Rltb 0.5 0.5) with false; [reflexivity|].
  symmetry. apply Rltb_false. lra.
Qed.

End SessionConnections.

(** ** The persona system *)

(** ** Correlation keys *)

Section CorrelationKeys.
Import PersonaSystem.

Lemma prefix_append (s rest : string) : prefix s (String.append s rest) = true.
Proof.
  induction s as [|c s IH]; simpl; [now destruct rest|].
  destruct (ascii_dec c c); [exact IH|congruence].
Qed.

Lemma contains_prefix (s rest : string) :
  contains (String.append s rest) s = true.
Proof.
  unfold contains.
  destruct (String.append s rest) as [|c tail] eqn:Happ.
  - destruct s; [reflexivity|discriminate].
  - cbn [String.index]. rewrite <- Happ, prefix_append. reflexivity.
Qed.

Lemma substring_all (s : string) : substring 0 (String.length s) s = s.
Proof. induction s as [|c s IH]; simpl; [reflexivity|now rewrite IH]. Qed.

Lemma substring_skip (s rest : string) n :
  substring (String.length s) n (String.append s rest) = substring 0 n rest.
Proof. induction s as [|c s IH]; simpl; [reflexivity|exact IH]. Qed.

Lemma length_append (s rest : string) :
  String.length (String.append s rest)
  = (String.length s + String.length rest)%nat.
Proof. induction s as [|c s IH]; simpl; [reflexivity|now rewrite IH]. Qed.

Lemma substr_after_separator (trait1 trait2 : string) :
  substr (String.append trait1 (String.append "_" trait2))
         (String.length trait1 + 1)
  = Some trait2.
Proof.
  unfold substr. rewrite length_append. cbn [String.append String.length].
  replace (String.length trait1 + 1 <=? String.length trait1 + S (String.length trait2))%nat
    with true by (symmetry; apply Nat.leb_le; lia).
  f_equal.
  replace (String.length trait1 + S (String.length trait2)
           - (String.length trait1 + 1))%nat
    with (String.length trait2) by lia.
  replace (String "_" trait2) with (String.append "_" trait2) by reflexivity.
  replace (String.append trait1 (String.append "_" trait2))
    with (String.append (String.append trait1 "_") trait2).
  - replace (String.length trait1 + 1)%nat
      with (String.length (String.append trait1 "_"))
      by (rewrite length_append; reflexivity).
    rewrite substring_skip. apply substring_all.
  - clear. induction trait1 as [|c s IH]; simpl; [reflexivity|now rewrite IH].
Qed.

Lemma substring_after_separator (trait1 trait2 : string) :
  substring (String.length trait1 + 1) (String.length trait2)
            (String.append trait1 (String.append "_" trait2))
  = trait2.
Proof.
  pose proof (substr_after_separator trait1 trait2) as H.
  unfold substr in H. rewrite length_append in H.
  cbn [String.append String.length] in H.
  replace (String.length trait1 + 1 <=? String.length trait1 + S (String.length trait2))%nat
    with true in H by (symmetry; apply Nat.leb_le; lia).
  replace (String.length trait1 + S (String.length trait2)
           - (String.length trait1 + 1))%nat
    with (String.length trait2) in H by lia.
  now injection H.
Qed.

(** The key built for two traits contains the second one as well. *)
Lemma contains_second (trait1 trait2 : string) :
  contains (String.append trait1 (String.append "_" trait2)) trait2 = true.
Proof.
  unfold contains.
  destruct (String.index 0 trait2 _) as [pos|] eqn:Hindex; [reflexivity|].
  destruct trait2 as [|c rest].
  - apply index_correct4 in Hindex. inversion Hindex.
  - exfalso.
    apply (index_correct3 0 (String.length trait1 + 1) _ _ Hindex);
      [discriminate|apply Nat.le_0_l|].
    apply substring_after_separator.
Qed.

(** [substr] does not throw at a position within the key. *)
Lemma substr_defined (key : string) (pos : nat) :
  (pos <= String.length key)%nat -> exists rest, substr key pos = Some rest.
Proof.
  intros Hle. unfold substr.
  replace (pos <=? String.length key)%nat with true
    by (symmetry; now apply Nat.leb_le).
  now eexists.
Qed.

End CorrelationKeys.

Section TraitInfluence.
Import PersonaSystem Samples MoreSamples.

Lemma influenced_range now influence evidence trait :
  0 <= CurrentValue (influenced now influence evidence trait) <= 1.
Proof.
  unfold influenced; cbn [CurrentValue].
  set (x := _ + _). unfold Rmin, Rmax.
  destruct (Rle_dec 0 x); destruct (Rle_dec 1 _); lra.
Qed.

Lemma lookup_after_influence now traitName influence evidence personality trait :
  lookup_trait traitName personality = Some trait ->
  exists personality',
    influence_traits now traitName influence evidence personality
    = Some personality'
    /\ lookup_trait traitName personality'
       = Some (influenced now influence evidence trait)
    /\ TraitCorrelations personality' = TraitCorrelations personality.
Proof.
  unfold lookup_trait, influence_traits.
  destruct (map_find traitName (CoreTraits personality)) as [core|] eqn:Hcore.
  - intros [= ->]. eexists. split; [reflexivity|]. cbn [CoreTraits TraitCorrelations].
    now rewrite map_find_assign_same.
  - intros Hderived. rewrite Hderived. eexists. split; [reflexivity|].
    cbn [CoreTraits DerivedTraits TraitCorrelations].
    now rewrite Hcore, map_find_assign_same.
Qed.

Lemma lookup_none_no_influence now traitName influence evidence personality :
  lookup_trait traitName personality = None ->
  influence_traits now traitName influence evidence personality = None.
Proof.
  unfold lookup_trait, influence_traits.
  destruct (map_find traitName (CoreTraits personality)); [discriminate|].
  now intros ->.
Qed.

(** One propagation is the run of its secondary calls. *)
Lemma propagate_runs_calls U traitName influence sys :
  propagate U traitName influence sys
  = run_calls U (secondary_calls traitName influence (correlations sys)) sys.
Proof.
  unfold propagate, run_calls, secondary_calls, correlations.
  destruct (activePersona_ sys) as [persona|]; [|reflexivity].
  generalize (Done sys) as start.
  induction (TraitCorrelations (Personality persona)) as [|entry table IH];
    intros start; cbn [fold_left filter map]; [reflexivity|].
  destruct (contains (fst entry) traitName) eqn:Hc; cbn [fold_left map fst snd].
  - rewrite IH. reflexivity.
  - rewrite <- IH. f_equal. now destruct start.
Qed.

Lemma no_secondary_calls traitName influence table :
  (forall entry, In entry table -> contains (fst entry) traitName = false) ->
  secondary_calls traitName influence table = [].
Proof.
  intros Hnone. unfold secondary_calls.
  induction table as [|entry table IH]; [reflexivity|]. cbn [filter].
  rewrite (Hnone entry (or_introl eq_refl)). apply IH.
  intros e He. apply Hnone. now right.
Qed.

(** C3, refuted as stated: a trait at 0.5 with reinforcement rate 0.1,
    influenced by 0.2 with no time elapsed, ends at 0.52, where decaying,
    adding the amount and clamping gives 0.7; and influencing a name the
    persona does not have leaves the persona as it was, without a new
    baseline. *)
Lemma influence_is_scaled_and_never_creates :
  (exists sys',
     UpdateTrait 1 0%Z "patience" 0.2 "praise" calm = Done sys'
     /\ GetTraitStrength "patience" sys' = 0.52)
  /\ Spec.influenced_value 0.5 0.01 0 0.2 = 0.7
  /\ (exists sys',
        UpdateTrait 1 0%Z "courage" 0.2 "praise" calm = Done sys'
        /\ activePersona_ sys' = activePersona_ calm
        /\ lookup_trait "courage" (PersonaSystem.mkTraits [("patience", patience)] [] [])
           = None).
Proof.
  assert (Hexp : exp (- (0.01) * (IZR (hours_between 0%Z 0%Z) / 24)) = 1).
  { replace (hours_between 0%Z 0%Z) with 0%Z by reflexivity.
    replace (- (0.01) * (0 / 24)) with 0 by lra. apply exp_0. }
  split; [|split].
  - eexists. split; [reflexivity|].
    cbn -[influenced]. unfold influenced, patience.
    cbn [CurrentValue DecayRate ReinforcementRate LastUpdated].
    rewrite Hexp. rewrite Rmax_right by lra. rewrite Rmin_right by lra. lra.
  - unfold Spec.influenced_value, Spec.clamp01.
    replace (- (0.01) * 0) with 0 by lra. rewrite exp_0.
    rewrite Rmax_right by lra. rewrite Rmin_right by lra. lra.
  - eexists. split; [reflexivity|]. split; reflexivity.
Qed.

Lemma influence_traits_other now traitName influence evidence
      personality personality' other :
  influence_traits now traitName influence evidence personality
  = Some personality' ->
  other <> traitName ->
  lookup_trait other personality' = lookup_trait other personality.
Proof.
  unfold influence_traits, lookup_trait. intros Hinf Hne.
  destruct (map_find traitName (CoreTraits personality)).
  - injection Hinf as <-. cbn [CoreTraits DerivedTraits].
    now rewrite map_find_assign_other.
  - destruct (map_find traitName (DerivedTraits personality)); [|discriminate].
    injection Hinf as <-. cbn [CoreTraits DerivedTraits].
    now rewrite map_find_assign_other.
Qed.

(** Secondary calls that all go to names the persona does not have return
    one after the other, each leaving only its record with the
    collaborator. *)
Lemma stray_calls_return depth now persona calls : forall log,
  (forall call, In call calls ->
     exists otherTrait,
       fst call = Some otherTrait
       /\ lookup_trait otherTrait (Personality persona) = None) ->
  run_calls (UpdateTrait (S depth) now) calls
            (mkPersonaSystem (Some persona) log)
  = Done (mkPersonaSystem (Some persona) (log ++ records (ID persona) calls)).
Proof.
  unfold run_calls, records.
  induction calls as [|call calls IH]; intros log Hstray;
    cbn [fold_left flat_map].
  - now rewrite app_nil_r.
  - destruct (Hstray call (or_introl eq_refl)) as (otherTrait & Hcall & Hnone).
    rewrite Hcall. cbn [and_then UpdateTrait activePersona_ db_].
    rewrite (lookup_none_no_influence _ _ _ _ _ Hnone).
    rewrite IH by (intros c Hc; apply Hstray; now right).
    cbn [app]. now rewrite <- app_assoc.
Qed.

Lemma stray_secondary_calls traitName influence table personality :
  (forall entry, In entry table ->
     contains (fst entry) traitName = true ->
     exists otherTrait,
       substr (fst entry) (String.length traitName + 1) = Some otherTrait
       /\ lookup_trait otherTrait personality = None) ->
  forall call, In call (secondary_calls traitName influence table) ->
    exists otherTrait,
      fst call = Some otherTrait /\ lookup_trait otherTrait personality = None.
Proof.
  intros Hstray call Hin. unfold secondary_calls in Hin.
  apply in_map_iff in Hin. destruct Hin as (entry & <- & Hentry).
  apply filter_In in Hentry. destruct Hentry as (Hentry & Hcontains).
  exact (Hstray entry Hentry Hcontains).
Qed.

(** C3, as the code has it.  [UpdateTrait] on a trait the persona has (the
    core trait of that name, else the derived one) multiplies its current
    value by [exp(-DecayRate * days)], the days being the whole hours since
    [LastUpdated] over 24, adds the influence times the trait's
    [ReinforcementRate], clamps to [0,1], appends the evidence and sets
    [LastUpdated] to the current time; every other trait and the correlation
    table are as before, the call is recorded with the collaborator, and the
    secondary calls of the propagation are made from that state.  When each
    of them goes to a name the persona does not have, the call returns with
    that state and one more record per secondary call.  On a name the
    persona does not have, [UpdateTrait] records the call with the
    collaborator and changes no trait, whatever the correlation table. *)
Theorem UpdateTrait_scales_by_reinforcement
        (depth : nat) (now : time_point) (traitName : string)
        (influence : R) (evidence : string) (persona : Persona)
        (log : list SaveTraitCall) :
  (forall trait,
     lookup_trait traitName (Personality persona) = Some trait ->
     exists personality' trait',
       UpdateTrait (S depth) now traitName influence evidence
                   (mkPersonaSystem (Some persona) log)
       = run_calls (UpdateTrait depth now)
           (secondary_calls traitName influence
              (TraitCorrelations (Personality persona)))
           (mkPersonaSystem
              (Some (mkPersona (ID persona) personality'))
              (log ++ [mkSaveTraitCall (ID persona) traitName influence 0.8]))
       /\ lookup_trait traitName personality' = Some trait'
       /\ CurrentValue trait'
          = Rmin 1 (Rmax 0
              (CurrentValue trait
               * exp (- DecayRate trait
                      * (IZR (hours_between now (LastUpdated trait)) / 24))
               + influence * ReinforcementRate trait))
       /\ 0 <= CurrentValue trait' <= 1
       /\ LastUpdated trait' = now
       /\ Evidence trait' = Evidence trait ++ [evidence]
       /\ (forall other, other <> traitName ->
             lookup_trait other personality'
             = lookup_trait other (Personality persona))
       /\ TraitCorrelations personality'
          = TraitCorrelations (Personality persona)
       /\ ((forall entry,
              In entry (TraitCorrelations (Personality persona)) ->
              contains (fst entry) traitName = true ->
              exists otherTrait,
                substr (fst entry) (String.length traitName + 1)
                = Some otherTrait
                /\ lookup_trait otherTrait (Personality persona) = None) ->
           UpdateTrait (S (S depth)) now traitName influence evidence
                       (mkPersonaSystem (Some persona) log)
           = Done (mkPersonaSystem
                     (Some (mkPersona (ID persona) personality'))
                     (log
                      ++ mkSaveTraitCall (ID persona) traitName influence 0.8
                         :: records (ID persona)
                              (secondary_calls traitName influence
                                 (TraitCorrelations (Personality persona)))))))
  /\ (lookup_trait traitName (Personality persona) = None ->
      UpdateTrait (S depth) now traitName influence evidence
                  (mkPersonaSystem (Some persona) log)
      = Done (mkPersonaSystem (Some persona)
                (log ++ [mkSaveTraitCall (ID persona) traitName influence 0.8]))).
Proof.
  split.
  - intros trait Hfind.
    destruct (lookup_after_influence now traitName influence evidence
                (Personality persona) trait Hfind)
      as (personality' & Hinf & Hlook & Hcorr).
    assert (Hother : forall other, other <> traitName ->
              lookup_trait other personality'
              = lookup_trait other (Personality persona))
      by (intros other; now apply influence_traits_other with (1 := Hinf)).
    assert (Hrun : forall depth',
              UpdateTrait (S depth') now traitName influence evidence
                          (mkPersonaSystem (Some persona) log)
              = run_calls (UpdateTrait depth' now)
                  (secondary_calls traitName influence
                     (TraitCorrelations (Personality persona)))
                  (mkPersonaSystem
                     (Some (mkPersona (ID persona) personality'))
                     (log ++ [mkSaveTraitCall (ID persona) traitName
                                influence 0.8]))).
    { intros depth'. cbn [UpdateTrait activePersona_ db_]. rewrite Hinf.
      rewrite propagate_runs_calls. unfold correlations.
      cbn [activePersona_ Personality]. now rewrite Hcorr. }
    exists personality', (influenced now influence evidence trait).
    split; [apply Hrun|].
    split; [exact Hlook|].
    split; [reflexivity|].
    split; [apply influenced_range|].
    split; [reflexivity|].
    split; [reflexivity|].
    split; [exact Hother|].
    split; [exact Hcorr|].
    intros Hstray. rewrite Hrun.
    rewrite (stray_calls_return depth now
               (mkPersona (ID persona) personality')).
    + cbn [ID]. now rewrite <- app_assoc.
    + cbn [Personality].
      apply stray_secondary_calls. intros entry Hentry Hcontains.
      destruct (Hstray entry Hentry Hcontains) as (otherTrait & Hsub & Hnone).
      exists otherTrait. split; [exact Hsub|].
      rewrite Hother; [exact Hnone|].
      intros ->. rewrite Hfind in Hnone. discriminate.
  - intros Hfind. cbn [UpdateTrait activePersona_ db_].
    now rewrite lookup_none_no_influence.
Qed.

Lemma UpdateTrait_scales_by_reinforcement_witness :
  lookup_trait "arousal"
    (mkTraits
       [("clinginess",
         mkTraitEvolution 0.7 0.7 0.02 0.2
           ["emotional_awareness"; "attachment"] 0%Z ["initial_setup"]);
        ("emotional_awareness",
         mkTraitEvolution 0.8 0.8 0.01 0.1
           ["sapphic_identity"; "clinginess"] 0%Z ["initial_setup"]);
        ("sapphic_identity",
         mkTraitEvolution 0.9 0.9 0.01 0.15
           ["emotional_awareness"; "flirtiness"] 0%Z ["initial_setup"])]
       [("arousal",
         mkTraitEvolution 0.4 0.4 0.05 0.3
           ["sapphic_identity"; "flirtiness"] 0%Z ["initial_setup"]);
        ("flirtiness",
         mkTraitEvolution 0.6 0.6 0.03 0.25
           ["sapphic_identity"; "arousal"] 0%Z ["initial_setup"])]
       [("clinginess_emotional_awareness", 0.6);
        ("flirtiness_arousal", 0.9);
        ("sapphic_identity_arousal", 0.7);
        ("sapphic_identity_emotional_awareness", 0.8)])
  = Some (mkTraitEvolution 0.4 0.4 0.05 0.3
            ["sapphic_identity"; "flirtiness"] 0%Z ["initial_setup"])
  /\ exists personality' trait',
       UpdateTrait 2 86400%Z "arousal" 0.3 "flirty_interaction"
                   (sapphic_teaser 0%Z)
       = Done (mkPersonaSystem
                 (Some (mkPersona "sapphic_teaser" personality'))
                 [mkSaveTraitCall "sapphic_teaser" "arousal" 0.3 0.8;
                  mkSaveTraitCall "sapphic_teaser" "ss_arousal" (0.3 * 0.9) 0.8;
                  mkSaveTraitCall "sapphic_teaser" "identity_arousal"
                    (0.3 * 0.7) 0.8])
       /\ lookup_trait "arousal" personality' = Some trait'
       /\ CurrentValue trait'
          = Rmin 1 (Rmax 0 (0.4 * exp (- (0.05) * (IZR 24 / 24)) + 0.3 * 0.3)).
Proof.
  split; [reflexivity|].
  destruct (proj1 (UpdateTrait_scales_by_reinforcement 0 86400%Z "arousal" 0.3
                     "flirty_interaction"
                     (mkPersona "sapphic_teaser"
                        (mkTraits
                           [("clinginess",
                             mkTraitEvolution 0.7 0.7 0.02 0.2
                               ["emotional_awareness"; "attachment"] 0%Z
                               ["initial_setup"]);
                            ("emotional_awareness",
                             mkTraitEvolution 0.8 0.8 0.01 0.1
                               ["sapphic_identity"; "clinginess"] 0%Z
                               ["initial_setup"]);
                            ("sapphic_identity",
                             mkTraitEvolution 0.9 0.9 0.01 0.15
                               ["emotional_awareness"; "flirtiness"] 0%Z
                               ["initial_setup"])]
                           [("arousal",
                             mkTraitEvolution 0.4 0.4 0.05 0.3
                               ["sapphic_identity"; "flirtiness"] 0%Z
                               ["initial_setup"]);
                            ("flirtiness",
                             mkTraitEvolution 0.6 0.6 0.03 0.25
                               ["sapphic_identity"; "arousal"] 0%Z
                               ["initial_setup"])]
                           [("clinginess_emotional_awareness", 0.6);
                            ("flirtiness_arousal", 0.9);
                            ("sapphic_identity_arousal", 0.7);
                            ("sapphic_identity_emotional_awareness", 0.8)]))
                     [])
              (mkTraitEvolution 0.4 0.4 0.05 0.3
                 ["sapphic_identity"; "flirtiness"] 0%Z ["initial_setup"])
              eq_refl)
    as (personality' & trait' & _ & Hlook & Hvalue & _ & _ & _ & _ & _ & Hdone).
  exists personality', trait'.
  split; [|split; [exact Hlook|exact Hvalue]].
  apply Hdone. cbn [Personality TraitCorrelations].
  intros entry [<- | [<- | [<- | [<- | []]]]]; cbn [fst];
    intros Hcontains; try discriminate Hcontains;
    eexists; (split; [reflexivity|reflexivity]).
Defined.

End TraitInfluence.

Section Propagation.
Import PersonaSystem Samples.

Lemma exp_at_zero x : x = 0 -> exp x = 1.
Proof. intros ->. apply exp_0. Qed.

Lemma chain_run depth now amount evidence ta tb tc k1 k2 log :
  UpdateTrait (4 + depth) now "a" amount evidence (chained ta tb tc k1 k2 log)
  = Done
      (chained (influenced now amount evidence ta)
         (influenced now (amount * k1) "correlated_trait" tb)
         (influenced now (amount * k1 * k2) "correlated_trait" tc)
         k1 k2
         (log ++ [ mkSaveTraitCall "chain" "a" amount 0.8;
                   mkSaveTraitCall "chain" "bb" (amount * k1) 0.8;
                   mkSaveTraitCall "chain" "b" (amount * k1 * k1) 0.8;
                   mkSaveTraitCall "chain" "c" (amount * k1 * k2) 0.8;
                   mkSaveTraitCall "chain" "_c" (amount * k1 * k2 * k2) 0.8 ])).
Proof.
  unfold chained. cbn -[influenced Rmult Rplus exp IZR].
  rewrite <- !app_assoc. reflexivity.
Qed.

Lemma map_assign_in_range (traits : list (string * TraitEvolution)) k trait :
  0 <= CurrentValue trait <= 1 ->
  Forall (fun entry => 0 <= CurrentValue (snd entry) <= 1) traits ->
  Forall (fun entry => 0 <= CurrentValue (snd entry) <= 1)
         (map_assign k trait traits).
Proof.
  intros Ht. induction 1 as [|[k' t'] rest Hhead Hrest IH]; simpl.
  - now constructor.
  - destruct (String.eqb k k'); [now constructor|].
    destruct (String.ltb k k'); constructor; try easy; now constructor.
Qed.

Lemma influence_traits_in_range now traitName influence evidence p p' :
  traits_in_range p ->
  influence_traits now traitName influence evidence p = Some p' ->
  traits_in_range p'.
Proof.
  unfold traits_in_range, influence_traits. intros [Hcore Hderived].
  destruct (map_find traitName (CoreTraits p)).
  - intros [= <-]. cbn [CoreTraits DerivedTraits].
    split; [|exact Hderived].
    apply map_assign_in_range; [apply influenced_range|exact Hcore].
  - destruct (map_find traitName (DerivedTraits p)); [|discriminate].
    intros [= <-]. cbn [CoreTraits DerivedTraits].
    split; [exact Hcore|].
    apply map_assign_in_range; [apply influenced_range|exact Hderived].
Qed.

Lemma run_calls_in_range U calls :
  (forall name influence evidence sys sys',
     in_range sys -> U name influence evidence sys = Done sys' -> in_range sys') ->
  forall sys sys',
    in_range sys -> run_calls U calls sys = Done sys' -> in_range sys'.
Proof.
  intros HU. unfold run_calls.
  induction calls as [|call calls IH] using rev_ind; intros sys sys' Hr.
  - simpl. now intros [= <-].
  - rewrite fold_left_app. cbn [fold_left].
    destruct (fold_left _ calls (Done sys)) as [mid| |mid|] eqn:Hmid;
      cbn [and_then]; try discriminate.
    destruct (fst call) as [other|]; [|discriminate].
    intros Hcall. eapply HU; [|exact Hcall].
    now apply (IH sys mid).
Qed.

(** [UpdateTrait], propagation included, keeps every trait of the persona
    in [0,1]. *)
Lemma UpdateTrait_in_range now : forall depth traitName influence evidence sys sys',
  in_range sys ->
  UpdateTrait depth now traitName influence evidence sys = Done sys' ->
  in_range sys'.
Proof.
  induction depth as [|depth IH]; intros traitName influence evidence sys sys' Hr;
    [discriminate|].
  cbn [UpdateTrait]. unfold in_range in Hr.
  destruct (activePersona_ sys) as [persona|]; [|discriminate].
  destruct (influence_traits now traitName influence evidence (Personality persona))
    as [personality|] eqn:Hinf.
  - rewrite propagate_runs_calls.
    apply (run_calls_in_range _ _ IH).
    unfold in_range; cbn [activePersona_ Personality].
    now apply (influence_traits_in_range _ _ _ _ _ _ Hr Hinf).
  - intros [= <-]. exact Hr.
Qed.

(** After any sequence of [UpdateTrait] calls that returns, every trait is
    in [0,1] if every trait was. *)
Lemma UpdateTraits_in_range depth now calls : forall sys sys',
  in_range sys -> UpdateTraits depth now calls sys = Done sys' -> in_range sys'.
Proof.
  unfold UpdateTraits.
  induction calls as [|call calls IH] using rev_ind; intros sys sys' Hr.
  - simpl. now intros [= <-].
  - rewrite fold_left_app. cbn [fold_left].
    destruct (fold_left _ calls (Done sys)) as [mid| |mid|] eqn:Hmid;
      cbn [and_then]; try discriminate.
    intros Hcall. eapply UpdateTrait_in_range; [|exact Hcall].
    now apply (IH sys mid).
Qed.

(** A run of calls that has failed stays as it is. *)
Lemma failed_run_stays U (calls : list (option string * R)) : forall o,
  (forall sys, o <> Done sys) ->
  fold_left
    (fun acc call =>
       and_then acc (fun sys' =>
         match fst call with
         | Some otherTrait => U otherTrait (snd call) "correlated_trait" sys'
         | None => OutOfRange sys'
         end))
    calls o = o.
Proof.
  induction calls as [|call calls IH]; intros o Hfailed; cbn [fold_left];
    [reflexivity|].
  destruct o as [sys| |sys|]; cbn [and_then];
    [now contradiction (Hfailed sys)| | |]; now apply IH.
Qed.

Lemma run_calls_app U calls1 calls2 sys :
  run_calls U (calls1 ++ calls2) sys
  = and_then (run_calls U calls1 sys) (run_calls U calls2).
Proof.
  unfold run_calls. rewrite fold_left_app.
  destruct (fold_left _ calls1 (Done sys)) as [mid| |mid|]; cbn [and_then];
    [reflexivity| | |]; now apply failed_run_stays.
Qed.

Lemma run_calls_keeps (P : PersonaSystem -> Prop) U calls :
  (forall name influence evidence sys sys',
     P sys -> U name influence evidence sys = Done sys' -> P sys') ->
  forall sys sys', P sys -> run_calls U calls sys = Done sys' -> P sys'.
Proof.
  intros HU. unfold run_calls.
  induction calls as [|call calls IH] using rev_ind; intros sys sys' HP.
  - simpl. now intros [= <-].
  - rewrite fold_left_app. cbn [fold_left].
    destruct (fold_left _ calls (Done sys)) as [mid| |mid|] eqn:Hmid;
      cbn [and_then]; try discriminate.
    destruct (fst call) as [other|]; [|discriminate].
    intros Hcall. eapply HU; [|exact Hcall].
    now apply (IH sys mid).
Qed.

Lemma influence_traits_keeps now traitName influence evidence p p' name :
  influence_traits now traitName influence evidence p = Some p' ->
  lookup_trait name p <> None ->
  lookup_trait name p' <> None
  /\ TraitCorrelations p' = TraitCorrelations p.
Proof.
  intros Hinf Hhas. split.
  - destruct (string_dec name traitName) as [->|Hne].
    + destruct (lookup_trait traitName p) as [trait|] eqn:Hlook;
        [|contradiction].
      destruct (lookup_after_influence now traitName influence evidence p
                  trait Hlook) as (p'' & Hinf' & Hlook' & _).
      rewrite Hinf in Hinf'. injection Hinf' as <-.
      rewrite Hlook'. discriminate.
    + now rewrite (influence_traits_other _ _ _ _ _ _ _ Hinf Hne).
  - unfold influence_traits in Hinf.
    destruct (map_find traitName (CoreTraits p)); [now injection Hinf as <-|].
    destruct (map_find traitName (DerivedTraits p)); [|discriminate].
    now injection Hinf as <-.
Qed.

(** No call of [UpdateTrait] that returns removes a trait or a correlation
    key. *)
Lemma UpdateTrait_keeps_pair now trait key :
  forall depth name influence evidence sys sys',
    bound_pair trait key sys ->
    UpdateTrait depth now name influence evidence sys = Done sys' ->
    bound_pair trait key sys'.
Proof.
  induction depth as [|depth IH]; intros name influence evidence sys sys' Hpair;
    [discriminate|].
  cbn [UpdateTrait]. destruct Hpair as (persona & Hactive & Hhas & Hkey).
  rewrite Hactive.
  destruct (influence_traits now name influence evidence (Personality persona))
    as [personality|] eqn:Hinf.
  - rewrite propagate_runs_calls.
    apply (run_calls_keeps (bound_pair trait key) _ _ IH).
    destruct (influence_traits_keeps _ _ _ _ _ _ trait Hinf Hhas)
      as (Hhas' & Hsame).
    exists (mkPersona (ID persona) personality).
    cbn [activePersona_ Personality]. rewrite Hsame. now repeat split.
  - intros [= <-]. exists persona. now repeat split.
Qed.

(** A run of secondary calls does not return if one of them is a call that
    never returns. *)
Lemma run_calls_stuck (P : PersonaSystem -> Prop) U trait calls weight :
  (forall name influence evidence sys sys',
     P sys -> U name influence evidence sys = Done sys' -> P sys') ->
  (forall influence evidence sys sys',
     P sys -> U trait influence evidence sys <> Done sys') ->
  In (Some trait, weight) calls ->
  forall sys sys', P sys -> run_calls U calls sys <> Done sys'.
Proof.
  intros Hkeeps Hstuck Hin sys sys' HP.
  apply in_split in Hin. destruct Hin as (calls1 & calls2 & ->).
  rewrite run_calls_app.
  destruct (run_calls U calls1 sys) as [mid| |mid|] eqn:Hfirst;
    cbn [and_then]; try discriminate.
  assert (Hmid : P mid) by (eapply run_calls_keeps; eauto).
  unfold run_calls. cbn [fold_left and_then fst snd].
  rewrite failed_run_stays by (intros sys0; now apply Hstuck).
  now apply Hstuck.
Qed.

Lemma key_is_called (trait1 trait2 name : string) (influence : R)
      (table : list (string * R)) :
  In (String.append trait1 (String.append "_" trait2)) (map fst table) ->
  contains (String.append trait1 (String.append "_" trait2)) name = true ->
  String.length name = String.length trait1 ->
  exists weight,
    In (Some trait2, weight) (secondary_calls name influence table).
Proof.
  intros Hkey Hcontains Hlength.
  apply in_map_iff in Hkey. destruct Hkey as (entry & Hfst & Hentry).
  exists (influence * snd entry). unfold secondary_calls.
  apply in_map_iff. exists entry. split.
  - rewrite Hfst, Hlength. now rewrite substr_after_separator.
  - apply filter_In. split; [exact Hentry|]. now rewrite Hfst.
Qed.

(** Once the second trait of a key with names of equal length is called,
    the call goes to the same trait again. *)
Lemma second_trait_never_returns now trait1 trait2 :
  String.length trait1 = String.length trait2 ->
  forall depth influence evidence sys sys',
    bound_pair trait2 (String.append trait1 (String.append "_" trait2)) sys ->
    UpdateTrait depth now trait2 influence evidence sys <> Done sys'.
Proof.
  intros Hlength.
  induction depth as [|depth IH]; intros influence evidence sys sys' Hpair;
    [discriminate|].
  cbn [UpdateTrait]. destruct Hpair as (persona & Hactive & Hhas & Hkey).
  rewrite Hactive.
  destruct (lookup_trait trait2 (Personality persona)) as [t2|] eqn:Hlook;
    [|contradiction].
  destruct (lookup_after_influence now trait2 influence evidence _ _ Hlook)
    as (personality' & Hinf & Hlook' & Hsame).
  rewrite Hinf, propagate_runs_calls. unfold correlations.
  cbn [activePersona_ Personality]. rewrite Hsame.
  destruct (key_is_called trait1 trait2 trait2 influence _ Hkey
              (contains_second trait1 trait2) (eq_sym Hlength))
    as (weight & Hcall).
  apply (run_calls_stuck
           (bound_pair trait2 (String.append trait1 (String.append "_" trait2)))
           _ trait2 _ weight
           (UpdateTrait_keeps_pair now _ _ depth)
           (fun influence evidence sys sys' => IH influence evidence sys sys')
           Hcall).
  exists (mkPersona (ID persona) personality').
  cbn [activePersona_ Personality]. rewrite Hlook', Hsame.
  split; [reflexivity|split; [discriminate|exact Hkey]].
Qed.

(** C4.  The propagation is not single-hop and nothing bounds it.  With "a"
    correlated to "bb" and "bb" to "c", an influence on "a" returns with "c",
    two hops away, influenced by the amount times both correlations.  And
    when a persona has two traits with names of equal length and the
    correlation key built for them, an influence on either of them never
    returns: the call on the second trait finds its own name in the key,
    takes the rest of the key after as many characters plus one, which is
    the second trait again, and calls itself. *)
Theorem propagation_recurses_without_bound (now : time_point) :
  (forall depth amount evidence ta tb tc k1 k2 log,
     exists sys' persona',
       UpdateTrait (4 + depth) now "a" amount evidence
                   (chained ta tb tc k1 k2 log) = Done sys'
       /\ activePersona_ sys' = Some persona'
       /\ lookup_trait "c" (Personality persona')
          = Some (influenced now (amount * k1 * k2) "correlated_trait" tc))
  /\ (forall trait1 trait2 correlation persona log t1 t2,
        lookup_trait trait1 (Personality persona) = Some t1 ->
        lookup_trait trait2 (Personality persona) = Some t2 ->
        String.length trait1 = String.length trait2 ->
        In (String.append trait1 (String.append "_" trait2), correlation)
           (TraitCorrelations (Personality persona)) ->
        forall depth influence evidence sys',
          UpdateTrait depth now trait1 influence evidence
                      (mkPersonaSystem (Some persona) log) <> Done sys'
          /\ UpdateTrait depth now trait2 influence evidence
                         (mkPersonaSystem (Some persona) log) <> Done sys').
Proof.
  split.
  - intros. eexists. eexists. split; [apply chain_run|].
    unfold chained. split; [reflexivity|]. reflexivity.
  - intros trait1 trait2 correlation persona log t1 t2 Hone Htwo Hlength Hin
           depth influence evidence sys'.
    assert (Hkey : In (String.append trait1 (String.append "_" trait2))
                      (map fst (TraitCorrelations (Personality persona))))
      by (apply in_map_iff; now exists
            (String.append trait1 (String.append "_" trait2), correlation)).
    split.
    + destruct depth as [|depth]; [discriminate|].
      cbn [UpdateTrait activePersona_ db_].
      destruct (lookup_after_influence now trait1 influence evidence _ _ Hone)
        as (personality' & Hinf & _ & Hsame).
      rewrite Hinf, propagate_runs_calls. unfold correlations.
      cbn [activePersona_ Personality]. rewrite Hsame.
      destruct (key_is_called trait1 trait2 trait1 influence _ Hkey
                  (contains_prefix trait1 (String.append "_" trait2)) eq_refl)
        as (weight & Hcall).
      apply (run_calls_stuck
               (bound_pair trait2
                  (String.append trait1 (String.append "_" trait2)))
               _ trait2 _ weight
               (UpdateTrait_keeps_pair now _ _ depth)
               (fun influence evidence sys sys' =>
                  second_trait_never_returns now trait1 trait2 Hlength depth
                    influence evidence sys sys')
               Hcall).
      destruct (influence_traits_keeps _ _ _ _ _ _ trait2 Hinf
                  ltac:(rewrite Htwo; discriminate)) as (Hhas & _).
      exists (mkPersona (ID persona) personality').
      cbn [activePersona_ Personality]. rewrite Hsame.
      split; [reflexivity|split; [exact Hhas|exact Hkey]].
    + apply (second_trait_never_returns now trait1 trait2 Hlength).
      exists persona. cbn [activePersona_]. rewrite Htwo.
      split; [reflexivity|split; [discriminate|exact Hkey]].
Qed.

Lemma propagation_recurses_without_bound_witness :
  lookup_trait "a" (mkTraits [("a", plain); ("b", plain)] [] [("a_b", 0.5)])
  = Some plain
  /\ lookup_trait "b" (mkTraits [("a", plain); ("b", plain)] [] [("a_b", 0.5)])
     = Some plain
  /\ String.length "a" = String.length "b"
  /\ In ("a_b", 0.5) [("a_b", 0.5)]
  /\ forall depth sys',
       UpdateTrait depth 0%Z "a" 0.4 "praise" (paired plain plain 0.5 [])
       <> Done sys'.
Proof.
  split; [reflexivity|split; [reflexivity|split; [reflexivity|]]].
  split; [now left|].
  intros depth sys'.
  exact (proj1 (proj2 (propagation_recurses_without_bound 0%Z)
                  "a" "b" 0.5
                  (mkPersona "pair"
                     (mkTraits [("a", plain); ("b", plain)] [] [("a_b", 0.5)]))
                  [] plain plain eq_refl eq_refl eq_refl
                  (or_introl eq_refl) depth 0.4 "praise" sys')).
Defined.

End Propagation.

(** * Further properties of the code *)

(** ** Storing and reading memories *)

Section StoreAndLoad.
Import MemoryManager Samples MoreSamples.

(** X1.  A [SaveMemory] that returns [true] has put the memory under its id
    in both the memory map and the session index, and every other id reads
    as before in both. *)
Theorem SaveMemory_stores_under_id (memory : MemoryEvent)
        (mm mm' : MemoryManager) :
  SaveMemory memory mm = (true, mm') ->
  map_find (id memory) (memories_ mm') = Some memory
  /\ map_find (id memory) (memory_index (context_ mm')) = Some memory
  /\ forall other, other <> id memory ->
       map_find other (memories_ mm') = map_find other (memories_ mm)
       /\ map_find other (memory_index (context_ mm'))
          = map_find other (memory_index (context_ mm)).
Proof.
  rewrite SaveMemory_cases.
  destruct (is_initialized_ mm && _); intros H; inversion H; subst; clear H.
  destruct (store_memory_parts memory
              (set_db (mkDatabase (db_opens (db_ mm)) (db_accepts (db_ mm))
                         (db_executed (db_ mm)
                          ++ [(insert_query, insert_params memory)])) mm))
    as (-> & -> & _).
  cbn [memories_ set_db context_].
  rewrite !map_find_assign_same. repeat split; try reflexivity;
    now apply map_find_assign_other.
Qed.

Lemma SaveMemory_stores_under_id_witness :
  SaveMemory vivid (manager accepting [])
  = (true, snd (SaveMemory vivid (manager accepting [])))
  /\ map_find "m1" (memories_ (snd (SaveMemory vivid (manager accepting []))))
     = Some vivid.
Proof.
  assert (H : SaveMemory vivid (manager accepting [])
              = (true, snd (SaveMemory vivid (manager accepting []))))
    by reflexivity.
  split; [exact H|].
  exact (proj1 (SaveMemory_stores_under_id vivid (manager accepting []) _ H)).
Defined.

(** X2.  After a [SaveMemory] that returned [true], [LoadMemory] on the
    memory's id returns [true] with exactly that memory, whatever the
    collaborator would answer, and leaves the manager as it is. *)
Theorem LoadMemory_after_SaveMemory (memory out : MemoryEvent)
        (row : string -> option MemoryEvent) (mm mm' : MemoryManager) :
  SaveMemory memory mm = (true, mm') ->
  LoadMemory row (id memory) out mm' = (true, memory, mm').
Proof.
  intros Hsave. unfold LoadMemory.
  assert (Hinit : is_initialized_ mm' = true).
  { rewrite SaveMemory_cases in Hsave.
    destruct (is_initialized_ mm) eqn:Hi; simpl in Hsave;
      [|discriminate].
    destruct (db_accepts (db_ mm) _ _); inversion Hsave; subst.
    unfold store_memory, UpdateMemoryCluster, UpdateMemoryIndex.
    destruct (join_cluster _ _); exact Hi. }
  rewrite Hinit. cbn [negb].
  rewrite SaveMemory_cases in Hsave.
  destruct (is_initialized_ mm && _); inversion Hsave; subst.
  now rewrite store_memory_find.
Qed.

Lemma LoadMemory_after_SaveMemory_witness :
  SaveMemory vivid (manager accepting [])
  = (true, snd (SaveMemory vivid (manager accepting [])))
  /\ LoadMemory (fun _ => None) "m1" memory_A
       (snd (SaveMemory vivid (manager accepting [])))
     = (true, vivid, snd (SaveMemory vivid (manager accepting []))).
Proof.
  assert (H : SaveMemory vivid (manager accepting [])
              = (true, snd (SaveMemory vivid (manager accepting []))))
    by reflexivity.
  split; [exact H|].
  exact (LoadMemory_after_SaveMemory vivid memory_A (fun _ => None)
           (manager accepting []) _ H).
Defined.

(** X3.  On an initialized manager that does not hold the id, [LoadMemory]
    takes the collaborator's row, returns it and keeps it: the next
    [LoadMemory] of that id returns the same memory without the
    collaborator, and leaves the manager unchanged.  When the collaborator
    has no row either, the call returns [false] and neither the manager nor
    the caller's memory changes. *)
Theorem LoadMemory_caches_the_row (id' : string) (out : MemoryEvent)
        (row : string -> option MemoryEvent) (mm : MemoryManager) :
  is_initialized_ mm = true ->
  map_find id' (memories_ mm) = None ->
  (forall loaded, row id' = Some loaded ->
     exists mm',
       LoadMemory row id' out mm = (true, loaded, mm')
       /\ forall row' out', LoadMemory row' id' out' mm' = (true, loaded, mm'))
  /\ (row id' = None -> LoadMemory row id' out mm = (false, out, mm)).
Proof.
  intros Hinit Hmiss. unfold LoadMemory. rewrite Hinit, Hmiss. cbn [negb].
  split.
  - intros loaded ->. eexists. split; [reflexivity|].
    intros row' out'. cbn [is_initialized_ set_memories memories_].
    rewrite Hinit. cbn [negb]. now rewrite map_find_assign_same.
  - now intros ->.
Qed.

Lemma LoadMemory_caches_the_row_witness :
  is_initialized_ (manager accepting []) = true
  /\ map_find "m1" (memories_ (manager accepting [])) = None
  /\ LoadMemory (fun _ => None) "m1" vivid (manager accepting [])
     = (false, vivid, manager accepting []).
Proof.
  split; [reflexivity|split; [reflexivity|]].
  exact (proj2 (LoadMemory_caches_the_row "m1" vivid (fun _ => None)
                  (manager accepting []) eq_refl eq_refl) eq_refl).
Defined.

End StoreAndLoad.

(** ** Clusters *)

Section Clusters.
Import MemoryManager Samples MoreSamples Shape.

Lemma join_cluster_banded memory : forall cs cs',
  Forall banded cs -> join_cluster memory cs = Some cs' -> Forall banded cs'.
Proof.
  induction cs as [|cluster rest IH]; intros cs' Hb; simpl; [discriminate|].
  inversion Hb as [|? ? Hc Hrest]; subst.
  destruct cluster as [|first members].
  - destruct (join_cluster memory rest) as [rest'|]; [|discriminate].
    intros [= <-]. constructor; [exact Hc|now apply IH].
  - destruct (Rltb _ 0.1) eqn:Hnear.
    + intros [= <-]. constructor; [|exact Hrest].
      apply Rltb_true in Hnear. simpl in *.
      apply Forall_app. split; [exact Hc|]. now constructor.
    + destruct (join_cluster memory rest) as [rest'|]; [|discriminate].
      intros [= <-]. constructor; [exact Hc|now apply IH].
Qed.

Lemma banded_spread cluster a b :
  banded cluster -> In a cluster -> In b cluster ->
  Rabs (emotional_weight a - emotional_weight b) < 0.2.
Proof.
  destruct cluster as [|first rest]; [intros _ []|].
  intros Hb Ha Hb'. simpl in Hb. rewrite Forall_forall in Hb.
  assert (Hnear : forall m, In m (first :: rest) ->
            Rabs (emotional_weight first - emotional_weight m) < 0.1).
  { intros m [<- | Hm]; [|now apply Hb].
    replace (emotional_weight first - emotional_weight first) with 0 by lra.
    rewrite Rabs_R0. lra. }
  apply Hnear in Ha, Hb'. apply Rabs_def2 in Ha, Hb'.
  apply Rabs_def1; lra.
Qed.

(** X4.  [UpdateMemoryCluster] keeps the banding: if every member of every
    cluster is within 0.1 of its cluster's first member before the call, the
    same holds afterwards, and then any two members of one cluster are less
    than 0.2 apart. *)
Theorem UpdateMemoryCluster_keeps_bands (sessionID : string)
        (memory : MemoryEvent) (mm : MemoryManager) :
  Forall banded (clusters (context_ mm)) ->
  Forall banded (clusters (context_ (UpdateMemoryCluster sessionID memory mm)))
  /\ forall cluster a b,
       In cluster (clusters (context_ (UpdateMemoryCluster sessionID memory mm))) ->
       In a cluster -> In b cluster ->
       Rabs (emotional_weight a - emotional_weight b) < 0.2.
Proof.
  intros Hb.
  assert (Hafter : Forall banded
            (clusters (context_ (UpdateMemoryCluster sessionID memory mm)))).
  { unfold UpdateMemoryCluster.
    destruct (join_cluster memory (clusters (context_ mm))) as [cs|] eqn:Hj;
      cbn [context_ set_context clusters set_clusters].
    - now apply (join_cluster_banded memory _ _ Hb).
    - apply Forall_app. split; [exact Hb|].
      constructor; [|constructor]. simpl. constructor. }
  split; [exact Hafter|].
  intros cluster a b Hin. rewrite Forall_forall in Hafter.
  now apply banded_spread, Hafter.
Qed.

Lemma UpdateMemoryCluster_keeps_bands_witness :
  Forall banded (clusters (context_ (manager accepting [])))
  /\ Forall banded
       (clusters (context_ (UpdateMemoryCluster "default" vivid
                              (manager accepting [])))).
Proof.
  assert (H : Forall banded (clusters (context_ (manager accepting []))))
    by constructor.
  split; [exact H|].
  exact (proj1 (UpdateMemoryCluster_keeps_bands "default" vivid
                  (manager accepting []) H)).
Defined.

Lemma join_cluster_inserts memory : forall cs cs',
  join_cluster memory cs = Some cs' ->
  List.length cs' = List.length cs
  /\ (exists first rest,
        In (first :: rest) cs
        /\ Rabs (emotional_weight first - emotional_weight memory) < 0.1)
  /\ exists front back,
       List.concat cs = front ++ back /\ List.concat cs' = front ++ memory :: back.
Proof.
  induction cs as [|cluster rest IH]; intros cs'; simpl; [discriminate|].
  assert (Hrec : forall rest',
            join_cluster memory rest = Some rest' ->
            List.length (cluster :: rest') = List.length (cluster :: rest)
            /\ (exists first members,
                  (cluster = first :: members \/ In (first :: members) rest)
                  /\ Rabs (emotional_weight first - emotional_weight memory) < 0.1)
            /\ exists front back,
                 cluster ++ List.concat rest = front ++ back
                 /\ List.concat (cluster :: rest') = front ++ memory :: back).
  { intros rest' Hj. destruct (IH rest' Hj) as (Hlen & (f & r & Hin & Hn) & (fr & bk & Hc & Hc')).
    split; [simpl; now rewrite Hlen|split].
    - exists f, r. split; [now right|exact Hn].
    - exists (cluster ++ fr), bk. simpl. rewrite Hc, Hc', !app_assoc. now split. }
  destruct cluster as [|first members].
  - destruct (join_cluster memory rest) as [rest'|]; [|discriminate].
    intros [= <-]. apply Hrec. reflexivity.
  - destruct (Rltb _ 0.1) eqn:Hnear.
    + intros [= <-]. apply Rltb_true in Hnear. split; [reflexivity|split].
      * exists first, members. split; [now left|exact Hnear].
      * exists (first :: members), (List.concat rest). simpl.
        rewrite <- app_assoc. now split.
    + destruct (join_cluster memory rest) as [rest'|]; [|discriminate].
      intros [= <-]. apply Hrec. reflexivity.
Qed.

Lemma join_cluster_none memory : forall cs,
  join_cluster memory cs = None ->
  forall first rest,
    In (first :: rest) cs ->
    ~ Rabs (emotional_weight first - emotional_weight memory) < 0.1.
Proof.
  induction cs as [|cluster cs IH]; intros Hj first rest Hin; [easy|].
  simpl in Hj. destruct cluster as [|f members].
  - destruct Hin as [Heq | Hin]; [discriminate|].
    destruct (join_cluster memory cs); [discriminate|]. now apply (IH eq_refl first rest).
  - destruct (Rltb _ 0.1) eqn:Hnear; [discriminate|].
    apply Rltb_false in Hnear.
    destruct (join_cluster memory cs); [discriminate|].
    destruct Hin as [[= <- <-] | Hin]; [lra|].
    now apply (IH eq_refl first rest).
Qed.

(** X5.  [UpdateMemoryCluster] adds the memory once and moves nothing: the
    members of all clusters, read in order, are the old ones with the memory
    put in at one place.  The memory joins an existing cluster (the number
    of clusters stays) exactly when some non-empty cluster's first member is
    within 0.1 of it; otherwise it opens a new last cluster of its own. *)
Theorem UpdateMemoryCluster_adds_once (sessionID : string)
        (memory : MemoryEvent) (mm : MemoryManager) :
  let before := clusters (context_ mm) in
  let after := clusters (context_ (UpdateMemoryCluster sessionID memory mm)) in
  (exists front back,
     List.concat before = front ++ back /\ List.concat after = front ++ memory :: back)
  /\ ((exists first rest,
         In (first :: rest) before
         /\ Rabs (emotional_weight first - emotional_weight memory) < 0.1)
      -> List.length after = List.length before)
  /\ ((forall first rest,
         In (first :: rest) before ->
         ~ Rabs (emotional_weight first - emotional_weight memory) < 0.1)
      -> after = before ++ [[memory]]).
Proof.
  cbv zeta. unfold UpdateMemoryCluster.
  destruct (join_cluster memory (clusters (context_ mm))) as [cs|] eqn:Hj;
    cbn [context_ set_context clusters set_clusters].
  - destruct (join_cluster_inserts memory _ _ Hj) as (Hlen & Hnear & Hcat).
    split; [exact Hcat|split; [now intros _|]].
    intros Hfar. destruct Hnear as (first & rest & Hin & Hn).
    exfalso. exact (Hfar first rest Hin Hn).
  - split; [|split].
    + exists (List.concat (clusters (context_ mm))), [].
      rewrite concat_app. simpl. rewrite !app_nil_r. now split.
    + intros (first & rest & Hin & Hn).
      exfalso. exact (join_cluster_none memory _ Hj first rest Hin Hn).
    + reflexivity.
Qed.

Lemma UpdateMemoryCluster_adds_once_witness :
  (forall first rest,
     In (first :: rest) (clusters (context_ (manager accepting []))) ->
     ~ Rabs (emotional_weight first - emotional_weight vivid) < 0.1)
  /\ clusters (context_ (UpdateMemoryCluster "default" vivid
                           (manager accepting [])))
     = [[vivid]].
Proof.
  assert (H : forall first rest,
             In (first :: rest) (clusters (context_ (manager accepting []))) ->
             ~ Rabs (emotional_weight first - emotional_weight vivid) < 0.1)
    by (intros first rest []).
  split; [exact H|].
  exact (proj2 (proj2 (UpdateMemoryCluster_adds_once "default" vivid
                         (manager accepting []))) H).
Defined.

End Clusters.

(** ** Trait metrics *)

Section Metrics.
Import MemoryManager Samples MoreSamples.

Lemma nth_last_of {A} (d : A) (l : list A) :
  l <> [] -> nth (List.length l - 1) l d = last l d.
Proof.
  induction l as [|x l IH]; [easy|intros _].
  destruct l as [|y l]; [reflexivity|].
  change (last (x :: y :: l) d) with (last (y :: l) d).
  rewrite <- IH by easy. simpl. now rewrite Nat.sub_0_r.
Qed.

Lemma push_history_window newValue (history : list R) :
  (List.length history <= 100)%nat ->
  push_history newValue history
  = (if (List.length history <? 100)%nat then history else tl history)
    ++ [newValue]
  /\ (List.length (push_history newValue history) <= 100)%nat
  /\ last (push_history newValue history) 0 = newValue.
Proof.
  intros Hle. unfold push_history. rewrite length_app. cbn [List.length].
  destruct (List.length history <? 100)%nat eqn:Hlt.
  - apply Nat.ltb_lt in Hlt.
    replace (100 <? List.length history + 1)%nat with false
      by (symmetry; apply Nat.ltb_ge; lia).
    rewrite length_app, last_last. cbn [List.length]. repeat split; lia.
  - apply Nat.ltb_ge in Hlt.
    replace (100 <? List.length history + 1)%nat with true
      by (symmetry; apply Nat.ltb_lt; lia).
    destruct history as [|oldest rest]; [simpl in Hlt; lia|].
    cbn [app tl]. rewrite length_app, last_last. cbn [List.length] in *.
    repeat split; lia.
Qed.

Lemma push_history_previous newValue (history : list R) :
  (List.length history <= 100)%nat -> history <> [] ->
  (2 <= List.length (push_history newValue history))%nat
  /\ nth (List.length (push_history newValue history) - 2)
         (push_history newValue history) 0
     = last history 0.
Proof.
  intros Hle Hne.
  destruct (push_history_window newValue history Hle) as (Heq & _ & _).
  rewrite Heq. rewrite length_app. cbn [List.length].
  destruct history as [|oldest rest]; [easy|].
  destruct (List.length (oldest :: rest) <? 100)%nat eqn:Hlt.
  - split; [cbn [List.length]; lia|].
    replace (List.length (oldest :: rest) + 1 - 2)%nat
      with (List.length (oldest :: rest) - 1)%nat by lia.
    rewrite app_nth1 by (cbn [List.length]; lia).
    now apply nth_last_of.
  - apply Nat.ltb_ge in Hlt. cbn [tl List.length] in *.
    split; [lia|].
    assert (Hrest : rest <> []) by (intros ->; simpl in Hlt; lia).
    replace (List.length rest + 1 - 2)%nat with (List.length rest - 1)%nat by lia.
    rewrite app_nth1 by lia.
    rewrite nth_last_of by exact Hrest.
    destruct rest; [easy|reflexivity].
Qed.

(** X6.  [UpdateEvolutionMetrics] keeps a sliding window of at most 100
    values: on a history of at most 100 values it appends the new value,
    dropping the oldest one first when there are already 100, so the new
    value is the last and the length stays at most 100; the short-term
    change is the new value minus the last value recorded before, and the
    update time is the current time. *)
Theorem UpdateEvolutionMetrics_slides_window
        (traitName : string) (newValue : R) (now : time_point)
        (mm : MemoryManager) :
  let metrics :=
    fst (subscript default_metrics traitName (traitEvolutionMetrics_ mm)) in
  (List.length (HistoricalValues metrics) <= 100)%nat ->
  exists metrics',
    map_find traitName
      (traitEvolutionMetrics_ (UpdateEvolutionMetrics traitName newValue now mm))
    = Some metrics'
    /\ HistoricalValues metrics'
       = (if (List.length (HistoricalValues metrics) <? 100)%nat
          then HistoricalValues metrics else tl (HistoricalValues metrics))
         ++ [newValue]
    /\ (List.length (HistoricalValues metrics') <= 100)%nat
    /\ last (HistoricalValues metrics') 0 = newValue
    /\ (HistoricalValues metrics <> [] ->
        ShortTermChange metrics'
        = newValue - last (HistoricalValues metrics) 0)
    /\ LastUpdate metrics' = now.
Proof.
  cbv zeta. intros Hle. unfold UpdateEvolutionMetrics.
  destruct (subscript default_metrics traitName (traitEvolutionMetrics_ mm))
    as [metrics metricss].
  cbn [fst] in *.
  destruct (CalculateTraitConfidence traitName _) as [confidence mm1].
  eexists. split; [cbn [traitEvolutionMetrics_ set_metrics];
                   apply map_find_assign_same|].
  cbn [HistoricalValues ShortTermChange LastUpdate].
  destruct (push_history_window newValue (HistoricalValues metrics) Hle)
    as (Heq & Hlen & Hlast).
  repeat split; try assumption.
  intros Hne.
  destruct (push_history_previous newValue (HistoricalValues metrics) Hle Hne)
    as (Htwo & Hprev).
  apply Nat.leb_le in Htwo. now rewrite Htwo, Hprev.
Qed.

Lemma UpdateEvolutionMetrics_slides_window_witness :
  (List.length
     (HistoricalValues
        (fst (subscript default_metrics "mood" (traitEvolutionMetrics_ tracked))))
   <= 100)%nat
  /\ exists metrics',
       map_find "mood"
         (traitEvolutionMetrics_ (UpdateEvolutionMetrics "mood" 0.7 0%Z tracked))
       = Some metrics'
       /\ last (HistoricalValues metrics') 0 = 0.7.
Proof.
  assert (H : (List.length
                 (HistoricalValues
                    (fst (subscript default_metrics "mood"
                            (traitEvolutionMetrics_ tracked)))) <= 100)%nat)
    by (simpl; lia).
  split; [exact H|].
  destruct (UpdateEvolutionMetrics_slides_window "mood" 0.7 0%Z tracked H)
    as (metrics' & Hfind & _ & _ & Hlast & _).
  exists metrics'. split; [exact Hfind|exact Hlast].
Defined.

(** X7.  With at least two recorded values, [UpdateTraitStability] sets the
    volatility to the population standard deviation of the history, which is
    not negative, and the stability to [exp(-volatility) * confidence]; so a
    non-negative confidence bounds the stability from above and 0 bounds it
    from below.  The current value is not touched. *)
Theorem UpdateTraitStability_bounds (traitName : string) (mm : MemoryManager) :
  let baseline :=
    fst (subscript default_baseline traitName (trait_baselines_ mm)) in
  let metrics :=
    fst (subscript default_metrics traitName (traitEvolutionMetrics_ mm)) in
  (2 <= List.length (HistoricalValues metrics))%nat ->
  exists baseline' metrics',
    map_find traitName (trait_baselines_ (UpdateTraitStability traitName mm))
    = Some baseline'
    /\ map_find traitName
         (traitEvolutionMetrics_ (UpdateTraitStability traitName mm))
       = Some metrics'
    /\ Volatility metrics' = std_deviation (HistoricalValues metrics)
    /\ 0 <= Volatility metrics'
    /\ Stability baseline' = exp (- Volatility metrics') * Confidence metrics
    /\ CurrentValue baseline' = CurrentValue baseline
    /\ (0 <= Confidence metrics ->
        0 <= Stability baseline' <= Confidence metrics).
Proof.
  cbv zeta. intros Htwo. unfold UpdateTraitStability.
  destruct (subscript default_baseline traitName (trait_baselines_ mm))
    as [baseline baselines].
  destruct (subscript default_metrics traitName (traitEvolutionMetrics_ mm))
    as [metrics metricss].
  cbn [fst] in *.
  pose proof Htwo as Hleb. apply Nat.leb_le in Hleb. rewrite Hleb.
  eexists. eexists.
  split; [cbn [trait_baselines_ set_metrics set_baselines];
          apply map_find_assign_same|].
  split; [cbn [traitEvolutionMetrics_ set_metrics]; apply map_find_assign_same|].
  cbn [Volatility Stability CurrentValue].
  assert (Hvol : 0 <= std_deviation (HistoricalValues metrics))
    by apply sqrt_pos.
  split; [reflexivity|split; [exact Hvol|split; [reflexivity|split;
    [reflexivity|]]]].
  intros Hc.
  pose proof (exp_nonpos_le_1 (- std_deviation (HistoricalValues metrics))
                ltac:(lra)).
  pose proof (exp_pos (- std_deviation (HistoricalValues metrics))).
  split; nra.
Qed.

Lemma UpdateTraitStability_bounds_witness :
  (2 <= List.length
          (HistoricalValues
             (fst (subscript default_metrics "mood"
                     (traitEvolutionMetrics_ tracked)))))%nat
  /\ exists baseline',
       map_find "mood" (trait_baselines_ (UpdateTraitStability "mood" tracked))
       = Some baseline'
       /\ 0 <= Stability baseline' <= 0.5.
Proof.
  assert (H : (2 <= List.length
                      (HistoricalValues
                         (fst (subscript default_metrics "mood"
                                 (traitEvolutionMetrics_ tracked)))))%nat)
    by (simpl; lia).
  split; [exact H|].
  destruct (UpdateTraitStability_bounds "mood" tracked H)
    as (baseline' & metrics' & Hb & _ & _ & _ & _ & _ & Hrange).
  exists baseline'. split; [exact Hb|].
  apply Hrange. unfold tracked, subscript.
  cbn [traitEvolutionMetrics_ map_find]. rewrite String.eqb_refl.
  cbn [fst Confidence]. lra.
Defined.

End Metrics.

(** ** Baselines from evidence *)

Section Evidence.
Import MemoryManager Samples MoreSamples.

Lemma trait_evidence_sum traitName (memories : list (string * MemoryEvent)) :
  forall total count,
    fold_left
      (fun acc memory =>
         match map_find traitName (trait_influences (snd memory)) with
         | Some influence => (fst acc + influence, S (snd acc))
         | None => acc
         end) memories (total, count)
    = (fold_left Rplus (influences_on traitName memories) total,
       (count + List.length (influences_on traitName memories))%nat).
Proof.
  induction memories as [|memory memories IH]; intros total count;
    cbn [fold_left influences_on flat_map].
  - cbn [List.length fold_left]. now rewrite Nat.add_0_r.
  - fold (influences_on traitName memories).
    destruct (map_find traitName (trait_influences (snd memory)))
      as [influence|].
    + cbn [fst snd]. rewrite IH. cbn [app fold_left List.length].
      now rewrite Nat.add_succ_r.
    + rewrite IH. reflexivity.
Qed.

Lemma influences_on_none traitName (memories : list (string * MemoryEvent)) :
  (forall memory, In memory memories ->
     map_find traitName (trait_influences (snd memory)) = None) ->
  influences_on traitName memories = [].
Proof.
  induction memories as [|memory memories IH]; intros Hnone;
    cbn [influences_on flat_map]; [reflexivity|].
  rewrite (Hnone memory (or_introl eq_refl)). cbn [app].
  apply IH. intros m Hm. apply Hnone. now right.
Qed.

(** X8.  On an initialized manager [UpdateTraitBaselines] keeps the trait
    names and their order.  A trait that no stored memory carries keeps its
    baseline; a trait that some memory carries gets as current value the
    mean of the influences on it that the stored memories carry, their sum
    taken in the order of the memory map over their number, and keeps
    every other field of its baseline. *)
Theorem UpdateTraitBaselines_takes_the_mean (mm : MemoryManager) :
  is_initialized_ mm = true ->
  map fst (trait_baselines_ (UpdateTraitBaselines mm))
  = map fst (trait_baselines_ mm)
  /\ forall traitName baseline,
       In (traitName, baseline) (trait_baselines_ mm) ->
       exists baseline',
         In (traitName, baseline') (trait_baselines_ (UpdateTraitBaselines mm))
         /\ ((forall memory, In memory (memories_ mm) ->
                map_find traitName (trait_influences (snd memory)) = None) ->
             baseline' = baseline)
         /\ (influences_on traitName (memories_ mm) <> [] ->
             CurrentValue baseline'
             = Rsum (influences_on traitName (memories_ mm))
               / INR (List.length (influences_on traitName (memories_ mm)))
             /\ baseline'
                = mkTraitBaseline (CurrentValue baseline')
                    (TargetValue baseline) (AdjustmentRate baseline)
                    (Stability baseline) (LastAdjustment baseline)
                    (SupportingMemories baseline)
                    (ConflictingMemories baseline)).
Proof.
  intros Hinit. unfold UpdateTraitBaselines. rewrite Hinit.
  cbn [negb trait_baselines_ set_baselines]. split.
  - rewrite map_map. apply map_ext. intros trait. unfold rebase.
    destruct (trait_evidence (fst trait) (memories_ mm)) as [total count].
    now destruct (0 <? count)%nat.
  - intros traitName baseline Hin.
    exists (snd (rebase (memories_ mm) (traitName, baseline))).
    split; [|split].
    + apply in_map_iff. exists (traitName, baseline). split; [|exact Hin].
      unfold rebase. cbn [fst snd].
      destruct (trait_evidence traitName (memories_ mm)) as [total count].
      now destruct (0 <? count)%nat.
    + intros Hnone. unfold rebase, trait_evidence. cbn [fst snd].
      rewrite trait_evidence_sum, (influences_on_none _ _ Hnone).
      reflexivity.
    + intros Hsome. unfold rebase, trait_evidence. cbn [fst snd].
      rewrite trait_evidence_sum. cbn [Nat.add].
      destruct (influences_on traitName (memories_ mm)) as [|first rest] eqn:Hon;
        [contradiction|].
      cbn [List.length Nat.ltb Nat.leb snd CurrentValue].
      split; reflexivity.
Qed.

Lemma UpdateTraitBaselines_takes_the_mean_witness :
  is_initialized_ evidenced = true
  /\ exists baseline',
       In ("trust", baseline') (trait_baselines_ (UpdateTraitBaselines evidenced))
       /\ CurrentValue baseline' = (0 + 0.5 + 0.4) / INR 2.
Proof.
  split; [reflexivity|].
  destruct (proj2 (UpdateTraitBaselines_takes_the_mean evidenced eq_refl)
              "trust" default_baseline (or_introl eq_refl))
    as (baseline' & Hin & _ & Hmean).
  exists baseline'. split; [exact Hin|].
  exact (proj1 (Hmean ltac:(discriminate))).
Defined.

End Evidence.

(** ** Emotional connections *)

Section Connections.
Import MemoryManager Samples MoreSamples Shape.










End Connections.

(** ** The keyword index *)

Section KeywordIndex.
Import MemoryManager Samples MoreSamples.

Lemma ids_under_add key key' id' index :
  ids_under key (index_add key' id' index)
  = if String.eqb key key' then ids_under key index ++ [id']
    else ids_under key index.
Proof.
  unfold ids_under, index_add.
  destruct (String.eqb key key') eqn:E.
  - apply String.eqb_eq in E. subst key'.
    rewrite map_find_assign_same. now destruct (map_find key index).
  - apply String.eqb_neq in E. now rewrite map_find_assign_other.
Qed.

Lemma ids_under_tags key id' tags : forall index,
  ids_under key (fold_left (fun index tag => index_add tag id' index) tags index)
  = ids_under key index
    ++ map (fun _ => id') (filter (String.eqb key) tags).
Proof.
  induction tags as [|tag tags IH]; intros index; cbn [fold_left filter map].
  - now rewrite app_nil_r.
  - rewrite IH, ids_under_add.
    destruct (String.eqb key tag); cbn [map]; [|reflexivity].
    now rewrite <- app_assoc.
Qed.

Lemma ids_under_words key id' ws : forall index,
  ids_under key
    (fold_left
       (fun index word =>
          if (3 <? String.length word)%nat then index_add word id' index
          else index) ws index)
  = ids_under key index
    ++ map (fun _ => id')
         (filter (fun word => (3 <? String.length word)%nat
                              && String.eqb key word) ws).
Proof.
  induction ws as [|word ws IH]; intros index; cbn [fold_left filter map].
  - now rewrite app_nil_r.
  - rewrite IH. destruct (3 <? String.length word)%nat; cbn [andb].
    + rewrite ids_under_add.
      destruct (String.eqb key word); cbn [map]; [|reflexivity].
      now rewrite <- app_assoc.
    + reflexivity.
Qed.

Lemma ids_under_memory key index memory :
  ids_under key (index_memory index memory)
  = ids_under key index ++ contribution key memory.
Proof.
  unfold index_memory, contribution.
  now rewrite ids_under_tags, ids_under_words, app_assoc.
Qed.

Lemma ids_under_rebuild key memories : forall index,
  ids_under key (fold_left index_memory memories index)
  = ids_under key index ++ flat_map (contribution key) memories.
Proof.
  induction memories as [|memory memories IH]; intros index;
    cbn [fold_left flat_map].
  - now rewrite app_nil_r.
  - now rewrite IH, ids_under_memory, app_assoc.
Qed.

(** X10.  On an initialized manager the rebuilt keyword index forgets the old
    index and lists an id under a key exactly when the memory stored under
    that id has the key among the white-space separated words of its content
    and the key is longer than 3 characters, or has the key among its tags;
    before initialization the index is left as it is. *)
Theorem RebuildMemoryIndex_lists_words_and_tags
        (mm : MemoryManager) (old : list (string * list string)) :
  (is_initialized_ mm = true ->
   forall key id',
     In id' (ids_under key (RebuildMemoryIndex mm old))
     <-> exists memory,
           In (id', memory) (memories_ mm)
           /\ ((In key (words (content memory))
                /\ (3 < String.length key)%nat)
               \/ In key (tags memory)))
  /\ (is_initialized_ mm = false -> RebuildMemoryIndex mm old = old).
Proof.
  unfold RebuildMemoryIndex. split; intros Hinit; rewrite Hinit; cbn [negb];
    [|reflexivity].
  intros key id'. rewrite ids_under_rebuild. cbn [ids_under map_find app].
  rewrite in_flat_map. split.
  - intros ([k memory] & Hin & Hc). unfold contribution in Hc.
    cbn [fst snd] in Hc. apply in_app_or in Hc.
    destruct Hc as [Hc | Hc]; apply in_map_iff in Hc;
      destruct Hc as (w & <- & Hw); apply filter_In in Hw;
      destruct Hw as (Hw & Hp); exists memory; (split; [exact Hin|]).
    + apply andb_prop in Hp. destruct Hp as (Hlen & Heq).
      apply String.eqb_eq in Heq. subst w. apply Nat.ltb_lt in Hlen.
      left. now split.
    + apply String.eqb_eq in Hp. subst w. now right.
  - intros (memory & Hin & Hkey). exists (id', memory). split; [exact Hin|].
    unfold contribution. cbn [fst snd]. apply in_or_app.
    destruct Hkey as [(Hw & Hlen) | Ht]; [left|right];
      apply in_map_iff; exists key; (split; [reflexivity|]);
      apply filter_In; (split; [assumption|]).
    + apply Nat.ltb_lt in Hlen. now rewrite Hlen, String.eqb_refl.
    + apply String.eqb_refl.
Qed.

Lemma RebuildMemoryIndex_lists_words_and_tags_witness :
  is_initialized_ (manager accepting [("m1", vivid)]) = true
  /\ In "m1" (ids_under "meeting"
                (RebuildMemoryIndex (manager accepting [("m1", vivid)]) [])).
Proof.
  split; [reflexivity|].
  apply (proj1 (RebuildMemoryIndex_lists_words_and_tags
                  (manager accepting [("m1", vivid)]) []) eq_refl).
  exists vivid. split; [now left|].
  left. split; [right; now left|simpl; lia].
Defined.

End KeywordIndex.

(** ** Strong connections *)

Section StrongConnections.
Import MemoryManager Samples MoreSamples.

Lemma recognize_fold now connections : forall patterns,
  fold_left (recognize now) connections patterns
  = patterns
    ++ map (fun connection =>
              mkEmotionalPattern "StrongConnection" (Strength connection)
                (Strength connection) now []
                [SourceMemory connection; TargetMemory connection])
           (filter (fun connection => Rltb 0.7 (Strength connection))
                   connections).
Proof.
  induction connections as [|connection connections IH]; intros patterns;
    cbn [fold_left filter map].
  - now rewrite app_nil_r.
  - rewrite IH. unfold recognize.
    destruct (Rltb 0.7 (Strength connection)); cbn [map]; [|reflexivity].
    now rewrite <- app_assoc.
Qed.

Lemma strong_is_connected (mem1 mem2 : string * MemoryEvent) :
  filter (fun connection => Rltb 0.7 (Strength connection))
         (pair_connection mem1 mem2)
  = if strongly_connected (mem1, mem2) then [make_connection mem1 mem2] else [].
Proof.
  unfold pair_connection, strongly_connected. cbn [fst snd].
  destruct (String.ltb (fst mem1) (fst mem2)); cbn [andb]; [|reflexivity].
  destruct (Rltb 0.7 (connection_strength (snd mem1) (snd mem2))) eqn:Hstrong.
  - apply Rltb_true in Hstrong.
    replace (Rltb 0.3 (connection_strength (snd mem1) (snd mem2))) with true
      by (symmetry; apply Rltb_true; lra).
    cbn [filter make_connection Strength].
    replace (Rltb 0.7 (connection_strength (snd mem1) (snd mem2))) with true
      by (symmetry; now apply Rltb_true).
    reflexivity.
  - destruct (Rltb 0.3 (connection_strength (snd mem1) (snd mem2)));
      cbn [filter make_connection Strength]; [|reflexivity].
    now rewrite Hstrong.
Qed.

Lemma strong_connections_listed now (inner outer : list (string * MemoryEvent)) :
  map (fun connection =>
         mkEmotionalPattern "StrongConnection" (Strength connection)
           (Strength connection) now []
           [SourceMemory connection; TargetMemory connection])
      (filter (fun connection => Rltb 0.7 (Strength connection))
         (flat_map (fun mem1 => flat_map (pair_connection mem1) inner) outer))
  = map (strong_pattern now)
        (filter strongly_connected (list_prod outer inner)).
Proof.
  induction outer as [|mem1 outer IH]; cbn [flat_map list_prod];
    [reflexivity|].
  rewrite !filter_app, !map_app, IH. f_equal. clear IH.
  induction inner as [|mem2 inner IH]; cbn [flat_map map]; [reflexivity|].
  rewrite filter_app, map_app, IH, strong_is_connected.
  cbn [filter].
  destruct (strongly_connected (mem1, mem2)); reflexivity.
Qed.

Lemma NoDup_list_prod {A B} (l : list A) (l' : list B) :
  NoDup l -> NoDup l' -> NoDup (list_prod l l').
Proof.
  intros Hl Hl'. induction Hl as [|x l Hx Hl IH]; cbn [list_prod];
    [constructor|].
  apply NoDup_app; [|exact IH|].
  - apply NoDup_map_NoDup_ForallPairs; [|exact Hl'].
    intros a b _ _ Heq. now injection Heq.
  - intros [a b] Hin Hin'. apply in_map_iff in Hin.
    destruct Hin as (y & Heq & _). injection Heq as <- <-.
    apply in_prod_iff in Hin'. now destruct Hin'.
Qed.

Lemma one_entry_per_key {V} (m : list (string * V)) (a b : string * V) :
  NoDup (map fst m) -> In a m -> In b m -> fst a = fst b -> a = b.
Proof.
  induction m as [|entry m IH]; intros Hkeys Ha Hb Heq; [contradiction|].
  cbn [map] in Hkeys. inversion Hkeys as [|? ? Hfresh Hrest]; subst.
  destruct Ha as [-> | Ha], Hb as [-> | Hb].
  - reflexivity.
  - exfalso. apply Hfresh. rewrite Heq. now apply in_map.
  - exfalso. apply Hfresh. rewrite <- Heq. now apply in_map.
  - now apply IH.
Qed.

(** X11.  [UpdateMemoryAssociations] followed by [ProcessPatternRecognition]
    keeps the core patterns there were and appends, for the pairs of stored
    memories taken in the order of the memory map, one "StrongConnection"
    pattern for each pair with the first key below the second and an
    association strength above 0.7, and nothing else: the pattern names the
    two keys as its triggers and carries the strength as its intensity.
    With each key stored once, no pattern is appended twice. *)
Theorem strong_connections_become_patterns
        (now : time_point) (mm : MemoryManager)
        (CorePatterns : list EmotionalPattern) :
  is_initialized_ mm = true -> valid (context_ mm) = true ->
  exists added,
    ProcessPatternRecognition now (snd (UpdateMemoryAssociations mm)) CorePatterns
    = Returned (CorePatterns ++ added)
    /\ added
       = map (strong_pattern now)
           (filter strongly_connected
              (list_prod (memories_ mm) (memories_ mm)))
    /\ (NoDup (map fst (memories_ mm)) -> NoDup added)
    /\ forall pattern,
         In pattern added <->
         exists mem1 mem2,
           In mem1 (memories_ mm) /\ In mem2 (memories_ mm)
           /\ String.ltb (fst mem1) (fst mem2) = true
           /\ 0.7 < connection_strength (snd mem1) (snd mem2)
           /\ pattern
              = mkEmotionalPattern "StrongConnection"
                  (connection_strength (snd mem1) (snd mem2))
                  (connection_strength (snd mem1) (snd mem2)) now []
                  [fst mem1; fst mem2].
Proof.
  intros Hinit Hvalid.
  rewrite UpdateMemoryAssociations_ready by assumption.
  unfold ProcessPatternRecognition.
  cbn [snd is_initialized_ set_context context_ valid set_connections
       MemoryConnections].
  rewrite Hinit, Hvalid. cbn [negb]. rewrite recognize_fold.
  rewrite all_connections_pairs, strong_connections_listed.
  eexists. split; [reflexivity|]. split; [reflexivity|]. split.
  - intros Hkeys.
    apply NoDup_map_NoDup_ForallPairs.
    + intros [a b] [c d] Hab Hcd Heq.
      apply filter_In in Hab. apply filter_In in Hcd.
      destruct Hab as (Hab & _), Hcd as (Hcd & _).
      apply in_prod_iff in Hab. apply in_prod_iff in Hcd.
      unfold strong_pattern in Heq. cbn [fst snd] in Heq.
      injection Heq as _ _ Hfirst Hsecond.
      f_equal; apply (one_entry_per_key (memories_ mm)); tauto.
    + apply NoDup_filter. apply NoDup_map_inv in Hkeys.
      now apply NoDup_list_prod.
  - intros pattern. rewrite in_map_iff. split.
    + intros ([mem1 mem2] & <- & Hin). apply filter_In in Hin.
      destruct Hin as (Hin & Hstrong). apply in_prod_iff in Hin.
      unfold strongly_connected in Hstrong. cbn [fst snd] in Hstrong.
      apply andb_true_iff in Hstrong. destruct Hstrong as (Hlt & Hstrong).
      apply Rltb_true in Hstrong.
      exists mem1, mem2. unfold strong_pattern. cbn [fst snd].
      now repeat split.
    + intros (mem1 & mem2 & H1 & H2 & Hlt & Hs & ->).
      exists (mem1, mem2). split; [reflexivity|].
      apply filter_In. split; [now apply in_prod_iff|].
      unfold strongly_connected. cbn [fst snd]. rewrite Hlt.
      apply Rltb_true in Hs. now rewrite Hs.
Qed.

Lemma strong_connections_become_patterns_witness :
  is_initialized_ (manager accepting [("U", memory_U); ("V", memory_V)]) = true
  /\ valid (context_ (manager accepting [("U", memory_U); ("V", memory_V)]))
     = true
  /\ exists added,
       ProcessPatternRecognition 0%Z
         (snd (UpdateMemoryAssociations
                 (manager accepting [("U", memory_U); ("V", memory_V)]))) []
       = Returned ([] ++ added)
       /\ In (mkEmotionalPattern "StrongConnection"
                (connection_strength memory_U memory_V)
                (connection_strength memory_U memory_V) 0%Z [] ["U"; "V"])
             added.
Proof.
  split; [reflexivity|split; [reflexivity|]].
  destruct (strong_connections_become_patterns 0%Z
              (manager accepting [("U", memory_U); ("V", memory_V)]) []
              eq_refl eq_refl) as (added & Heq & _ & _ & Hin).
  exists added. split; [exact Heq|].
  apply Hin. exists ("U", memory_U), ("V", memory_V).
  split; [now left|]. split; [right; now left|].
  split; [reflexivity|]. split; [|reflexivity].
  unfold connection_strength, traitStrength, tagStrength, memory_U, memory_V.
  cbn [fst snd trait_influences tags fold_left existsb].
  replace (String.eqb "x" "x") with true by reflexivity.
  replace (String.eqb "y" "x") with false by reflexivity.
  replace (String.eqb "y" "y") with true by reflexivity.
  cbn [orb]. lra.
Defined.

End StrongConnections.

(** ** Triggering a resonance *)

Section Trigger.
Import Resonance Samples.

(** X12.  The session's [ProcessEmotionalResonance] sweeps the resonances
    already active and keeps the new one exactly when its intensity is at
    least 0.1, with that intensity unchanged (no hour has passed since its
    start); a trigger below 0.1 is removed by the very call that created it.
    Its associated memories are the contents of the relevant memories whose
    emotional weight is above 0.5, and no pattern is added. *)
Theorem ProcessEmotionalResonance_stores_strong_triggers
        (relevantMemories : list MemoryEvent) (trigger : string)
        (intensity : R) (now : time_point) (ctx : MemoryContext) :
  let resonance :=
    mkEmotionalResonance intensity 1 trigger now (now + seconds_per_hour)%Z
      (map content
         (filter (fun memory => Rltb 0.5 (emotional_weight memory))
                 relevantMemories)) in
  ActiveResonances
    (ProcessEmotionalResonance relevantMemories trigger intensity now ctx)
  = filter (fun r => negb (expired r)) (map (decay now) (ActiveResonances ctx))
    ++ (if Rltb intensity 0.1 then [] else [resonance])
  /\ EmotionalPatterns
       (ProcessEmotionalResonance relevantMemories trigger intensity now ctx)
     = EmotionalPatterns ctx.
Proof.
  cbv zeta. unfold ProcessEmotionalResonance.
  rewrite UpdateEmotionalPatterns_resonances, UpdateEmotionalPatterns_patterns.
  cbn [ActiveResonances EmotionalPatterns].
  split; [|reflexivity].
  rewrite map_app, filter_app. f_equal.
  cbn [map filter]. unfold expired, decay, timeFactor.
  cbn [Intensity StartTime Duration Trigger PeakTime AssociatedMemories].
  replace (hours_between now now) with 0%Z
    by (unfold hours_between; now rewrite Z.sub_diag).
  rewrite exp_at_zero by lra. rewrite Rmult_1_r.
  now destruct (Rltb intensity 0.1).
Qed.

End Trigger.

(** ** Persona transitions *)

Section Transitions.
Import Switching MoreSamples.

(** X13.  [ApplyTransition] starts the cool-down of its target and of no
    other persona: afterwards [CanTransition] to the target is refused as
    long as fewer than five minutes have passed since the transition and
    allowed from then on, every other target is judged as before, and the
    weight of the transition has grown by 0.1. *)
Theorem ApplyTransition_starts_cooldown
        (now now' : time_point) (fromID toID : string) (tm : TransitionManager) :
  CanTransition now' toID (ApplyTransition now fromID toID tm)
  = negb (now' - now <? cooldown)%Z
  /\ (forall other, other <> toID ->
        CanTransition now' other (ApplyTransition now fromID toID tm)
        = CanTransition now' other tm)
  /\ probability fromID toID (ApplyTransition now fromID toID tm)
     = probability fromID toID tm + 0.1.
Proof.
  unfold CanTransition, ApplyTransition, probability.
  cbn [cooldowns_ transitions_]. split; [|split].
  - rewrite map_find_assign_same. now destruct (now' - now <? cooldown)%Z.
  - intros other Hne. now rewrite map_find_assign_other.
  - rewrite !map_find_assign_same.
    destruct (map_find fromID (transitions_ tm)) as [row|]; cbn [map_find];
      [destruct (map_find toID row)|]; reflexivity.
Qed.

Lemma write_find key f k (personas : list (string * Persona)) :
  map_find k (write key f personas)
  = match map_find k personas with
    | Some persona => Some (if String.eqb k key then f persona else persona)
    | None => None
    end.
Proof.
  unfold write. induction personas as [|[k' p] rest IH]; [reflexivity|].
  cbn [map map_find fst snd].
  destruct (String.eqb k' key) eqn:Ek; cbn [map_find fst snd];
    destruct (String.eqb k k') eqn:E; try exact IH.
  - apply String.eqb_eq in E. subst k'. now rewrite Ek.
  - apply String.eqb_eq in E. subst k'. now rewrite Ek.
Qed.

Lemma write_flags key f (P : string * Persona -> Prop) personas :
  (forall entry, In entry personas ->
     P (if String.eqb (fst entry) key then (fst entry, f (snd entry))
        else entry)) ->
  Forall P (write key f personas).
Proof.
  intros H. unfold write. apply Forall_map, Forall_forall. exact H.
Qed.

(** X14.  A [SwitchPersona] that returns [true] makes the target the active
    persona, flags it active with the current time as its last use, appends
    one transition event from the previous persona's id to the target, and
    starts the target's cool-down: any further switch to that target within
    five minutes returns [false] and changes nothing.  If the [Active] flag
    marked exactly the active persona before, it does so afterwards.  A
    switch to an id that is not a persona returns [false] and changes
    nothing. *)
Theorem SwitchPersona_activates_target
        (now : time_point) (targetPersonaID reason : string)
        (sys : PersonaSystem) :
  (forall sys',
     SwitchPersona now targetPersonaID reason sys = (true, sys') ->
     activePersona_ sys' = Some targetPersonaID
     /\ (exists persona,
           map_find targetPersonaID (personas_ sys') = Some persona
           /\ Active persona = true /\ LastUsed persona = now)
     /\ (exists event,
           history_ sys' = history_ sys ++ [event]
           /\ ToPersona event = targetPersonaID
           /\ Timestamp event = now /\ Reason event = reason)
     /\ (forall now' reason',
           (now' - now < cooldown)%Z ->
           SwitchPersona now' targetPersonaID reason' sys' = (false, sys'))
     /\ (one_active sys -> one_active sys'))
  /\ (map_find targetPersonaID (personas_ sys) = None ->
      SwitchPersona now targetPersonaID reason sys = (false, sys)).
Proof.
  split.
  - intros sys' Hswitch. unfold SwitchPersona in Hswitch.
    destruct (PersonaSystem_CanTransition now targetPersonaID sys) eqn:Hcan;
      cbn [negb] in Hswitch; [|discriminate].
    injection Hswitch as <-.
    unfold PersonaSystem_CanTransition in Hcan.
    destruct (map_find targetPersonaID (personas_ sys)) as [target|] eqn:Ht;
      [|discriminate].
    cbn [activePersona_ personas_ history_ manager_].
    split; [reflexivity|split; [|split; [|split]]].
    + rewrite write_find.
      destruct (activePersona_ sys) as [key|].
      * rewrite write_find, Ht, String.eqb_refl.
        eexists. split; [reflexivity|]. now split.
      * rewrite Ht, String.eqb_refl. eexists. split; [reflexivity|]. now split.
    + eexists. split; [reflexivity|]. now repeat split.
    + intros now' reason' Hsoon. unfold SwitchPersona, PersonaSystem_CanTransition.
      cbn [personas_ manager_].
      assert (Hthere : exists persona,
                map_find targetPersonaID
                  (write targetPersonaID
                     (fun persona => mkPersona (ID persona) true now)
                     match activePersona_ sys with
                     | Some key =>
                         write key
                           (fun persona =>
                              mkPersona (ID persona) false (LastUsed persona))
                           (personas_ sys)
                     | None => personas_ sys
                     end) = Some persona).
      { rewrite write_find. destruct (activePersona_ sys).
        - rewrite write_find, Ht. now eexists.
        - rewrite Ht. now eexists. }
      destruct Hthere as (persona & ->).
      destruct (ApplyTransition_starts_cooldown now now'
                  match activePersona_ sys with
                  | Some key =>
                      match map_find key (personas_ sys) with
                      | Some persona => ID persona
                      | None => ""
                      end
                  | None => ""
                  end targetPersonaID (manager_ sys)) as (-> & _).
      apply Z.ltb_lt in Hsoon. now rewrite Hsoon.
    + unfold one_active. cbn [activePersona_ personas_]. intros Hone.
      rewrite Forall_forall in Hone.
      apply write_flags. intros [k p] Hin. cbn [fst snd].
      assert (Hp : Active p = true -> k <> targetPersonaID -> False).
      { destruct (activePersona_ sys) as [key|] eqn:Hactive.
        - unfold write in Hin. apply in_map_iff in Hin.
          destruct Hin as ([k0 p0] & Heq & Hin0). cbn [fst snd] in Heq.
          destruct (String.eqb k0 key) eqn:Ek.
          + injection Heq as <- <-. cbn [Active]. discriminate.
          + injection Heq as <- <-. intros Hact _.
            apply (Hone _ Hin0) in Hact. cbn [fst] in Hact.
            injection Hact as <-. now rewrite String.eqb_refl in Ek.
        - intros Hact _. apply (Hone _ Hin) in Hact. discriminate. }
      destruct (String.eqb k targetPersonaID) eqn:Ek; cbn [fst snd].
      * apply String.eqb_eq in Ek. subst k. cbn [Active]. now split.
      * apply String.eqb_neq in Ek. split.
        -- intros Hact. exfalso. now apply Hp.
        -- intros [= Heq]. now subst k.
  - intros Hnone. unfold SwitchPersona, PersonaSystem_CanTransition.
    now rewrite Hnone.
Qed.

Lemma SwitchPersona_activates_target_witness :
  SwitchPersona 1000%Z "muse" "greeting" idle
  = (true, snd (SwitchPersona 1000%Z "muse" "greeting" idle))
  /\ activePersona_ (snd (SwitchPersona 1000%Z "muse" "greeting" idle))
     = Some "muse".
Proof.
  assert (H : SwitchPersona 1000%Z "muse" "greeting" idle
              = (true, snd (SwitchPersona 1000%Z "muse" "greeting" idle)))
    by reflexivity.
  split; [exact H|].
  exact (proj1 (proj1 (SwitchPersona_activates_target 1000%Z "muse" "greeting"
                         idle) _ H)).
Defined.

End Transitions.

(** ** Decay, correlations and derived traits *)

Section TraitUpkeep.
Import PersonaSystem Samples MoreSamples Shape.

Lemma map_find_mapped {V W} (f : V -> W) k (m : list (string * V)) :
  map_find k (map (fun entry => (fst entry, f (snd entry))) m)
  = option_map f (map_find k m).
Proof.
  induction m as [|[k' v] m IH]; [reflexivity|].
  cbn [map map_find fst snd]. now destruct (String.eqb k k').
Qed.

Lemma decayed_shrinks now trait :
  decays now trait ->
  0 <= CurrentValue (decayed now trait) <= CurrentValue trait.
Proof.
  intros (Hrate & Hvalue & Htime). unfold decayed. cbn [CurrentValue].
  set (days := IZR (hours_between now (LastUpdated trait)) / 24).
  assert (Hdays : 0 <= days).
  { subst days. apply hours_between_nonneg, IZR_le in Htime. lra. }
  pose proof (exp_pos (- DecayRate trait * days)) as Hpos.
  assert (Hle : exp (- DecayRate trait * days) <= 1)
    by (apply exp_nonpos_le_1; nra).
  split; nra.
Qed.

Lemma find_decays now name (traits : list (string * TraitEvolution)) trait :
  Forall (fun entry => decays now (snd entry)) traits ->
  map_find name traits = Some trait -> decays now trait.
Proof.
  induction 1 as [|[k t] rest Hhead Hrest IH]; [discriminate|].
  cbn [map_find]. destruct (String.eqb name k); [|exact IH].
  now intros [= <-].
Qed.

(** X15.  [ApplyTraitDecay] only lowers traits toward 0: when every trait of
    the active persona has a non-negative decay rate and value and was last
    updated no later than now, each trait's strength afterwards lies between
    0 and its strength before; traits in [0,1] stay in [0,1]; and since the
    update times are left alone, the same still holds for the next call. *)
Theorem ApplyTraitDecay_lowers_toward_zero
        (now : time_point) (sys : PersonaSystem) :
  all_decay now sys ->
  (forall traitName,
     0 <= GetTraitStrength traitName (ApplyTraitDecay now sys)
       <= GetTraitStrength traitName sys)
  /\ (in_range sys -> in_range (ApplyTraitDecay now sys))
  /\ all_decay now (ApplyTraitDecay now sys).
Proof.
  unfold all_decay, in_range, traits_in_range, ApplyTraitDecay, GetTraitStrength.
  destruct (activePersona_ sys) as [persona|] eqn:Hactive.
  - intros (Hcore & Hderived).
    cbn [activePersona_ Personality CoreTraits DerivedTraits].
    split; [|split].
    + intros traitName. rewrite !map_find_mapped.
      destruct (map_find traitName (CoreTraits (Personality persona)))
        as [trait|] eqn:Hc; cbn [option_map].
      * apply decayed_shrinks. now apply (find_decays now traitName _ _ Hcore).
      * destruct (map_find traitName (DerivedTraits (Personality persona)))
          as [trait|] eqn:Hd; cbn [option_map]; [|lra].
        apply decayed_shrinks.
        now apply (find_decays now traitName _ _ Hderived).
    + intros (Hrc & Hrd). split; apply Forall_map.
      * rewrite Forall_forall in *. intros entry Hin. cbn [snd].
        pose proof (decayed_shrinks now (snd entry) (Hcore entry Hin)).
        pose proof (Hrc entry Hin). lra.
      * rewrite Forall_forall in *. intros entry Hin. cbn [snd].
        pose proof (decayed_shrinks now (snd entry) (Hderived entry Hin)).
        pose proof (Hrd entry Hin). lra.
    + split; apply Forall_map.
      * rewrite Forall_forall in *. intros entry Hin. cbn [snd].
        pose proof (decayed_shrinks now (snd entry) (Hcore entry Hin)).
        destruct (Hcore entry Hin) as (Hr & Hv & Ht).
        unfold decays. cbn [DecayRate CurrentValue LastUpdated decayed] in *.
        repeat split; try assumption. lra.
      * rewrite Forall_forall in *. intros entry Hin. cbn [snd].
        pose proof (decayed_shrinks now (snd entry) (Hderived entry Hin)).
        destruct (Hderived entry Hin) as (Hr & Hv & Ht).
        unfold decays. cbn [DecayRate CurrentValue LastUpdated decayed] in *.
        repeat split; try assumption. lra.
  - intros _. rewrite Hactive. split; [intros; lra|split; trivial].
Qed.

Lemma ApplyTraitDecay_lowers_toward_zero_witness :
  all_decay 86400%Z calm
  /\ 0 <= GetTraitStrength "patience" (ApplyTraitDecay 86400%Z calm)
       <= GetTraitStrength "patience" calm.
Proof.
  assert (H : all_decay 86400%Z calm).
  { unfold all_decay, calm; cbn [activePersona_ Personality CoreTraits DerivedTraits].
    split; repeat constructor; unfold patience;
      cbn [snd DecayRate CurrentValue LastUpdated]; try lra; lia. }
  split; [exact H|].
  exact (proj1 (ApplyTraitDecay_lowers_toward_zero 86400%Z calm H) "patience").
Defined.

Lemma map_assign_in {V} k (v : V) m : In (k, v) (map_assign k v m).
Proof.
  induction m as [|[k' v'] m IH]; simpl; [now left|].
  destruct (String.eqb k k'); [now left|].
  destruct (String.ltb k k'); [now left|now right].
Qed.

(** X16.  On a persona that has both traits and no other correlation, an
    influence on [trait1] made after [AddTraitCorrelation(trait1, trait2, c)]
    returns with [trait1] influenced by the amount, [trait2] influenced by
    the amount times [c] under the evidence "correlated_trait", and every
    other trait as before, provided the name that the propagation from
    [trait2] reads out of the key (what follows its first
    [length trait2 + 1] characters) is not a trait of the persona. *)
Theorem AddTraitCorrelation_reaches_second_trait
        (depth : nat) (now : time_point) (trait1 trait2 : string)
        (correlation influence : R) (evidence : string)
        (persona : Persona) (log : list SaveTraitCall)
        (t1 t2 : TraitEvolution) :
  TraitCorrelations (Personality persona) = [] ->
  lookup_trait trait1 (Personality persona) = Some t1 ->
  lookup_trait trait2 (Personality persona) = Some t2 ->
  (forall stray,
     substr (String.append trait1 (String.append "_" trait2))
            (String.length trait2 + 1) = Some stray ->
     lookup_trait stray (Personality persona) = None) ->
  exists sys' persona',
    UpdateTrait (3 + depth) now trait1 influence evidence
      (AddTraitCorrelation trait1 trait2 correlation
         (mkPersonaSystem (Some persona) log))
    = Done sys'
    /\ activePersona_ sys' = Some persona'
    /\ lookup_trait trait1 (Personality persona')
       = Some (influenced now influence evidence t1)
    /\ lookup_trait trait2 (Personality persona')
       = Some (influenced now (influence * correlation) "correlated_trait" t2)
    /\ (forall other, other <> trait1 -> other <> trait2 ->
          lookup_trait other (Personality persona')
          = lookup_trait other (Personality persona)).
Proof.
  intros Htable Hone Htwo Hstray.
  set (key := String.append trait1 (String.append "_" trait2)) in *.
  assert (Hdistinct : trait1 <> trait2).
  { intros Heq.
    assert (Hself : substr key (String.length trait2 + 1) = Some trait2)
      by (unfold key; rewrite <- Heq at 2; apply substr_after_separator).
    rewrite (Hstray trait2 Hself) in Htwo. discriminate. }
  unfold AddTraitCorrelation. cbn [activePersona_ db_]. rewrite Htable.
  cbn [map_assign]. fold key.
  set (personality0 :=
         mkTraits (CoreTraits (Personality persona))
           (DerivedTraits (Personality persona)) [(key, correlation)]).
  assert (Hsame0 : forall name,
            lookup_trait name personality0
            = lookup_trait name (Personality persona)) by reflexivity.
  (* the call on the first trait *)
  destruct (lookup_after_influence now trait1 influence evidence personality0
              t1 ltac:(now rewrite Hsame0))
    as (personality1 & Hinf1 & Hlook1 & Htable1).
  pose proof (influence_traits_other _ _ _ _ _ _ trait2 Hinf1
                (not_eq_sym Hdistinct)) as Htwo1.
  rewrite Hsame0, Htwo in Htwo1.
  (* the call on the second trait *)
  destruct (lookup_after_influence now trait2 (influence * correlation)
              "correlated_trait" personality1 t2 Htwo1)
    as (personality2 & Hinf2 & Hlook2 & Htable2).
  assert (Hother2 : forall other, other <> trait1 -> other <> trait2 ->
            lookup_trait other personality2
            = lookup_trait other (Personality persona)).
  { intros other Hne1 Hne2.
    rewrite (influence_traits_other _ _ _ _ _ _ other Hinf2 Hne2).
    rewrite (influence_traits_other _ _ _ _ _ _ other Hinf1 Hne1).
    apply Hsame0. }
  change (3 + depth)%nat with (S (S (S depth))).
  cbn [UpdateTrait activePersona_ db_ Personality ID]. rewrite Hinf1.
  rewrite propagate_runs_calls. unfold correlations.
  cbn [activePersona_ Personality]. rewrite Htable1.
  unfold personality0 at 1. cbn [TraitCorrelations].
  unfold secondary_calls at 1. cbn [filter fst snd].
  unfold key at 1. rewrite contains_prefix. cbn [map fst snd].
  unfold key at 1. rewrite substr_after_separator.
  unfold run_calls at 1. cbn [fold_left and_then fst snd].
  cbn [UpdateTrait activePersona_ db_ Personality ID]. rewrite Hinf2.
  rewrite propagate_runs_calls. unfold correlations.
  cbn [activePersona_ Personality]. rewrite Htable2, Htable1.
  unfold personality0 at 1. cbn [TraitCorrelations].
  rewrite (stray_calls_return depth now
             (mkPersona (ID persona) personality2)).
  - eexists. eexists. split; [reflexivity|].
    cbn [activePersona_]. split; [reflexivity|]. cbn [Personality].
    split; [|split; [exact Hlook2|exact Hother2]].
    rewrite (influence_traits_other _ _ _ _ _ _ trait1 Hinf2 Hdistinct).
    exact Hlook1.
  - cbn [Personality]. apply stray_secondary_calls.
    intros entry [<- | []] _. cbn [fst].
    destruct (substr_defined key (String.length trait2 + 1)) as (stray & Hsub).
    { unfold key. rewrite length_append. cbn [String.append String.length].
      lia. }
    exists stray. split; [exact Hsub|].
    pose proof (Hstray stray Hsub) as Hnone.
    rewrite Hother2; [exact Hnone| |]; intros ->; congruence.
Qed.

Lemma AddTraitCorrelation_reaches_second_trait_witness :
  lookup_trait "a" (mkTraits [("a", plain); ("bb", plain)] [] []) = Some plain
  /\ lookup_trait "bb" (mkTraits [("a", plain); ("bb", plain)] [] [])
     = Some plain
  /\ substr "a_bb" 3 = Some "b"
  /\ lookup_trait "b" (mkTraits [("a", plain); ("bb", plain)] [] []) = None
  /\ exists sys' persona',
       UpdateTrait 3 0%Z "a" 0.4 "praise" (AddTraitCorrelation "a" "bb" 0.5 duo)
       = Done sys'
       /\ activePersona_ sys' = Some persona'
       /\ lookup_trait "bb" (Personality persona')
          = Some (influenced 0%Z (0.4 * 0.5) "correlated_trait" plain).
Proof.
  split; [reflexivity|split; [reflexivity|split; [reflexivity|]]].
  split; [reflexivity|].
  destruct (AddTraitCorrelation_reaches_second_trait 0 0%Z "a" "bb" 0.5 0.4
              "praise"
              (mkPersona "duo" (mkTraits [("a", plain); ("bb", plain)] [] []))
              [] plain plain eq_refl eq_refl eq_refl)
    as (sys' & persona' & Hrun & Hactive & _ & Htwo & _).
  - intros stray Hsub. injection Hsub as <-. reflexivity.
  - exists sys', persona'. split; [exact Hrun|split; [exact Hactive|exact Htwo]].
Defined.

(** X17.  [AddDerivedTrait] on a core trait the persona has stores the new
    trait with the base trait's current value times the influence; reading
    its strength gives that value unless a core trait bears the new name,
    which then keeps answering, and every other name reads as before.
    Without the base trait nothing changes. *)
Theorem AddDerivedTrait_strength
        (now : time_point) (baseTrait newTrait : string) (influence : R)
        (sys : PersonaSystem) (persona : Persona) :
  activePersona_ sys = Some persona ->
  (forall base,
     map_find baseTrait (CoreTraits (Personality persona)) = Some base ->
     GetTraitStrength newTrait (AddDerivedTrait now baseTrait newTrait influence sys)
     = match map_find newTrait (CoreTraits (Personality persona)) with
       | Some core => CurrentValue core
       | None => CurrentValue base * influence
       end
     /\ forall other, other <> newTrait ->
          GetTraitStrength other
            (AddDerivedTrait now baseTrait newTrait influence sys)
          = GetTraitStrength other sys)
  /\ (map_find baseTrait (CoreTraits (Personality persona)) = None ->
      AddDerivedTrait now baseTrait newTrait influence sys = sys).
Proof.
  intros Hactive. unfold AddDerivedTrait, GetTraitStrength. rewrite Hactive.
  split.
  - intros base ->. cbn [activePersona_ Personality CoreTraits DerivedTraits].
    split.
    + destruct (map_find newTrait (CoreTraits (Personality persona)));
        [reflexivity|].
      now rewrite map_find_assign_same.
    + intros other Hne.
      destruct (map_find other (CoreTraits (Personality persona)));
        [reflexivity|].
      now rewrite map_find_assign_other.
  - now intros ->.
Qed.

Lemma AddDerivedTrait_strength_witness :
  activePersona_ calm
  = Some (mkPersona "calm" (mkTraits [("patience", patience)] [] []))
  /\ AddDerivedTrait 0%Z "courage" "daring" 0.5 calm = calm.
Proof.
  split; [reflexivity|].
  exact (proj2 (AddDerivedTrait_strength 0%Z "courage" "daring" 0.5 calm _
                  eq_refl) eq_refl).
Defined.

End TraitUpkeep.

(** ** Memories of a persona *)

Section PersonaMemories.
Import PersonaSystem PersonaMemory Samples MoreSamples.

Lemma sift_of_fresh now : forall shortTerm longTerm,
  Forall (fun memory => fresh now memory = true) shortTerm ->
  sift now shortTerm longTerm
  = (filter (fun memory => negb (Rltb 0.7 (Importance memory))) shortTerm,
     longTerm ++ filter (fun memory => Rltb 0.7 (Importance memory)) shortTerm).
Proof.
  induction shortTerm as [|memory rest IH]; intros longTerm Hfresh;
    cbn [sift filter].
  - now rewrite app_nil_r.
  - inversion Hfresh as [|? ? Hm Hrest]; subst.
    unfold fresh in Hm. apply negb_true_iff in Hm. rewrite Hm, orb_false_r.
    destruct (Rltb 0.7 (Importance memory)) eqn:Himp; cbn [negb].
    + rewrite (IH _ Hrest). unfold MoveToLongTerm.
      replace (Rltb 0.5 (Importance memory)) with true
        by (symmetry; apply Rltb_true; apply Rltb_true in Himp; lra).
      cbn [orb]. now rewrite <- app_assoc.
    + now rewrite (IH _ Hrest).
Qed.

Lemma filter_twice {A} (p q : A -> bool) (l : list A) :
  filter q (filter p l) = filter (fun x => p x && q x) l.
Proof.
  induction l as [|x l IH]; [reflexivity|]. cbn [filter].
  destruct (p x); cbn [filter andb]; [|exact IH].
  destruct (q x); now rewrite IH.
Qed.

(** X18.  With an active persona, [ProcessMemories] leaves in the short-term
    list exactly the memories that are at most 24 whole hours old and of
    importance at most 0.7, in their order, and appends to the long-term
    list exactly the memories at most 24 whole hours old with importance
    above 0.7.  A short-term memory older than that is dropped from both
    lists: the branch that would move it by age is never reached, because
    the decay pass has removed it first. *)
Theorem ProcessMemories_sorts_short_term
        (depth : nat) (now : time_point) (store : MemoryStore)
        (sys : PersonaSystem.PersonaSystem) (persona : PersonaSystem.Persona) :
  PersonaSystem.activePersona_ sys = Some persona ->
  ShortTermMemories (fst (ProcessMemories depth now store sys))
  = filter (fun memory =>
              fresh now memory && negb (Rltb 0.7 (Importance memory)))
           (ShortTermMemories store)
  /\ LongTermMemories (fst (ProcessMemories depth now store sys))
     = LongTermMemories store
       ++ filter (fun memory =>
                    fresh now memory && Rltb 0.7 (Importance memory))
                 (ShortTermMemories store)
  /\ forall memory,
       In memory (ShortTermMemories store) -> fresh now memory = false ->
       ~ In memory (ShortTermMemories (fst (ProcessMemories depth now store sys)))
       /\ (In memory (LongTermMemories (fst (ProcessMemories depth now store sys)))
           -> In memory (LongTermMemories store)).
Proof.
  intros Hactive. unfold ProcessMemories. rewrite Hactive.
  unfold DecayShortTermMemories.
  cbn [ShortTermMemories LongTermMemories MemoryWeights].
  rewrite sift_of_fresh
    by (apply Forall_forall; intros m Hm; now apply filter_In in Hm).
  cbn [fst UpdateMemoryWeights ShortTermMemories LongTermMemories].
  rewrite !filter_twice.
  split; [reflexivity|split; [reflexivity|]].
  intros memory Hin Hstale. split.
  - intros Hkept. apply filter_In in Hkept. destruct Hkept as (_ & Hp).
    rewrite Hstale in Hp. discriminate.
  - intros Hmoved. apply in_app_or in Hmoved.
    destruct Hmoved as [Hold | Hnew]; [exact Hold|].
    apply filter_In in Hnew. destruct Hnew as (_ & Hp).
    rewrite Hstale in Hp. discriminate.
Qed.

Lemma ProcessMemories_sorts_short_term_witness :
  PersonaSystem.activePersona_ calm
  = Some (PersonaSystem.mkPersona "calm"
            (PersonaSystem.mkTraits [("patience", patience)] [] []))
  /\ LongTermMemories (fst (ProcessMemories 2 360000%Z shelf calm))
     = LongTermMemories shelf
       ++ filter (fun memory =>
                    fresh 360000%Z memory && Rltb 0.7 (Importance memory))
                 (ShortTermMemories shelf).
Proof.
  split; [reflexivity|].
  exact (proj1 (proj2 (ProcessMemories_sorts_short_term 2 360000%Z shelf calm
                         (PersonaSystem.mkPersona "calm"
                            (PersonaSystem.mkTraits [("patience", patience)]
                               [] []))
                         eq_refl))).
Defined.

Lemma UpdateTraitFromMemory_in_range depth now memory sys sys' :
  in_range sys ->
  UpdateTraitFromMemory depth now memory sys = Done sys' -> in_range sys'.
Proof.
  unfold UpdateTraitFromMemory. intros Hr.
  destruct (activePersona_ sys) eqn:Hactive; [|now intros [= <-]].
  clear Hactive. revert sys'.
  induction (TraitInfluences memory) as [|influence rest IH] using rev_ind;
    intros sys'.
  - simpl. now intros [= <-].
  - rewrite fold_left_app. cbn [fold_left].
    destruct (fold_left _ rest (Done sys)) as [mid| |mid|] eqn:Hmid;
      cbn [and_then]; try discriminate.
    intros Hcall. eapply UpdateTrait_in_range; [|exact Hcall]. now apply IH.
Qed.

Lemma CalculateMemoryInfluence_in_range
        (depth : nat) (now : time_point) (store : MemoryStore)
        (sys sys' : PersonaSystem.PersonaSystem) :
  in_range sys ->
  CalculateMemoryInfluence depth now store sys = Done sys' ->
  in_range sys'.
Proof.
  unfold CalculateMemoryInfluence. intros Hr.
  destruct (activePersona_ sys) eqn:Hactive; [|now intros [= <-]].
  clear Hactive.
  assert (Hshort : forall memories mid,
            fold_left
              (fun acc memory =>
                 and_then acc (UpdateTraitFromMemory depth now memory))
              memories (Done sys) = Done mid -> in_range mid).
  { induction memories as [|memory rest IH] using rev_ind; intros mid.
    - simpl. now intros [= <-].
    - rewrite fold_left_app. cbn [fold_left].
      destruct (fold_left _ rest (Done sys)) as [m| |m|] eqn:Hm;
        cbn [and_then]; try discriminate.
      intros Hcall. eapply UpdateTraitFromMemory_in_range; [|exact Hcall].
      now apply IH. }
  revert sys'.
  induction (LongTermMemories store) as [|memory rest IH] using rev_ind;
    intros sys'.
  - cbn [fold_left]. apply Hshort.
  - rewrite fold_left_app. cbn [fold_left].
    destruct (fold_left _ rest _) as [mid| |mid|] eqn:Hmid;
      cbn [and_then]; try discriminate.
    destruct (Rltb 0.7 (Importance memory)).
    + intros Hcall. eapply UpdateTraitFromMemory_in_range; [|exact Hcall].
      now apply IH.
    + intros [= <-]. now apply IH.
Qed.

(** A state from which every trait update returns: an active persona with
    an empty correlation table. *)
Lemma UpdateTrait_plain_returns depth now traitName influence evidence sys :
  plain_state sys ->
  exists sys',
    UpdateTrait (S depth) now traitName influence evidence sys = Done sys'
    /\ plain_state sys'.
Proof.
  unfold plain_state, correlations. intros (Hactive & Htable).
  cbn [UpdateTrait].
  destruct (activePersona_ sys) as [persona|]; [|contradiction].
  destruct (lookup_trait traitName (Personality persona)) as [trait|] eqn:Hlook.
  - destruct (lookup_after_influence now traitName influence evidence _ _ Hlook)
      as (personality' & -> & _ & Hsame).
    unfold propagate. cbn [activePersona_ Personality].
    rewrite Hsame, Htable. cbn [fold_left]. eexists. split; [reflexivity|].
    cbn [activePersona_ Personality]. rewrite Hsame, Htable.
    split; [discriminate|reflexivity].
  - rewrite (lookup_none_no_influence now traitName influence evidence _ Hlook).
    eexists. split; [reflexivity|]. cbn [activePersona_].
    split; [discriminate|exact Htable].
Qed.

Lemma fold_returns {A : Type} (P : PersonaSystem.PersonaSystem -> Prop)
      (k : A -> PersonaSystem.PersonaSystem -> outcome) (l : list A) :
  (forall x sys, P sys -> exists sys', k x sys = Done sys' /\ P sys') ->
  forall sys, P sys ->
  exists sys',
    fold_left (fun acc x => and_then acc (k x)) l (Done sys) = Done sys'
    /\ P sys'.
Proof.
  intros Hstep. induction l as [|x l IH]; intros sys HP; cbn [fold_left].
  - now exists sys.
  - cbn [and_then]. destruct (Hstep x sys HP) as (mid & -> & Hmid).
    now apply IH.
Qed.

Lemma UpdateTraitFromMemory_plain_returns depth now memory sys :
  plain_state sys ->
  exists sys',
    UpdateTraitFromMemory (S depth) now memory sys = Done sys'
    /\ plain_state sys'.
Proof.
  intros Hplain. unfold UpdateTraitFromMemory.
  destruct (activePersona_ sys) eqn:Hactive; [|now exists sys].
  apply (fold_returns plain_state
           (fun influence : string * R =>
              UpdateTrait (S depth) now (fst influence) (snd influence)
                "memory_influence")); [|exact Hplain].
  intros influence sys0. apply UpdateTrait_plain_returns.
Qed.

(** X19.  [CalculateMemoryInfluence] makes its trait updates through
    [UpdateTrait], all short-term memories first and then the long-term
    memories of importance above 0.7: whenever it returns, every trait of a
    persona whose traits were in [0,1] is in [0,1]; and with an active
    persona that has no trait correlations it does return, at any positive
    call depth. *)
Theorem CalculateMemoryInfluence_keeps_traits_in_range
        (depth : nat) (now : time_point) (store : MemoryStore)
        (sys : PersonaSystem.PersonaSystem) :
  in_range sys ->
  (forall sys',
     CalculateMemoryInfluence depth now store sys = Done sys' -> in_range sys')
  /\ (plain_state sys -> (0 < depth)%nat ->
      exists sys',
        CalculateMemoryInfluence depth now store sys = Done sys'
        /\ in_range sys').
Proof.
  intros Hr.
  assert (Hkeeps : forall sys',
            CalculateMemoryInfluence depth now store sys = Done sys' ->
            in_range sys')
    by (intros sys'; now apply CalculateMemoryInfluence_in_range).
  split; [exact Hkeeps|].
  intros Hplain Hdepth.
  assert (Hreturns : exists sys',
            CalculateMemoryInfluence depth now store sys = Done sys'
            /\ plain_state sys').
  { destruct depth as [|depth]; [inversion Hdepth|].
    unfold CalculateMemoryInfluence.
    destruct (activePersona_ sys) eqn:Hactive; [|now exists sys].
    destruct (fold_returns plain_state
                (fun memory => UpdateTraitFromMemory (S depth) now memory)
                (ShortTermMemories store)
                (fun memory sys0 =>
                   UpdateTraitFromMemory_plain_returns depth now memory sys0)
                sys Hplain) as (recent & Hrecent & Hplain').
    cbv zeta. rewrite Hrecent.
    apply (fold_returns plain_state
             (fun memory sys' =>
                if Rltb 0.7 (Importance memory)
                then UpdateTraitFromMemory (S depth) now memory sys'
                else Done sys')); [|exact Hplain'].
    intros memory sys0 Hplain0. destruct (Rltb 0.7 (Importance memory)).
    - now apply UpdateTraitFromMemory_plain_returns.
    - now exists sys0. }
  destruct Hreturns as (sys' & Hrun & _).
  exists sys'. split; [exact Hrun|now apply Hkeeps].
Qed.

Lemma CalculateMemoryInfluence_keeps_traits_in_range_witness :
  in_range calm
  /\ plain_state calm
  /\ (0 < 2)%nat
  /\ exists sys',
       CalculateMemoryInfluence 2 360000%Z shelf calm = Done sys'
       /\ in_range sys'.
Proof.
  assert (H : in_range calm).
  { unfold in_range, traits_in_range, calm;
      cbn [activePersona_ Personality CoreTraits DerivedTraits].
    split; repeat constructor; unfold patience; cbn [snd CurrentValue]; lra. }
  assert (Hplain : plain_state calm)
    by (split; [discriminate|reflexivity]).
  split; [exact H|split; [exact Hplain|split; [lia|]]].
  exact (proj2 (CalculateMemoryInfluence_keeps_traits_in_range 2 360000%Z
                  shelf calm H) Hplain (Nat.lt_0_succ 1)).
Defined.

Lemma importance_fold (influences : list (string * R)) : forall start,
  start <= fold_left (fun importance influence =>
                        importance + Rabs (snd influence) * 0.5)
                     influences start.
Proof.
  induction influences as [|influence rest IH]; intros start;
    cbn [fold_left]; [lra|].
  pose proof (IH (start + Rabs (snd influence) * 0.5)).
  pose proof (Rabs_pos (snd influence)). lra.
Qed.

(** X20.  [UpdateMemoryImportance] caps the importance at 1 and never puts
    it below the smaller of 1 and the emotional weight, so a memory with a
    non-negative emotional weight gets an importance in [0,1]; there is no
    lower clamp: with no trait influence the importance is the emotional
    weight itself (capped at 1), negative if that is negative. *)
Theorem UpdateMemoryImportance_bounds (memory : Memory) :
  Importance (UpdateMemoryImportance memory) <= 1
  /\ Rmin 1 (EmotionalWeight memory) <= Importance (UpdateMemoryImportance memory)
  /\ (0 <= EmotionalWeight memory ->
      0 <= Importance (UpdateMemoryImportance memory) <= 1)
  /\ (TraitInfluences memory = [] ->
      Importance (UpdateMemoryImportance memory)
      = Rmin 1 (EmotionalWeight memory)).
Proof.
  unfold UpdateMemoryImportance. cbn [Importance].
  pose proof (importance_fold (TraitInfluences memory) (EmotionalWeight memory))
    as Hfold.
  set (total := fold_left _ _ _) in *.
  assert (Hcap : Rmin 1 total <= 1) by apply Rmin_l.
  assert (Hlow : Rmin 1 (EmotionalWeight memory) <= Rmin 1 total).
  { apply Rmin_glb; [apply Rmin_l|].
    eapply Rle_trans; [apply Rmin_r|exact Hfold]. }
  split; [exact Hcap|split; [exact Hlow|split]].
  - intros Hpos. split; [|exact Hcap].
    eapply Rle_trans; [|exact Hlow]. apply Rmin_glb; lra.
  - intros Hnone. subst total. now rewrite Hnone.
Qed.

Lemma UpdateMemoryImportance_bounds_witness :
  0 <= EmotionalWeight keepsake
  /\ 0 <= Importance (UpdateMemoryImportance keepsake) <= 1.
Proof.
  assert (H : 0 <= EmotionalWeight keepsake) by (cbn [keepsake EmotionalWeight]; lra).
  split; [exact H|].
  exact (proj1 (proj2 (proj2 (UpdateMemoryImportance_bounds keepsake))) H).
Defined.

End PersonaMemories.

(** ** Emotional weight of short-term memories *)

Section EmotionalWeights.
Import PersonaMemory Samples MoreSamples.

Lemma resonance_boost_grows memory resonances : forall start,
  Forall (fun resonance => 0 <= Intensity resonance) resonances ->
  start <= fold_left (resonance_boost memory) resonances start.
Proof.
  induction resonances as [|resonance rest IH]; intros start Hpos;
    cbn [fold_left]; [lra|].
  inversion Hpos as [|? ? Hr Hrest]; subst.
  specialize (IH (resonance_boost memory start resonance) Hrest).
  unfold resonance_boost in *.
  destruct (existsb _ (AssociatedMemories resonance)); lra.
Qed.

Lemma pattern_boost_grows memory patterns : forall start,
  Forall (fun pattern => 0 <= CurrentIntensity pattern) patterns ->
  start <= fold_left (pattern_boost memory) patterns start.
Proof.
  induction patterns as [|pattern rest IH]; intros start Hpos;
    cbn [fold_left]; [lra|].
  inversion Hpos as [|? ? Hp Hrest]; subst.
  specialize (IH (pattern_boost memory start pattern) Hrest).
  unfold pattern_boost in *.
  destruct (existsb _ (PatternMemories pattern)); lra.
Qed.

Lemma resonance_boost_idle memory resonances : forall start,
  Forall (fun resonance =>
            ~ In (Content memory) (AssociatedMemories resonance)) resonances ->
  fold_left (resonance_boost memory) resonances start = start.
Proof.
  induction resonances as [|resonance rest IH]; intros start Hout;
    cbn [fold_left]; [reflexivity|].
  inversion Hout as [|? ? Hr Hrest]; subst.
  unfold resonance_boost at 2.
  destruct (existsb _ (AssociatedMemories resonance)) eqn:Hfound.
  - apply existsb_exists in Hfound. destruct Hfound as (name & Hin & Heq).
    apply String.eqb_eq in Heq. subst name. contradiction.
  - now apply IH.
Qed.

Lemma pattern_boost_idle memory patterns : forall start,
  Forall (fun pattern =>
            ~ In (Content memory) (map Content (PatternMemories pattern)))
         patterns ->
  fold_left (pattern_boost memory) patterns start = start.
Proof.
  induction patterns as [|pattern rest IH]; intros start Hout;
    cbn [fold_left]; [reflexivity|].
  inversion Hout as [|? ? Hp Hrest]; subst.
  unfold pattern_boost at 2.
  destruct (existsb _ (PatternMemories pattern)) eqn:Hfound.
  - apply existsb_exists in Hfound. destruct Hfound as (other & Hin & Heq).
    apply String.eqb_eq in Heq. exfalso. apply Hp. rewrite <- Heq.
    now apply in_map.
  - now apply IH.
Qed.

(** X21.  [PersonaSystem::UpdateMemoryWeightsWithEmotion] keeps the
    short-term memories, their order and every field of each but its
    importance (type, content, emotional weight, trait influences, tags and
    time stamp); every importance is at most 1 afterwards; with non-negative
    resonance and pattern intensities no importance at or below 1 is
    lowered; and a memory whose content no resonance lists and no pattern
    memory carries keeps its importance, capped at 1. *)
Theorem UpdateMemoryWeightsWithEmotion_caps_importance
        (resonances : list EmotionalResonance) (patterns : list Pattern)
        (shortTerm : list Memory) :
  Forall2 (fun old new =>
             Type_ new = Type_ old
             /\ Content new = Content old
             /\ EmotionalWeight new = EmotionalWeight old
             /\ TraitInfluences new = TraitInfluences old
             /\ Tags new = Tags old
             /\ Timestamp new = Timestamp old
             /\ Importance new
                = Rmin 1 (Importance old
                          + emotionalBoost resonances patterns old))
          shortTerm
          (UpdateMemoryWeightsWithEmotion resonances patterns shortTerm)
  /\ Forall (fun memory => Importance memory <= 1)
            (UpdateMemoryWeightsWithEmotion resonances patterns shortTerm)
  /\ (Forall (fun resonance => 0 <= Intensity resonance) resonances ->
      Forall (fun pattern => 0 <= CurrentIntensity pattern) patterns ->
      Forall2 (fun old new => Rmin 1 (Importance old) <= Importance new)
              shortTerm
              (UpdateMemoryWeightsWithEmotion resonances patterns shortTerm))
  /\ (forall memory,
        In memory shortTerm ->
        Forall (fun resonance =>
                  ~ In (Content memory) (AssociatedMemories resonance))
               resonances ->
        Forall (fun pattern =>
                  ~ In (Content memory) (map Content (PatternMemories pattern)))
               patterns ->
        In (with_importance (Rmin 1 (Importance memory)) memory)
           (UpdateMemoryWeightsWithEmotion resonances patterns shortTerm)).
Proof.
  unfold UpdateMemoryWeightsWithEmotion.
  split; [|split; [|split]].
  - induction shortTerm as [|memory rest IH]; cbn [map]; constructor;
      [|exact IH].
    cbn [with_importance Type_ Content EmotionalWeight TraitInfluences Tags
         Timestamp Importance].
    now repeat split.
  - apply Forall_map, Forall_forall. intros memory _.
    cbn [with_importance Importance]. apply Rmin_l.
  - intros Hres Hpat.
    induction shortTerm as [|memory rest IH]; cbn [map]; constructor;
      [|exact IH].
    cbn [with_importance Importance].
    assert (0 <= emotionalBoost resonances patterns memory).
    { unfold emotionalBoost.
      eapply Rle_trans; [|apply pattern_boost_grows; exact Hpat].
      now apply resonance_boost_grows. }
    apply Rmin_glb; [apply Rmin_l|].
    eapply Rle_trans; [apply Rmin_r|lra].
  - intros memory Hin Hres Hpat. apply in_map_iff. exists memory.
    split; [|exact Hin]. unfold emotionalBoost.
    rewrite pattern_boost_idle, resonance_boost_idle by assumption.
    now rewrite Rplus_0_r.
Qed.

Lemma UpdateMemoryWeightsWithEmotion_caps_importance_witness :
  Forall (fun resonance => 0 <= Intensity resonance)
         [mkEmotionalResonance 0.9 1 "praise" 0%Z 0%Z ["first meeting"]]
  /\ Forall2 (fun old new => Rmin 1 (Importance old) <= Importance new)
             [keepsake]
             (UpdateMemoryWeightsWithEmotion
                [mkEmotionalResonance 0.9 1 "praise" 0%Z 0%Z ["first meeting"]]
                [] [keepsake]).
Proof.
  assert (H : Forall (fun resonance => 0 <= Intensity resonance)
                [mkEmotionalResonance 0.9 1 "praise" 0%Z 0%Z ["first meeting"]]).
  { repeat constructor. cbn [Intensity]. lra. }
  split; [exact H|].
  exact (proj1 (proj2 (proj2
           (UpdateMemoryWeightsWithEmotion_caps_importance
              [mkEmotionalResonance 0.9 1 "praise" 0%Z 0%Z ["first meeting"]]
              [] [keepsake]))) H (Forall_nil _)).
Defined.

End EmotionalWeights.

(** ** Mood, arousal and emotional baselines *)

Section Moods.
Import PersonaMood Samples MoreSamples.

Lemma clamp_bounds (low value : R) :
  low <= 1 -> low <= Rmin 1 (Rmax low value) <= 1.
Proof.
  intros Hlow. split; [|apply Rmin_l].
  apply Rmin_glb; [exact Hlow|apply Rmax_l].
Qed.

(** X22.  With an active persona [CalculateEmotionalInfluence] leaves the
    mood in [-1,1] and the arousal in [0,1], wherever they were before.
    Flirty content is looked at first: when the interaction carries it, the
    "flirty_interaction" time effect is (re)started with base value 0.3 and
    the "negative_interaction" effect is left as it was, also when negative
    content is present as well. *)
Theorem CalculateEmotionalInfluence_restores_ranges
        {V : Type} (now : time_point) (data : list (string * V))
        (persona : Persona) :
  exists persona',
    CalculateEmotionalInfluence now data (Some persona) = Some persona'
    /\ -1 <= Mood (CurrentState persona') <= 1
    /\ 0 <= Arousal (CurrentState persona') <= 1
    /\ (has_key "flirty_content" data = true ->
        map_find "flirty_interaction" (TimeEffects persona')
        = Some (mkTimeBasedEffect 0.3 0.1 2 now)
        /\ map_find "negative_interaction" (TimeEffects persona')
           = map_find "negative_interaction" (TimeEffects persona)
        /\ Mood (CurrentState persona')
           = Rmin 1 (Rmax (-1) (Mood (CurrentState persona) + 0.2))).
Proof.
  unfold CalculateEmotionalInfluence.
  destruct (has_key "flirty_content" data) eqn:Hflirty;
    [|destruct (has_key "negative_content" data)];
    cbn [ProcessArousalChange add_mood clamp_state set_state CurrentState
         TimeEffects Mood Arousal EmotionalBaselines LastUsed
         LastArousalChange LastInteraction];
    eexists; (split; [reflexivity|]);
    cbn [CurrentState TimeEffects Mood Arousal];
    (split; [apply clamp_bounds; lra|]);
    (split; [apply clamp_bounds; lra|]); try discriminate.
  intros _. split; [apply map_find_assign_same|].
  split; [|reflexivity].
  apply map_find_assign_other. discriminate.
Qed.

Lemma CalculateEmotionalInfluence_restores_ranges_witness :
  exists persona',
    CalculateEmotionalInfluence 0%Z [("flirty_content", tt)] moody
    = Some persona'
    /\ -1 <= Mood (CurrentState persona') <= 1.
Proof.
  destruct (CalculateEmotionalInfluence_restores_ranges 0%Z
              [("flirty_content", tt)]
              (mkPersona (mkEmotionalState 3 (- 2) 0%Z 0%Z)
                 [] [("joy", 0.9); ("fear", 0.1)] 0%Z))
    as (persona' & Hrun & Hmood & _).
  exists persona'. split; [exact Hrun|exact Hmood].
Defined.

(** X23.  [UpdateEmotionalBaselines], run at or after the persona's
    [LastUsed], keeps the emotions and their order and never takes a
    baseline across 0.5: a baseline at or above 0.5 stays at or above it,
    one at or below stays at or below, and a baseline in [0,1] stays in
    [0,1].  Each baseline becomes
    0.5 + (baseline - 0.5) * exp(-0.01 * whole hours since LastUsed). *)
Theorem UpdateEmotionalBaselines_keeps_side_and_range
        (now : time_point) (persona : Persona) :
  (LastUsed persona <= now)%Z ->
  exists persona',
    UpdateEmotionalBaselines now (Some persona) = Some persona'
    /\ CurrentState persona' = CurrentState persona
    /\ LastUsed persona' = LastUsed persona
    /\ Forall2 (fun old new =>
                  fst new = fst old
                  /\ snd new
                     = 0.5 + (snd old - 0.5)
                             * exp (- 0.01
                                    * IZR (hours_between now (LastUsed persona)))
                  /\ (0.5 <= snd old -> 0.5 <= snd new)
                  /\ (snd old <= 0.5 -> snd new <= 0.5)
                  /\ (0 <= snd old <= 1 -> 0 <= snd new <= 1))
               (EmotionalBaselines persona) (EmotionalBaselines persona').
Proof.
  intros Hafter. unfold UpdateEmotionalBaselines. eexists.
  split; [reflexivity|]. cbn [EmotionalBaselines CurrentState LastUsed].
  split; [reflexivity|split; [reflexivity|]].
  set (hours := hours_between now (LastUsed persona)).
  assert (Hhours : (0 <= hours)%Z) by (apply hours_between_nonneg; lia).
  assert (Hfactor : 0 < exp (- 0.01 * IZR hours) <= 1).
  { split; [apply exp_pos|]. apply exp_nonpos_le_1.
    apply IZR_le in Hhours. lra. }
  set (factor := exp (- 0.01 * IZR hours)) in *.
  induction (EmotionalBaselines persona) as [|[emotion baseline] rest IH];
    cbn [map]; constructor; [|exact IH].
  cbn [fst snd]. split; [reflexivity|split; [reflexivity|]].
  split; [|split]; intros Hside; nra.
Qed.

Lemma UpdateEmotionalBaselines_keeps_side_and_range_witness :
  (0 <= 36000)%Z
  /\ exists persona',
       UpdateEmotionalBaselines 36000%Z moody = Some persona'
       /\ Forall2 (fun old new =>
                     fst new = fst old
                     /\ (0 <= snd old <= 1 -> 0 <= snd new <= 1))
                  [("joy", 0.9); ("fear", 0.1)] (EmotionalBaselines persona').
Proof.
  split; [lia|].
  destruct (UpdateEmotionalBaselines_keeps_side_and_range 36000%Z
              (mkPersona (mkEmotionalState 3 (- 2) 0%Z 0%Z)
                 [] [("joy", 0.9); ("fear", 0.1)] 0%Z))
    as (persona' & Hrun & _ & _ & Hall); [cbn [LastUsed]; lia|].
  exists persona'. split; [exact Hrun|].
  cbn [EmotionalBaselines] in Hall.
  eapply Forall2_impl; [|exact Hall].
  intros old new (Hkey & _ & _ & _ & Hrange). now split.
Defined.

End Moods.

(** ** Choosing the response style *)

Section ResponseStyle.
Import Style Samples MoreSamples.

Lemma loop_chooses context context_ rules :
  chosen context context_ rules
    (fold_left (consider context context_) rules (None, (-1)%Z)).
Proof.
  induction rules as [|rule rules IH] using rev_ind.
  - cbn. split; [reflexivity|]. intros rule [].
  - rewrite fold_left_app. cbn [fold_left].
    destruct (fold_left _ rules _) as [bestRule bestPriority].
    unfold chosen in IH. cbn [fst snd] in IH.
    unfold consider, chosen. cbn [snd].
    destruct (MatchesCondition (Condition rule) context) eqn:Hmatch;
      cbn [andb];
      [destruct (bestPriority <? Priority rule)%Z eqn:Hbetter; cbn [andb];
       [destruct (ValidateConstraints context_ (Constraints rule)) eqn:Hvalid|]
      |]; cbn [fst snd].
    + (* the rule is taken *)
      apply Z.ltb_lt in Hbetter.
      assert (Hq : qualifies context context_ rule = true)
        by (unfold qualifies; now rewrite Hmatch, Hvalid).
      split; [reflexivity|].
      destruct bestRule as [old|].
      * destruct IH as (-> & Hold & _ & before & after & -> & Hb & Ha).
        split; [lia|split; [exact Hq|]].
        exists (before ++ old :: after), [].
        split; [reflexivity|split; [|intros other []]].
        intros other Hin Hother. apply in_app_or in Hin.
        destruct Hin as [Hin | [<- | Hin]].
        -- specialize (Hb other Hin Hother). lia.
        -- exact Hbetter.
        -- specialize (Ha other Hin Hother). lia.
      * destruct IH as (-> & Hnone).
        split; [exact Hbetter|split; [exact Hq|]].
        exists rules, [].
        split; [reflexivity|split; [|intros other []]].
        intros other Hin Hother. specialize (Hnone other Hin Hother). lia.
    + (* refused by its constraints *)
      destruct bestRule as [old|].
      * destruct IH as (-> & Hold & Hq & before & after & -> & Hb & Ha).
        split; [reflexivity|split; [exact Hold|split; [exact Hq|]]].
        exists before, (after ++ [rule]).
        split; [now rewrite <- app_assoc|split; [exact Hb|]].
        intros other Hin Hother. apply in_app_or in Hin.
        destruct Hin as [Hin | [<- | []]]; [now apply Ha|].
        unfold qualifies in Hother. rewrite Hmatch, Hvalid in Hother.
        discriminate.
      * destruct IH as (-> & Hnone). split; [reflexivity|].
        intros other Hin Hother. apply in_app_or in Hin.
        destruct Hin as [Hin | [<- | []]]; [now apply Hnone|].
        unfold qualifies in Hother. rewrite Hmatch, Hvalid in Hother.
        discriminate.
    + (* not above the best priority *)
      apply Z.ltb_ge in Hbetter.
      destruct bestRule as [old|].
      * destruct IH as (-> & Hold & Hq & before & after & -> & Hb & Ha).
        split; [reflexivity|split; [exact Hold|split; [exact Hq|]]].
        exists before, (after ++ [rule]).
        split; [now rewrite <- app_assoc|split; [exact Hb|]].
        intros other Hin Hother. apply in_app_or in Hin.
        destruct Hin as [Hin | [<- | []]]; [now apply Ha|exact Hbetter].
      * destruct IH as (-> & Hnone). split; [reflexivity|].
        intros other Hin Hother. apply in_app_or in Hin.
        destruct Hin as [Hin | [<- | []]]; [now apply Hnone|exact Hbetter].
    + (* the condition does not match *)
      destruct bestRule as [old|].
      * destruct IH as (-> & Hold & Hq & before & after & -> & Hb & Ha).
        split; [reflexivity|split; [exact Hold|split; [exact Hq|]]].
        exists before, (after ++ [rule]).
        split; [now rewrite <- app_assoc|split; [exact Hb|]].
        intros other Hin Hother. apply in_app_or in Hin.
        destruct Hin as [Hin | [<- | []]]; [now apply Ha|].
        unfold qualifies in Hother. rewrite Hmatch in Hother. discriminate.
      * destruct IH as (-> & Hnone). split; [reflexivity|].
        intros other Hin Hother. apply in_app_or in Hin.
        destruct Hin as [Hin | [<- | []]]; [now apply Hnone|].
        unfold qualifies in Hother. rewrite Hmatch in Hother. discriminate.
Qed.

(** X24.  With an active persona [GetResponseStyle] returns a rule of highest
    priority among the rules whose condition matches the given context and
    whose constraints avoid the system's restrictions, and the first such
    rule in the persona's order: every qualifying rule before it has a
    strictly lower priority and every one after it has no higher priority.
    A rule of negative priority is never returned; when no qualifying rule
    has priority 0 or more, the default rule is returned. *)
Theorem GetResponseStyle_picks_first_highest
        (rules : list PersonaStyleRule) (context context_ : PersonaContext) :
  match GetResponseStyle (Some rules) context context_ with
  | Some rule =>
      qualifies context context_ rule = true
      /\ (0 <= Priority rule)%Z
      /\ exists before after,
           rules = before ++ rule :: after
           /\ (forall other, In other before ->
                 qualifies context context_ other = true ->
                 (Priority other < Priority rule)%Z)
           /\ (forall other, In other after ->
                 qualifies context context_ other = true ->
                 (Priority other <= Priority rule)%Z)
  | None =>
      forall rule, In rule rules ->
        qualifies context context_ rule = true -> (Priority rule < 0)%Z
  end.
Proof.
  unfold GetResponseStyle.
  pose proof (loop_chooses context context_ rules) as Hloop.
  unfold chosen in Hloop.
  destruct (fst (fold_left _ rules _)) as [rule|].
  - destruct Hloop as (_ & Hprio & Hq & Hsplit).
    split; [exact Hq|split; [lia|exact Hsplit]].
  - destruct Hloop as (_ & Hnone). intros rule Hin Hq.
    specialize (Hnone rule Hin Hq). lia.
Qed.

Lemma GetResponseStyle_picks_first_highest_witness :
  exists rule,
    GetResponseStyle (Some [feminine_rule; romantic_rule])
      romantic_mood romantic_mood = Some rule
    /\ qualifies romantic_mood romantic_mood rule = true
    /\ (0 <= Priority rule)%Z.
Proof.
  pose proof (GetResponseStyle_picks_first_highest
                [feminine_rule; romantic_rule] romantic_mood romantic_mood)
    as Hpick.
  destruct (GetResponseStyle (Some [feminine_rule; romantic_rule])
              romantic_mood romantic_mood) as [rule|] eqn:Hrun.
  - exists rule. destruct Hpick as (Hq & Hprio & _). now repeat split.
  - vm_compute in Hrun. discriminate Hrun.
Defined.

End ResponseStyle.
